(** * NGA image downloader: model of [project/scripts/download_images.py]

    The script joins four CSV tables of the National Gallery of Art open
    data set, filters the image table by classification and by artist,
    downloads every remaining image from a worker pool and keeps a log
    and a description table.

    The tables are lists of rows, a pandas cell is [NaN] or a string, the
    effects of a download task are a list of actions on the output folder,
    and a run of the worker pool is any interleaving of the tasks'
    actions.

    A string is a sequence of characters below 256 (Latin-1).  A table is
    read as one block, and the model covers the tables whose text columns
    [read_csv] reads as text (see [modelled]). *)

From Stdlib Require Import String Ascii List ZArith Lia Bool Permutation
  DecimalString.
Import ListNotations.
Local Open Scope string_scope.
Local Open Scope Z_scope.

Set Implicit Arguments.

(** ** pandas values *)

(** A cell of a column that [read_csv] reads as text (dtype object, or
    float64 when every cell is missing, see [dtype] below): [NaN] where
    it found no value. *)
Inductive cell : Type :=
| NaN
| Str (s : string).

(** A cell of a numeric key column; [None] is NaN. *)
Definition key := option Z.

Definition key_eqb (a b : key) : bool :=
  match a, b with
  | Some x, Some y => Z.eqb x y
  | None, None => true
  | _, _ => false
  end.

(** The strings [pd.read_csv] reads as NaN when called with its default
    arguments. *)
Definition na_values : list string :=
  [EmptyString; "#N/A"; "#N/A N/A"; "#NA"; "-1.#IND"; "-1.#QNAN"; "-NaN";
   "-nan"; "1.#IND"; "1.#QNAN"; "<NA>"; "N/A"; "NA"; "NULL"; "NaN"; "None";
   "n/a"; "nan"; "null"].

Definition mem (s : string) (l : list string) : bool :=
  existsb (String.eqb s) l.

(** A text field of a CSV line: [None] when the line has no such field. *)
Definition field := option string.

Definition read_field (f : field) : cell :=
  match f with
  | None => NaN
  | Some s => if mem s na_values then NaN else Str s
  end.

(** [len(l) == 0] *)
Definition is_empty {A : Type} (l : list A) : bool :=
  match l with
  | [] => true
  | _ :: _ => false
  end.

(** *** The type of a column

    [read_csv] reads a column as numbers or truth values when every cell
    that is present can be read so, and then the cells are no strings. *)

Definition number_characters : list ascii :=
  (list_ascii_of_string "0123456789+-.eEinfityaINFITYA "
   ++ map ascii_of_nat [9; 10; 11; 12; 13]%nat)%list.

Definition truth_values : list string :=
  ["True"; "TRUE"; "true"; "False"; "FALSE"; "false"].

(** Every text that [read_csv] can read as a number or a truth value
    satisfies [maybe_number]: digits with a sign, a point and an
    exponent, blanks around them, the spellings of infinity and of nan,
    the truth values.  (Some other texts satisfy it too.) *)
Definition maybe_number (s : string) : bool :=
  forallb (fun c => existsb (Ascii.eqb c) number_characters)
          (list_ascii_of_string s)
  || mem s truth_values.

Definition is_text (c : cell) : bool :=
  match c with
  | NaN => false
  | Str s => negb (maybe_number s)
  end.

Definition notna (c : cell) : bool :=
  match c with
  | NaN => false
  | Str _ => true
  end.

Inductive dtype : Type :=
| object       (** strings and NaN: no line, or a cell that is no number *)
| float64      (** every cell is missing *)
| inferred.    (** int64, float64, bool or object: not modelled *)

Definition infer_dtype (column : list cell) : dtype :=
  if is_empty column || existsb is_text column then object
  else if existsb notna column then inferred
  else float64.

(** The column is read as the model has it. *)
Definition text_column (column : list cell) : bool :=
  match infer_dtype column with
  | inferred => false
  | _ => true
  end.

(** A key that a float64 column holds exactly (a key column with a
    missing cell is float64). *)
Definition exact_key (k : key) : bool :=
  match k with
  | Some z => Z.abs z <=? 2 ^ 53
  | None => true
  end.

(** [Series.isin(values)] on a text column and on a key column. *)
Definition isin (c : cell) (values : list string) : bool :=
  match c with
  | NaN => false
  | Str s => mem s values
  end.

Definition isin_key (k : key) (values : list key) : bool :=
  existsb (key_eqb k) values.

(** [Series.unique()]: first occurrences, in order. *)
Fixpoint unique (l : list key) : list key :=
  match l with
  | [] => []
  | k :: l' => k :: filter (fun x => negb (key_eqb k x)) (unique l')
  end.

(** [series == s] on a text cell. *)
Definition cell_is (c : cell) (s : string) : bool :=
  match c with
  | NaN => false
  | Str t => String.eqb t s
  end.

(** An optional list argument ([None] by default) and its truth value:
    [None] and the empty list are false. *)
Definition truthy {A : Type} (l : option (list A)) : bool :=
  match l with
  | Some (_ :: _) => true
  | _ => false
  end.

Definition items {A : Type} (l : option (list A)) : list A :=
  match l with
  | Some xs => xs
  | None => []
  end.

(** ** The four tables

    Each record lists the columns the script reads; [T] is [field] for a
    line of the file and [cell] for a row of the data frame. *)

Module published_images.
Record row (T : Type) : Type := mk
  { uuid : T; iiifurl : T; depictstmsobjectid : key }.
Definition read_line (l : row field) : row cell :=
  mk (read_field (uuid l)) (read_field (iiifurl l)) (depictstmsobjectid l).
Definition read_csv (lines : list (row field)) : list (row cell) :=
  map read_line lines.
End published_images.

Module objects.
Record row (T : Type) : Type := mk
  { objectid : key; title : T; displaydate : T; classification : T;
    subclassification : T; medium : T }.
Definition read_line (l : row field) : row cell :=
  mk (objectid l) (read_field (title l)) (read_field (displaydate l))
     (read_field (classification l)) (read_field (subclassification l))
     (read_field (medium l)).
Definition read_csv (lines : list (row field)) : list (row cell) :=
  map read_line lines.
End objects.

Module constituents.
Record row (T : Type) : Type := mk
  { constituentid : key; preferreddisplayname : T }.
Definition read_line (l : row field) : row cell :=
  mk (constituentid l) (read_field (preferreddisplayname l)).
Definition read_csv (lines : list (row field)) : list (row cell) :=
  map read_line lines.
End constituents.

Module objects_constituents.
Record row (T : Type) : Type := mk
  { objectid : key; constituentid : key; roletype : T }.
Definition read_line (l : row field) : row cell :=
  mk (objectid l) (constituentid l) (read_field (roletype l)).
Definition read_csv (lines : list (row field)) : list (row cell) :=
  map read_line lines.
End objects_constituents.

Definition image : Type := published_images.row cell.
Definition images_csv : Type := list (published_images.row field).
Definition objects_csv : Type := list (objects.row field).
Definition constituents_csv : Type := list (constituents.row field).
Definition objects_constituents_csv : Type :=
  list (objects_constituents.row field).

(** ** filter_by_classification *)

Definition filter_by_classification (images_df : list image)
    (objects_path : objects_csv)
    (allowed_classifications excluded_subclassifications : option (list string))
    : list image :=
  let objects := objects.read_csv objects_path in
  let objects :=
    if truthy allowed_classifications
    then filter (fun o => isin (objects.classification o)
                               (items allowed_classifications)) objects
    else objects in
  let objects :=
    if truthy excluded_subclassifications
    then filter (fun o => negb (isin (objects.subclassification o)
                                     (items excluded_subclassifications)))
                objects
    else objects in
  let object_ids := unique (map (@objects.objectid cell) objects) in
  filter (fun r => isin_key (published_images.depictstmsobjectid r) object_ids)
         images_df.

(** The object rows that pass the two conditions. *)
Definition kept_objects (objects_path : objects_csv)
    (allowed excluded : option (list string)) : list (objects.row cell) :=
  filter (fun o => (negb (truthy allowed)
                    || isin (objects.classification o) (items allowed))
                   && (negb (truthy excluded)
                       || negb (isin (objects.subclassification o)
                                     (items excluded))))
         (objects.read_csv objects_path).

(** ** Regular expressions

    [Series.str.contains(pat, case=False, na=False)] searches each cell
    for the regular expression [pat] ([regex=True] is the default).  The
    model covers this fragment of Python's [re] syntax, on text whose
    characters are those of Latin-1, one [ascii] for each: alternation
    [|], the wildcard [.] and ordinary characters.  A pattern with any
    other special character (a quantifier, a group, a class, an anchor,
    an escape) is outside the fragment and [compile] answers [None] for
    it. *)

Module re.

Inductive atom : Type :=
| Lit (c : ascii)
| Dot.

Definition branch : Type := list atom.

Definition special_characters : list ascii :=
  list_ascii_of_string ".^$*+?{}[]\|()".

Definition is_special (c : ascii) : bool :=
  existsb (Ascii.eqb c) special_characters.

Definition parse_atom (c : ascii) : option atom :=
  if Ascii.eqb c "." then Some Dot
  else if is_special c then None
  else Some (Lit c).

Fixpoint parse_branch (s : string) : option branch :=
  match s with
  | EmptyString => Some []
  | String c s' =>
      match parse_atom c, parse_branch s' with
      | Some a, Some b => Some (a :: b)
      | _, _ => None
      end
  end.

(** The alternatives of a pattern: the pieces between the bars. *)
Fixpoint split_bar (s : string) : list string :=
  match s with
  | EmptyString => [EmptyString]
  | String c s' =>
      if Ascii.eqb c "|" then EmptyString :: split_bar s'
      else match split_bar s' with
           | [] => [String c EmptyString]
           | b :: bs => String c b :: bs
           end
  end.

Fixpoint parse_branches (l : list string) : option (list branch) :=
  match l with
  | [] => Some []
  | s :: l' =>
      match parse_branch s, parse_branches l' with
      | Some b, Some bs => Some (b :: bs)
      | _, _ => None
      end
  end.

Definition compile (pat : string) : option (list branch) :=
  parse_branches (split_bar pat).

(** The lower case of a Latin-1 character, by which [re.IGNORECASE]
    compares: A to Z and the accented capitals (all of 192 to 222 but the
    multiplication sign) are 32 below their small letters. *)
Definition lower (c : ascii) : ascii :=
  let n := nat_of_ascii c in
  if ((65 <=? n) && (n <=? 90)
      || (192 <=? n) && (n <=? 214)
      || (216 <=? n) && (n <=? 222))%nat
  then ascii_of_nat (n + 32) else c.

Fixpoint lower_string (s : string) : string :=
  match s with
  | EmptyString => EmptyString
  | String c s' => String (lower c) (lower_string s')
  end.

Definition newline : ascii := ascii_of_nat 10.

Definition atom_matches (ignorecase : bool) (a : atom) (c : ascii) : bool :=
  match a with
  | Lit x => if ignorecase then Ascii.eqb (lower x) (lower c)
             else Ascii.eqb x c
  | Dot => negb (Ascii.eqb c newline)
  end.

(** The branch matches a prefix of [s]. *)
Fixpoint match_here (ignorecase : bool) (b : branch) (s : string) : bool :=
  match b with
  | [] => true
  | a :: b' =>
      match s with
      | EmptyString => false
      | String c s' => atom_matches ignorecase a c
                       && match_here ignorecase b' s'
      end
  end.

(** The branch matches somewhere in [s]. *)
Fixpoint search_branch (ignorecase : bool) (b : branch) (s : string) : bool :=
  match_here ignorecase b s
  || match s with
     | EmptyString => false
     | String _ s' => search_branch ignorecase b s'
     end.

(** [re.search(p, s)] finds a match. *)
Definition search (ignorecase : bool) (p : list branch) (s : string) : bool :=
  existsb (fun b => search_branch ignorecase b s) p.

End re.

(** One cell of [column.str.contains(p, case=case, na=na)], for a
    compiled pattern. *)
Definition str_contains (p : list re.branch) (case na : bool) (c : cell)
    : bool :=
  match c with
  | NaN => na
  | Str s => re.search (negb case) p s
  end.

(** Normal return or a raised exception with its message. *)
Inductive result (A : Type) : Type :=
| Normal (a : A)
| Raise (e : string).
Arguments Normal {A} a.
Arguments Raise {A} e.

(** [column.str]: only a column of strings has the accessor; [None] for
    a column whose type is not modelled. *)
Definition str_accessor (column : list cell) : option (result unit) :=
  match infer_dtype column with
  | object => Some (Normal tt)
  | float64 =>
      Some (Raise
        "AttributeError: Can only use .str accessor with string values!")
  | inferred => None
  end.

(** ** filter_by_artists

    [None] when the pattern built from the names is outside the modelled
    fragment of regular expressions, or the type of the column of the
    names is not modelled. *)

(** Lines 135 to 138: the constituents whose name the pattern finds. *)
Definition selected_constituents
    (constituents : list (constituents.row cell)) (artist_names : list string)
    : option (result (list (constituents.row cell))) :=
  match str_accessor
          (map (@constituents.preferreddisplayname cell) constituents) with
  | None => None
  | Some (Raise e) => Some (Raise e)
  | Some (Normal _) =>
      match re.compile (String.concat "|" artist_names) with
      | None => None
      | Some pat =>
          Some (Normal
                  (filter (fun c => str_contains pat false false
                                      (constituents.preferreddisplayname c))
                          constituents))
      end
  end.

Definition filter_by_artists (images_df : list image)
    (constituents_path : constituents_csv)
    (objects_constituents_path : objects_constituents_csv)
    (artist_names : option (list string)) : option (result (list image)) :=
  let constituents := constituents.read_csv constituents_path in
  let objects_constituents :=
    objects_constituents.read_csv objects_constituents_path in
  if truthy artist_names then
    match selected_constituents constituents (items artist_names) with
    | None => None
    | Some (Raise e) => Some (Raise e)
    | Some (Normal selected) =>
        let constituent_ids :=
          map (@constituents.constituentid cell) selected in
        let artist_objects :=
          filter (fun l =>
                    isin_key (objects_constituents.constituentid l)
                             constituent_ids
                    && cell_is (objects_constituents.roletype l) "artist")
                 objects_constituents in
        let object_ids :=
          unique (map (@objects_constituents.objectid cell) artist_objects) in
        Some (Normal
                (filter (fun r => isin_key
                                    (published_images.depictstmsobjectid r)
                                    object_ids) images_df))
    end
  else Some (Normal images_df).

(** ** The candidate rows and their enrichment *)

(** A row of [data]: the image columns and the columns the two merges
    add.  (The key columns [objectid] that the merges also add are never
    read and are left out.) *)
Record series : Type := mk_series
  { image_of : image; merged : list (string * cell) }.

Fixpoint lookup (k : string) (columns : list (string * cell)) : option cell :=
  match columns with
  | [] => None
  | (k', v) :: rest => if String.eqb k k' then Some v else lookup k rest
  end.

(** [row.get(k, default)]: the default is for a label that is absent; a
    label that is present gives its value, NaN included. *)
Definition get (row : series) (k : string) (default : cell) : cell :=
  match lookup k (merged row) with
  | Some v => v
  | None => default
  end.

Definition add_columns (row : series) (columns : list (string * cell))
    : series :=
  mk_series (image_of row) (merged row ++ columns)%list.

(** [data.merge(right, left_on='depictstmsobjectid', right_on=..., how='left')]:
    one row for each match, in the order of [right]; a row of NaN for a
    row of [data] without a match. *)
Definition merge_left {R : Type} (data : list series) (right : list R)
    (right_on : R -> key) (columns : R -> list (string * cell))
    (labels : list string) : list series :=
  flat_map
    (fun row =>
       match filter (fun r => key_eqb (published_images.depictstmsobjectid
                                         (image_of row)) (right_on r)) right with
       | [] => [add_columns row (map (fun l => (l, NaN)) labels)]
       | matches => map (fun r => add_columns row (columns r)) matches
       end)
    data.

(** [objects_constituents[roletype == 'artist'].merge(constituents, on='constituentid')]:
    an inner join, in the order of the links. *)
Definition artists_table (constituents : list (constituents.row cell))
    (objects_constituents : list (objects_constituents.row cell))
    : list (key * cell) :=
  flat_map
    (fun l =>
       map (fun c => (objects_constituents.objectid l,
                      constituents.preferreddisplayname c))
           (filter (fun c => key_eqb (objects_constituents.constituentid l)
                                     (constituents.constituentid c))
                   constituents))
    (filter (fun l => cell_is (objects_constituents.roletype l) "artist")
            objects_constituents).

(** [', '.join(x)] raises TypeError on a NaN. *)
Fixpoint strings_of (x : list cell) : option (list string) :=
  match x with
  | [] => Some []
  | NaN :: _ => None
  | Str s :: x' =>
      match strings_of x' with
      | Some l => Some (s :: l)
      | None => None
      end
  end.

(** The position of the first NaN. *)
Fixpoint first_nan (x : list cell) : nat :=
  match x with
  | Str _ :: x' => S (first_nan x')
  | _ => O
  end.

Definition decimal (z : Z) : string := NilZero.string_of_int (Z.to_int z).

Definition join_names (x : list cell) : result string :=
  match strings_of x with
  | Some l => Normal (String.concat ", " l)
  | None => Raise ("TypeError: sequence item "
                   ++ decimal (Z.of_nat (first_nan x))
                   ++ ": expected str instance, float found")
  end.

Fixpoint collect {A : Type} (l : list (result A)) : result (list A) :=
  match l with
  | [] => Normal []
  | Raise e :: _ => Raise e
  | Normal a :: l' =>
      match collect l' with
      | Normal r => Normal (a :: r)
      | Raise e => Raise e
      end
  end.

(** [artists.groupby('objectid')['preferreddisplayname'].apply(', '.join)]:
    one row for each object id that is not NaN.  (pandas sorts the groups
    by id; the left join that follows does not depend on their order.) *)
Definition artists_grouped (artists : list (key * cell))
    : result (list (key * string)) :=
  collect
    (map (fun k =>
            match join_names
                    (map snd (filter (fun a => key_eqb k (fst a)) artists)) with
            | Normal names => Normal (k, names)
            | Raise e => Raise e
            end)
         (filter (fun k => match k with Some _ => true | None => false end)
                 (unique (map fst artists)))).

Definition merge_objects (data : list series)
    (objects : list (objects.row cell)) : list series :=
  merge_left data objects (@objects.objectid cell)
    (fun o => [("title", objects.title o);
               ("displaydate", objects.displaydate o);
               ("classification", objects.classification o);
               ("medium", objects.medium o)])
    ["title"; "displaydate"; "classification"; "medium"].

Definition merge_artists (data : list series)
    (grouped : list (key * string)) : list series :=
  merge_left data grouped fst (fun g => [("artist", Str (snd g))]) ["artist"].

(** ** The output folder *)

Definition description_data : Type := list (string * cell).

Record Store : Type := mk_store
  { log_file : list string;
      (** download_log.txt: one entry for each message written; a log
          that does not exist yet is the empty list *)
    description_file : option (list (list string));
      (** description.csv: its lines, [None] when the file does not exist *)
    files : list (string * list Byte.byte)
      (** the other files, by path *) }.

Definition DEFAULT_SAVE_FOLDER : string := "NGA_Dataset".

(** [os.path.join(a, b)] *)
Definition os_path_join (a b : string) : string :=
  match b with
  | String "/" _ => b
  | _ => if String.eqb a EmptyString then b
         else if String.eqb (substring (String.length a - 1) 1 a) "/"
              then a ++ b
              else a ++ "/" ++ b
  end.

Definition write_log (message : string) (st : Store) : Store :=
  mk_store (log_file st ++ [message])%list (description_file st) (files st).

(** [to_csv] writes NaN as the empty field. *)
Definition na_rep (c : cell) : string :=
  match c with
  | NaN => EmptyString
  | Str s => s
  end.

(** The line of one record. *)
Definition csv_row (d : description_data) : list string :=
  map (fun kv => na_rep (snd kv)) d.

(** [pd.DataFrame([description_data]).to_csv(description_file, mode='a',
    header=not file_exists, index=False)] *)
Definition write_description (d : description_data) (st : Store) : Store :=
  let file_exists :=
    match description_file st with Some _ => true | None => false end in
  let old := match description_file st with Some l => l | None => [] end in
  let header := if negb file_exists then [map fst d] else [] in
  mk_store (log_file st)
           (Some (old ++ header ++ [csv_row d])%list)
           (files st).

Fixpoint set_file (path : string) (content : list Byte.byte)
    (fs : list (string * list Byte.byte)) : list (string * list Byte.byte) :=
  match fs with
  | [] => [(path, content)]
  | (p, c) :: fs' => if String.eqb p path then (p, content) :: fs'
                     else (p, c) :: set_file path content fs'
  end.

Fixpoint read_file (path : string) (fs : list (string * list Byte.byte))
    : option (list Byte.byte) :=
  match fs with
  | [] => None
  | (p, c) :: fs' => if String.eqb p path then Some c else read_file path fs'
  end.

(** [open(path, "wb")] creates the file or truncates it. *)
Definition open_wb (path : string) (st : Store) : Store :=
  mk_store (log_file st) (description_file st) (set_file path [] (files st)).

(** [file.write(chunk)] with the handle at position [pos]: every task
    writes through a handle of its own, from position 0 on. *)
Definition file_write (path : string) (pos : nat) (chunk : list Byte.byte)
    (st : Store) : Store :=
  let old := match read_file path (files st) with Some c => c | None => [] end in
  let new := (firstn pos old ++ repeat Byte.x00 (pos - length old)
              ++ chunk ++ skipn (pos + length chunk) old)%list in
  mk_store (log_file st) (description_file st) (set_file path new (files st)).

(** What a task does to the folder, one step at a time.  [Log] and
    [Describe] are whole calls of [write_log] and [write_description]:
    each runs under its lock. *)
Inductive action : Type :=
| Open (file_path : string)
| Write (file_path : string) (pos : nat) (chunk : list Byte.byte)
| Log (message : string)
| Describe (d : description_data).

Definition perform (st : Store) (a : action) : Store :=
  match a with
  | Open p => open_wb p st
  | Write p pos chunk => file_write p pos chunk st
  | Log m => write_log m st
  | Describe d => write_description d st
  end.

Definition run (schedule : list action) (st : Store) : Store :=
  fold_left perform schedule st.

(** ** Download tasks

    A task collects the actions it performs and ends normally or with an
    exception. *)

Definition task (A : Type) : Type := (list action * result A)%type.

Definition ret {A : Type} (a : A) : task A := ([], Normal a).

Definition bind {A B : Type} (m : task A) (f : A -> task B) : task B :=
  match m with
  | (w, Normal a) => let (w', r) := f a in ((w ++ w')%list, r)
  | (w, Raise e) => (w, Raise e)
  end.

Definition tell (a : action) : task unit := ([a], Normal tt).

Definition lift {A : Type} (r : result A) : task A := ([], r).

(** [try: body except Exception as e: handler(e)] *)
Definition try_except (body : task unit) (handler : string -> task unit)
    : task unit :=
  match body with
  | (w, Raise e) => let (w', r) := handler e in ((w ++ w')%list, r)
  | (w, Normal a) => (w, Normal a)
  end.

Notation "'do' x <- m ; k" := (bind m (fun x => k))
  (at level 10, x name, m at level 100, k at level 200).
Notation "m ;; k" := (bind m (fun _ => k))
  (at level 100, right associativity).

(** What [requests.get(url, stream=True, timeout=15)] returns: the status
    code, the chunks [iter_content(1024)] yields and, when the connection
    breaks while the body is read, the exception raised after them. *)
Record Response : Type := mk_response
  { status_code : Z;
    iter_content : list (list Byte.byte);
    iter_error : option string }.

(** What a task meets outside the program: the answer to its request
    and, for the file it writes, the exception that [open(path, "wb")],
    the call number [n] of [file.write] or the closing of the file
    raises, if any.  ([open] raises for a uuid that names a folder which
    does not exist; a write that raises is taken to write nothing.)
    Appending to the log and to the description file is taken to
    succeed: the folder is made when the module is loaded. *)
Record World : Type := mk_world
  { requests_get : string -> result Response;
    open_raises : string -> option string;
    write_raises : string -> nat -> option string;
    close_raises : string -> option string }.

(** An f-string field. *)
Definition format (c : cell) : string :=
  match c with
  | NaN => "nan"
  | Str s => s
  end.

(** The loop over the chunks; an empty chunk is skipped.  [n] counts the
    calls of [file.write], [pos] is the position of the handle. *)
Fixpoint write_chunks (w : World) (file_path : string) (n pos : nat)
    (chunks : list (list Byte.byte)) : task unit :=
  match chunks with
  | [] => ret tt
  | chunk :: rest =>
      match chunk with
      | [] => write_chunks w file_path n pos rest
      | _ :: _ =>
          match write_raises w file_path n with
          | Some e => lift (Raise e)
          | None =>
              tell (Write file_path pos chunk) ;;
              write_chunks w file_path (S n) (pos + length chunk) rest
          end
      end
  end.

(** [with open(file_path, "wb") as file: body]: the file is closed when
    the body ends or raises, and an exception of the closing replaces
    that of the body. *)
Definition with_open_wb (w : World) (file_path : string) (body : task unit)
    : task unit :=
  match open_raises w file_path with
  | Some e => lift (Raise e)
  | None =>
      let (actions, r) := tell (Open file_path) ;; body in
      (actions, match close_raises w file_path with
                | Some e => Raise e
                | None => r
                end)
  end.

Definition image_url (row : series) : string :=
  format (published_images.iiifurl (image_of row))
  ++ "/full/full/360/default.jpg".

Definition file_name (row : series) : string :=
  format (published_images.uuid (image_of row)) ++ ".jpg".

Definition file_path (row : series) : string :=
  os_path_join DEFAULT_SAVE_FOLDER (file_name row).

(** The dictionary [description_data] of lines 56 to 64. *)
Definition description_data_of (row : series) : description_data :=
  [("uuid", published_images.uuid (image_of row));
   ("filename", Str (file_name row));
   ("artist", get row "artist" (Str "Unknown"));
   ("title", get row "title" (Str "Untitled"));
   ("date", get row "displaydate" (Str "Unknown"));
   ("classification", get row "classification" (Str "Unknown"));
   ("medium", get row "medium" (Str "Unknown"))].

(** Lines 48 to 51: the body of the response is written to the file. *)
Definition save_body (w : World) (file_path : string) (response : Response)
    : task unit :=
  with_open_wb w file_path
    (write_chunks w file_path 0 0 (iter_content response) ;;
     match iter_error response with
     | Some e => lift (Raise e)
     | None => ret tt
     end).

Definition download_image (w : World) (row : series) : task unit :=
  let image_url := image_url row in
  let file_name := file_name row in
  let file_path := file_path row in
  try_except
    (do response <- lift (requests_get w image_url) ;
     if status_code response =? 200 then
       save_body w file_path response ;;
       tell (Log ("SUCCESS: " ++ file_name ++ " | URL: " ++ image_url)) ;;
       tell (Describe (description_data_of row))
     else
       tell (Log ("FAILURE (HTTP " ++ decimal (status_code response) ++ "): "
                  ++ file_name ++ " | URL: " ++ image_url)))
    (fun e =>
       tell (Log ("ERROR: " ++ file_name ++ " | URL: " ++ image_url
                  ++ " | Exception: " ++ e))).

(** ** The worker pool

    The tasks run on the threads of the pool; what the folder sees is
    their actions in some order that keeps the order of each task. *)
Inductive interleaving {A : Type} : list (list A) -> list A -> Prop :=
| interleaving_done : forall tasks,
    Forall (fun t => t = []) tasks -> interleaving tasks []
| interleaving_step : forall before a t after schedule,
    interleaving (before ++ t :: after)%list schedule ->
    interleaving (before ++ (a :: t) :: after)%list (a :: schedule).

(** [executor.submit(download_image, row) for _, row in data.iterrows()]:
    [world i] is what the task submitted at position [i] meets. *)
Definition submit (world : nat -> World) (data : list series)
    : list (task unit) :=
  map (fun ir => download_image (world (fst ir)) (snd ir))
      (combine (seq 0 (length data)) data).

(** ** download_dataset *)

Record arguments : Type := mk_arguments
  { images_path : images_csv;
    max_threads : Z;
    artist_names : option (list string);
    constituents_path : option constituents_csv;
    objects_constituents_path : option objects_constituents_csv;
    objects_path : option objects_csv;
    allowed_classifications : option (list string);
    excluded_subclassifications : option (list string) }.

(** How a call ends. *)
Inductive ending : Type :=
| Complete                 (** the downloads ran *)
| Nothing_found            (** [return] after a filter left no image *)
| Fails (e : string)       (** an exception leaves the function *)
| Outside_fragment.        (** the artist pattern or a table is outside
                               the model *)

(** The tables given to a call are read as the model has them: their
    text columns are strings or all missing, and their keys are exact. *)
Definition images_modelled (lines : images_csv) : bool :=
  let table := published_images.read_csv lines in
  text_column (map (@published_images.uuid cell) table)
  && text_column (map (@published_images.iiifurl cell) table)
  && forallb exact_key (map (@published_images.depictstmsobjectid cell) table).

Definition objects_modelled (lines : objects_csv) : bool :=
  let table := objects.read_csv lines in
  text_column (map (@objects.title cell) table)
  && text_column (map (@objects.displaydate cell) table)
  && text_column (map (@objects.classification cell) table)
  && text_column (map (@objects.subclassification cell) table)
  && text_column (map (@objects.medium cell) table)
  && forallb exact_key (map (@objects.objectid cell) table).

Definition constituents_modelled (lines : constituents_csv) : bool :=
  let table := constituents.read_csv lines in
  text_column (map (@constituents.preferreddisplayname cell) table)
  && forallb exact_key (map (@constituents.constituentid cell) table).

Definition objects_constituents_modelled (lines : objects_constituents_csv)
    : bool :=
  let table := objects_constituents.read_csv lines in
  text_column (map (@objects_constituents.roletype cell) table)
  && forallb exact_key (map (@objects_constituents.objectid cell) table)
  && forallb exact_key (map (@objects_constituents.constituentid cell) table).

Definition dropna_iiifurl (data : list image) : list image :=
  filter (fun r => match published_images.iiifurl r with
                   | NaN => false
                   | Str _ => true
                   end) data.

Definition classification_requested (a : arguments) : bool :=
  match objects_path a with
  | Some _ => truthy (allowed_classifications a)
              || truthy (excluded_subclassifications a)
  | None => false
  end.

Definition artists_requested (a : arguments) : bool :=
  match constituents_path a, objects_constituents_path a with
  | Some _, Some _ => truthy (artist_names a)
  | _, _ => false
  end.

(** The image rows after the classification filter, when it is
    requested. *)
Definition after_classification (a : arguments) : list image :=
  let data := dropna_iiifurl (published_images.read_csv (images_path a)) in
  match objects_path a with
  | Some op =>
      if truthy (allowed_classifications a)
         || truthy (excluded_subclassifications a)
      then filter_by_classification data op (allowed_classifications a)
                                    (excluded_subclassifications a)
      else data
  | None => data
  end.

(** The image rows after the artist filter, when it is requested. *)
Definition after_artists (a : arguments) : option (result (list image)) :=
  let data := after_classification a in
  match constituents_path a, objects_constituents_path a with
  | Some cp, Some ocp =>
      if truthy (artist_names a)
      then filter_by_artists data cp ocp (artist_names a)
      else Some (Normal data)
  | _, _ => Some (Normal data)
  end.

(** The two joins that add the metadata. *)
Definition enrich (a : arguments) (data : list image)
    : result (list series) :=
  let data := map (fun r => mk_series r []) data in
  let data :=
    match objects_path a with
    | Some op => merge_objects data (objects.read_csv op)
    | None => data
    end in
  match constituents_path a, objects_constituents_path a with
  | Some cp, Some ocp =>
      match artists_grouped
              (artists_table (constituents.read_csv cp)
                             (objects_constituents.read_csv ocp)) with
      | Normal grouped => Normal (merge_artists data grouped)
      | Raise e => Raise e
      end
  | _, _ => Normal data
  end.

(** Lines 189 to 238: the rows to download, or how the call ends before
    the log is touched. *)
Definition candidates (a : arguments) : ending + list series :=
  if classification_requested a && is_empty (after_classification a)
  then inl Nothing_found
  else
    match after_artists a with
    | None => inl Outside_fragment
    | Some (Raise e) => inl (Fails e)
    | Some (Normal data) =>
        if artists_requested a && is_empty data then inl Nothing_found
        else match enrich a data with
             | Normal rows => inr rows
             | Raise e => inl (Fails e)
             end
    end.

Definition remove_description (st : Store) : Store :=
  mk_store (log_file st) None (files st).

Fixpoint times (s : string) (n : nat) : string :=
  match n with
  | O => EmptyString
  | S n' => s ++ times s n'
  end.

(** Lines 240 to 248. *)
Definition session_start (a : arguments) : list action :=
  ([Log (times "=" 60); Log "New Download Session Started"]
   ++ (if truthy (artist_names a)
       then [Log ("Filtering by artists: "
                  ++ String.concat ", " (items (artist_names a)))]
       else [])
   ++ (if truthy (allowed_classifications a)
       then [Log ("Allowed classifications: "
                  ++ String.concat ", " (items (allowed_classifications a)))]
       else [])
   ++ (if truthy (excluded_subclassifications a)
       then [Log ("Excluded subclassifications: "
                  ++ String.concat ", "
                       (items (excluded_subclassifications a)))]
       else [])
   ++ [Log (times "=" 60)])%list.

(** The arguments of a call that the model covers. *)
Definition modelled (a : arguments) : bool :=
  images_modelled (images_path a)
  && match objects_path a with
     | Some op => objects_modelled op
     | None => true
     end
  && match constituents_path a, objects_constituents_path a with
     | Some cp, Some ocp =>
         constituents_modelled cp && objects_constituents_modelled ocp
     | _, _ => true
     end.

(** [download_dataset a world st st' e]: called in the folder [st] with
    arguments that the model covers, the function ends as [e] says and
    leaves the folder [st'].  [ThreadPoolExecutor] refuses a pool without
    workers; otherwise the pool runs the tasks in some interleaving, and
    what a task returns or raises stays in its future, which nobody
    reads. *)
Inductive download_dataset (a : arguments) (world : nat -> World)
    (st : Store) : Store -> ending -> Prop :=
| download_stops : forall e,
    modelled a = true ->
    candidates a = inl e ->
    download_dataset a world st (remove_description st) e
| download_no_pool : forall data,
    modelled a = true ->
    candidates a = inr data ->
    max_threads a <= 0 ->
    download_dataset a world st
      (run (session_start a) (remove_description st))
      (Fails "ValueError: max_workers must be greater than 0")
| download_runs : forall data schedule,
    modelled a = true ->
    candidates a = inr data ->
    0 < max_threads a ->
    interleaving (map fst (submit world data)) schedule ->
    download_dataset a world st
      (run schedule (run (session_start a) (remove_description st)))
      Complete.

(** The run in which each task finishes before the next one starts. *)
Definition download_dataset_in_order (a : arguments) (world : nat -> World)
    (st : Store) : Store * ending :=
  if negb (modelled a) then (st, Outside_fragment)
  else
    match candidates a with
    | inl e => (remove_description st, e)
    | inr data =>
        let st := run (session_start a) (remove_description st) in
        if max_threads a <=? 0
        then (st, Fails "ValueError: max_workers must be greater than 0")
        else (run (concat (map fst (submit world data))) st, Complete)
    end.

(** The same call with another list of excluded subclassifications. *)
Definition with_excluded (a : arguments) (excluded : option (list string))
    : arguments :=
  mk_arguments (images_path a) (max_threads a) (artist_names a)
               (constituents_path a) (objects_constituents_path a)
               (objects_path a) (allowed_classifications a) excluded.

(** The candidates of a call, none when it ends before the pool. *)
Definition candidate_rows (a : arguments) : list series :=
  match candidates a with
  | inr rows => rows
  | inl _ => []
  end.

(** The image shows an object that passes the two conditions. *)
Definition shows_kept_object (objects_path : objects_csv)
    (allowed excluded : option (list string)) (r : image) : bool :=
  isin_key (published_images.depictstmsobjectid r)
           (map (@objects.objectid cell)
                (kept_objects objects_path allowed excluded)).

(** The image shows an object that passes the conditions of the call
    with the list [excluded]. *)
Definition passes (a : arguments) (op : objects_csv) (excluded : list string)
    (r : image) : bool :=
  shows_kept_object op (allowed_classifications a) (Some excluded) r.

(** ** Reading the outputs *)

(** The messages a list of actions writes to the log, and the
    descriptions it appends. *)
Definition logged (l : list action) : list string :=
  flat_map (fun a => match a with Log m => [m] | _ => [] end) l.

Definition described (l : list action) : list description_data :=
  flat_map (fun a => match a with Describe d => [d] | _ => [] end) l.

(** The paths a list of actions opens or writes. *)
Definition touched (l : list action) : list string :=
  flat_map (fun a => match a with
                     | Open p => [p]
                     | Write p _ _ => [p]
                     | _ => []
                     end) l.

Fixpoint starts_with (p s : string) : bool :=
  match p with
  | EmptyString => true
  | String a p' =>
      match s with
      | EmptyString => false
      | String b s' => Ascii.eqb a b && starts_with p' s'
      end
  end.

(** The three kinds of outcome line. *)
Definition is_success (m : string) : bool := starts_with "SUCCESS: " m.
Definition is_failure (m : string) : bool := starts_with "FAILURE (HTTP " m.
Definition is_error (m : string) : bool := starts_with "ERROR: " m.
Definition is_outcome (m : string) : bool :=
  is_success m || is_failure m || is_error m.

(** The header [to_csv] writes for a description. *)
Definition csv_header : list string :=
  ["uuid"; "filename"; "artist"; "title"; "date"; "classification"; "medium"].

(** The lines of description.csv below the header. *)
Definition description_rows (st : Store) : list (list string) :=
  match description_file st with
  | Some lines => tl lines
  | None => []
  end.

(** The exception of the first call of [file.write] that raises. *)
Fixpoint writing_raises (w : World) (file_path : string) (n : nat)
    (chunks : list (list Byte.byte)) : option string :=
  match chunks with
  | [] => None
  | [] :: rest => writing_raises w file_path n rest
  | (_ :: _) :: rest =>
      match write_raises w file_path n with
      | Some e => Some e
      | None => writing_raises w file_path (S n) rest
      end
  end.

(** The exception that saving the body of a response raises, if any: the
    file cannot be opened, its closing fails, a write fails, or the
    connection breaks. *)
Definition saving_raises (w : World) (file_path : string) (r : Response)
    : option string :=
  match open_raises w file_path with
  | Some e => Some e
  | None =>
      match close_raises w file_path with
      | Some e => Some e
      | None =>
          match writing_raises w file_path 0 (iter_content r) with
          | Some e => Some e
          | None => iter_error r
          end
      end
  end.

(** The request of the task got status 200 and its body was read to the
    end and written to the file. *)
Definition downloaded (w : World) (row : series) : bool :=
  match requests_get w (image_url row) with
  | Normal response =>
      (status_code response =? 200)
      && match saving_raises w (file_path row) response with
         | Some _ => false
         | None => true
         end
  | Raise _ => false
  end.

(** [n] occurs in [s] as a substring, letter case aside. *)
Definition occurs_ignoring_case (n s : string) : Prop :=
  exists before after,
    re.lower_string s = before ++ re.lower_string n ++ after.

(** A name without characters that are special in a regular
    expression. *)
Definition plain (n : string) : Prop :=
  Forall (fun c => re.is_special c = false) (list_ascii_of_string n).

(** ** Reading a run *)

(** The outcome line of a task, by what it meets. *)
Definition outcome_line (w : World) (row : series) : string :=
  match requests_get w (image_url row) with
  | Raise e =>
      "ERROR: " ++ file_name row ++ " | URL: " ++ image_url row
      ++ " | Exception: " ++ e
  | Normal r =>
      if status_code r =? 200 then
        match saving_raises w (file_path row) r with
        | Some e =>
            "ERROR: " ++ file_name row ++ " | URL: " ++ image_url row
            ++ " | Exception: " ++ e
        | None => "SUCCESS: " ++ file_name row ++ " | URL: " ++ image_url row
        end
      else "FAILURE (HTTP " ++ decimal (status_code r) ++ "): "
           ++ file_name row ++ " | URL: " ++ image_url row
  end.

(** The outcome lines of the tasks, in the order of submission. *)
Definition outcomes (world : nat -> World) (data : list series)
    : list string :=
  map (fun ir => outcome_line (world (fst ir)) (snd ir))
      (combine (seq 0 (length data)) data).

(** The rows whose download went through, in the order of submission. *)
Definition successes (world : nat -> World) (data : list series)
    : list series :=
  map snd (filter (fun ir => downloaded (world (fst ir)) (snd ir))
                  (combine (seq 0 (length data)) data)).

(** The request was refused before any body was read: it raised, or the
    status is not 200. *)
Definition refused (response : result Response) : Prop :=
  match response with
  | Raise _ => True
  | Normal r => status_code r <> 200
  end.

(** The branch of a name taken literally. *)
Definition literal (n : string) : re.branch :=
  map re.Lit (list_ascii_of_string n).

(** ** A small data set *)

Definition example_images : images_csv :=
  [published_images.mk (Some "u1") (Some "http://a/1") (Some 1);
   published_images.mk (Some "u2") (Some "http://a/2") (Some 2);
   published_images.mk (Some "u3") (Some EmptyString) (Some 1);
   published_images.mk (Some "u4") (Some "http://a/4") (Some 3);
   published_images.mk (Some "u5") None (Some 2)].

Definition example_objects : objects_csv :=
  [objects.mk (Some 1) (Some "Water Lilies") (Some "c. 1906") (Some "Painting")
              (Some "Oil") (Some "oil on canvas");
   objects.mk (Some 2) (Some "Sketch") (Some EmptyString) (Some "Painting")
              (Some "Drawing") None].

Definition example_constituents : constituents_csv :=
  [constituents.mk (Some 10) (Some "Claude Monet");
   constituents.mk (Some 11) (Some "Edgar Degas")].

Definition example_links : objects_constituents_csv :=
  [objects_constituents.mk (Some 1) (Some 10) (Some "artist");
   objects_constituents.mk (Some 2) (Some 11) (Some "donor")].

(** All four tables, no filter, eight threads. *)
Definition example_arguments : arguments :=
  mk_arguments example_images 8 None (Some example_constituents)
               (Some example_links) (Some example_objects) None None.

(** A world in which every file operation succeeds. *)
Definition files_succeed (g : string -> result Response) : World :=
  mk_world g (fun _ => None) (fun _ _ => None) (fun _ => None).

(** The first request gets its image in two chunks, the second a
    one-chunk image, the others a 404. *)
Definition example_requests (i : nat) (url : string) : result Response :=
  match i with
  | O => Normal (mk_response 200 [[Byte.x01; Byte.x02]; []; [Byte.x03]] None)
  | S O => Normal (mk_response 200 [[Byte.x04]] None)
  | _ => Normal (mk_response 404 [] None)
  end.

Definition example_world (i : nat) : World :=
  files_succeed (example_requests i).

(** A folder left by an earlier run. *)
Definition example_folder : Store :=
  mk_store ["SUCCESS: old.jpg | URL: http://a/0/full/full/360/default.jpg"]
           (Some [["uuid"; "filename"; "artist"; "title"; "date";
                   "classification"; "medium"];
                  ["old"; "old.jpg"; "Unknown"; "Untitled"; "Unknown";
                   "Unknown"; "Unknown"]])
           [("NGA_Dataset/old.jpg", [Byte.x09])].

Definition example_rows : list series :=
  Eval vm_compute in
    match candidates example_arguments with
    | inr rows => rows
    | inl _ => []
    end.

Definition example_run : Store * ending :=
  Eval vm_compute in
    download_dataset_in_order example_arguments example_world
                              example_folder.

(** A request whose connection breaks after the first chunk of the body. *)
Definition broken_request (url : string) : result Response :=
  Normal (mk_response 200 [[Byte.x01; Byte.x02]] (Some "Read timed out")).

(** A request that is answered 404. *)
Definition missing_request (url : string) : result Response :=
  Normal (mk_response 404 [] None).

Definition first_row : series :=
  mk_series (published_images.mk (Str "u1") (Str "http://a/1") (Some 1)) [].

(** Arguments that ask for the paintings of an artist nobody matches. *)
Definition unmatched_arguments : arguments :=
  mk_arguments example_images 8 (Some ["Vermeer"]) (Some example_constituents)
               (Some example_links) (Some example_objects)
               (Some ["Painting"]) None.

(** In the second run the first request succeeds and the others cannot
    connect. *)
Definition second_requests (i : nat) (url : string) : result Response :=
  match i with
  | O => Normal (mk_response 200 [[Byte.x05]] None)
  | _ => Raise "Connection refused"
  end.

Definition second_world (i : nat) : World :=
  files_succeed (second_requests i).

Definition example_rerun : Store * ending :=
  Eval vm_compute in
    download_dataset_in_order example_arguments second_world
                              (fst example_run).

Definition unmatched_run : Store * ending :=
  Eval vm_compute in
    download_dataset_in_order unmatched_arguments example_world
                              example_folder.

(** An image whose object is not in the objects table, and a call with
    an empty list of allowed classifications. *)
Definition orphan_images : images_csv :=
  [published_images.mk (Some "u1") (Some "http://a/1") (Some 1);
   published_images.mk (Some "u9") (Some "http://a/9") (Some 99)].

Definition orphan_arguments : arguments :=
  mk_arguments orphan_images 8 None None None (Some example_objects)
               (Some []) None.

Definition orphan_row : series :=
  mk_series (published_images.mk (Str "u9") (Str "http://a/9") (Some 99))
            [("title", NaN); ("displaydate", NaN); ("classification", NaN);
             ("medium", NaN)].

Definition painting_arguments : arguments :=
  mk_arguments example_images 8 None None None (Some example_objects)
               (Some ["Painting"]) None.

(** A table of constituents without any display name. *)
Definition unnamed_constituents : constituents_csv :=
  [constituents.mk (Some 10) None;
   constituents.mk (Some 11) (Some EmptyString)].

(** A world in which the destination cannot be opened. *)
Definition no_folder_world : World :=
  mk_world (fun _ => Normal (mk_response 200 [[Byte.x01]] None))
           (fun _ => Some "[Errno 2] No such file or directory")
           (fun _ _ => None) (fun _ => None).

(** An image whose uuid names a folder. *)
Definition nested_row : series :=
  mk_series (published_images.mk (Str "a/b") (Str "http://a/1") (Some 1)) [].

(** ** Reading the enrichment *)

(** The rows before the join with the artists: their columns are those
    of the join with the objects, if it is made. *)
Definition with_objects (a : arguments) (data : list image) : list series :=
  match objects_path a with
  | Some op => merge_objects (map (fun r => mk_series r []) data)
                             (objects.read_csv op)
  | None => map (fun r => mk_series r []) data
  end.

(** The columns the join with the objects adds for a match. *)
Definition object_columns (o : objects.row cell) : list (string * cell) :=
  [("title", objects.title o); ("displaydate", objects.displaydate o);
   ("classification", objects.classification o);
   ("medium", objects.medium o)].

(** The display names of the artists of an object, in the order of the
    links. *)
Definition artist_names_of (a_constituents : constituents_csv)
    (a_links : objects_constituents_csv) (k : key) : list cell :=
  map snd (filter (fun x => key_eqb k (fst x))
                  (artists_table (constituents.read_csv a_constituents)
                                 (objects_constituents.read_csv a_links))).

(** ** The interactive entry point

    Lines 258 to 344 of download_images.py: the answers are read from
    the console, one line for each [input()], and the call of
    [download_dataset] they lead to is returned as its arguments. *)

(** [c.isspace()] for a character of Latin-1. *)
Definition is_space (c : ascii) : bool :=
  let n := nat_of_ascii c in
  ((9 <=? n) && (n <=? 13) || (28 <=? n) && (n <=? 32)
   || (n =? 133) || (n =? 160))%nat.

Fixpoint lstrip (s : string) : string :=
  match s with
  | EmptyString => EmptyString
  | String c s' => if is_space c then lstrip s' else s
  end.

Fixpoint rstrip (s : string) : string :=
  match s with
  | EmptyString => EmptyString
  | String c s' =>
      match rstrip s' with
      | EmptyString => if is_space c then EmptyString
                       else String c EmptyString
      | String d t => String c (String d t)
      end
  end.

(** [s.strip()] *)
Definition strip (s : string) : string := rstrip (lstrip s).

(** [s.split(sep)] for a separator of one character. *)
Fixpoint split (sep : ascii) (s : string) : list string :=
  match s with
  | EmptyString => [EmptyString]
  | String c s' =>
      if Ascii.eqb c sep then EmptyString :: split sep s'
      else match split sep s' with
           | [] => [String c EmptyString]
           | piece :: pieces => String c piece :: pieces
           end
  end.

Definition classification_map : list (string * string) :=
  [("1", "Painting"); ("2", "Sculpture"); ("3", "Print"); ("4", "Drawing");
   ("5", "Photograph"); ("6", "Decorative Art")].

Fixpoint map_get (k : string) (m : list (string * string)) : option string :=
  match m with
  | [] => None
  | (k', v) :: m' => if String.eqb k k' then Some v else map_get k m'
  end.

(** Lines 300 and 301. *)
Definition selected_classifications (class_choice : string) : list string :=
  let selected_nums := map strip (split "," class_choice) in
  flat_map (fun n => match map_get n classification_map with
                     | Some c => [c]
                     | None => []
                     end) selected_nums.

(** Lines 307 to 313. *)
Definition sketches : list string :=
  ["Drawing"; "Work Print"; "Contact Sheet"; "Archival";
   "Printmaking Matrices"].

(** Line 328. *)
Definition parse_artist_names (artist_input : string) : list string :=
  flat_map (fun name => if String.eqb (strip name) EmptyString then []
                        else [strip name])
           (split "," artist_input).

(** A computation that reads lines from the console; [input()] raises
    EOFError when there is none left. *)
Definition console (A : Type) : Type :=
  list string -> result (A * list string).

Definition input : console string :=
  fun stdin =>
    match stdin with
    | [] => Raise "EOFError: EOF when reading a line"
    | line :: rest => Normal (line, rest)
    end.

Definition answer {A : Type} (a : A) : console A :=
  fun stdin => Normal (a, stdin).

Definition and_then {A B : Type} (m : console A) (f : A -> console B)
    : console B :=
  fun stdin =>
    match m stdin with
    | Normal (a, rest) => f a rest
    | Raise e => Raise e
    end.

Notation "'ask' x <- m ; k" := (and_then m (fun x => k))
  (at level 10, x name, m at level 100, k at level 200).

(** The yes of a yes/no question: [input(...).strip().lower() == 'y']. *)
Definition yes (line : string) : bool :=
  String.eqb (re.lower_string (strip line)) "y".

Definition main (images : images_csv) (objects : objects_csv)
    (constituents : constituents_csv) (links : objects_constituents_csv)
    : console arguments :=
  ask filter_classification <- input ;
  ask classes <-
    (if yes filter_classification then
       ask class_choice <- input ;
       let class_choice := strip class_choice in
       let allowed :=
         if negb (String.eqb class_choice "7")
         then Some (selected_classifications class_choice)
         else None in
       ask exclude_sketches <- input ;
       let excluded := if yes exclude_sketches then Some sketches else None in
       answer (allowed, excluded)
     else answer (None, None)) ;
  ask filter_artists <- input ;
  ask names <-
    (if yes filter_artists then
       ask artist_input <- input ;
       answer (Some (parse_artist_names (strip artist_input)))
     else answer None) ;
  answer (mk_arguments images 8 names (Some constituents) (Some links)
                       (Some objects) (fst classes) (snd classes)).

(** A name as [parse_artist_names] gives them: not empty, without comma,
    without blank at either end. *)
Definition clean (n : string) : Prop :=
  n <> EmptyString /\ strip n = n /\
  Forall (fun c => c <> ","%char) (list_ascii_of_string n).

(** Every character of [s] has the property [P]. *)
Definition chars_all (P : ascii -> Prop) (s : string) : Prop :=
  Forall P (list_ascii_of_string s).

(** ** analyze_dataset.py: the names of the files

    Lines 19, 20 and 89: the script lists the folder, takes the files
    whose name ends in ".jpg" as the downloaded images, reads their uuid
    off the name, and makes a file name out of an author's name. *)

(** [s.endswith(suffix)] *)
Fixpoint endswith (suffix s : string) : bool :=
  String.eqb s suffix
  || match s with
     | EmptyString => false
     | String _ s' => endswith suffix s'
     end.

(** [s.replace(old, new)]: the occurrences of [old] are found from the
    left and do not overlap; [skip] counts the characters of an
    occurrence still to pass over.  An empty [old] puts [new] before
    every character and at the end. *)
Fixpoint replace_from (old new : string) (skip : nat) (s : string) : string :=
  match s with
  | EmptyString => EmptyString
  | String c s' =>
      match skip with
      | S k => replace_from old new k s'
      | O => if starts_with old s
             then new ++ replace_from old new (String.length old - 1) s'
             else String c (replace_from old new 0 s')
      end
  end.

Fixpoint insert_between (new s : string) : string :=
  match s with
  | EmptyString => new
  | String c s' => new ++ String c (insert_between new s')
  end.

Definition replace (old new s : string) : string :=
  match old with
  | EmptyString => insert_between new s
  | String _ _ => replace_from old new 0 s
  end.

Definition downloaded_files (listdir : list string) : list string :=
  filter (endswith ".jpg") listdir.

Definition downloaded_uuids (listdir : list string) : list string :=
  map (replace ".jpg" EmptyString) (downloaded_files listdir).

Definition safe_name (author : string) : string :=
  replace "," EmptyString (replace " " "_" author).

(** ** search_artists.py

    The script reads more columns of constituents.csv than the
    downloader.  What a function prints is given as the rows it prints,
    in order, each with its fields. *)

Module constituents_full.
Record row (T : Type) : Type := mk
  { constituentid : key; preferreddisplayname : T; displaydate : T;
    nationality : T; artistofngaobject : key }.
Definition read_line (l : row field) : row cell :=
  mk (constituentid l) (read_field (preferreddisplayname l))
     (read_field (displaydate l)) (read_field (nationality l))
     (artistofngaobject l).
Definition read_csv (lines : list (row field)) : list (row cell) :=
  map read_line lines.
End constituents_full.

Definition artist : Type := constituents_full.row cell.

(** [objects_constituents[roletype == 'artist'].groupby('constituentid')
    .size().reset_index(name='works_count')]: one row for each
    constituent id that is not NaN.  (pandas sorts the groups by id; the
    joins that follow do not depend on their order.) *)
Definition artist_works
    (objects_constituents : list (objects_constituents.row cell))
    : list (key * Z) :=
  let artist_links :=
    filter (fun l => cell_is (objects_constituents.roletype l) "artist")
           objects_constituents in
  map (fun k =>
         (k, Z.of_nat
               (length (filter (fun l => key_eqb k
                                           (objects_constituents.constituentid l))
                               artist_links))))
      (filter (fun k => match k with Some _ => true | None => false end)
              (unique (map (@objects_constituents.constituentid cell)
                           artist_links))).

(** Lines 24 to 31: the artists of the collection whose name the search
    term finds; all of them for an empty term.  The selection of line 24
    keeps the type of the column of the names.  [None] when the term is
    outside the modelled fragment of regular expressions, or the type of
    the column is not modelled. *)
Definition found_artists (search_term : string) (constituents : list artist)
    : option (result (list artist)) :=
  let artists :=
    filter (fun c => key_eqb (constituents_full.artistofngaobject c) (Some 1))
           constituents in
  if negb (String.eqb search_term EmptyString) then
    match str_accessor
            (map (@constituents_full.preferreddisplayname cell)
                 constituents) with
    | None => None
    | Some (Raise e) => Some (Raise e)
    | Some (Normal _) =>
        match re.compile search_term with
        | None => None
        | Some pat =>
            Some (Normal
                    (filter (fun c => str_contains pat false false
                                        (constituents_full.preferreddisplayname
                                           c))
                            artists))
        end
    end
  else Some (Normal artists).

(** Lines 48 to 54: [artists.merge(artist_works, on='constituentid',
    how='left')], then [fillna(0).astype(int)] on the count. *)
Definition with_works (artists : list artist) (works : list (key * Z))
    : list (artist * Z) :=
  flat_map
    (fun c =>
       match filter (fun w => key_eqb (constituents_full.constituentid c)
                                      (fst w)) works with
       | [] => [(c, 0)]
       | matches => map (fun w => (c, snd w)) matches
       end)
    artists.

(** [constituents.merge(artist_works, on='constituentid')] of line 91: an
    inner join. *)
Definition having_works (constituents : list artist) (works : list (key * Z))
    : list (artist * Z) :=
  flat_map
    (fun c =>
       map (fun w => (c, snd w))
           (filter (fun w => key_eqb (constituents_full.constituentid c)
                                     (fst w)) works))
    constituents.

(** The order [sort_values('works_count', ascending=False)] leaves: no
    row has fewer works than a later one.  The order of rows with equal
    counts is not fixed. *)
Inductive descending : list (artist * Z) -> Prop :=
| descending_nil : descending []
| descending_cons : forall r rows,
    Forall (fun r' => snd r' <= snd r) rows ->
    descending rows ->
    descending (r :: rows).

(** [frame.head(n)] *)
Definition head {A : Type} (n : Z) (l : list A) : list A :=
  if 0 <=? n then firstn (Z.to_nat n) l
  else firstn (length l - Z.to_nat (- n)) l.

(** What [search_artists] prints. *)
Inductive report : Type :=
| Not_found
| Listing (rows : list (artist * option Z)).

Inductive search_artists (search_term : string) (show_stats : bool)
    (CONSTITUENTS_PATH : list (constituents_full.row field))
    (OBJECTS_CONSTITUENTS_PATH : objects_constituents_csv)
    : report -> Prop :=
| search_finds_none :
    found_artists search_term
                  (constituents_full.read_csv CONSTITUENTS_PATH)
    = Some (Normal []) ->
    search_artists search_term show_stats CONSTITUENTS_PATH
                   OBJECTS_CONSTITUENTS_PATH Not_found
| search_lists : forall artists,
    found_artists search_term
                  (constituents_full.read_csv CONSTITUENTS_PATH)
    = Some (Normal artists) ->
    artists <> [] ->
    show_stats = false ->
    search_artists search_term show_stats CONSTITUENTS_PATH
                   OBJECTS_CONSTITUENTS_PATH
                   (Listing (map (fun c => (c, None)) artists))
| search_counts : forall artists rows,
    found_artists search_term
                  (constituents_full.read_csv CONSTITUENTS_PATH)
    = Some (Normal artists) ->
    artists <> [] ->
    show_stats = true ->
    Permutation rows
      (with_works artists
         (artist_works
            (objects_constituents.read_csv OBJECTS_CONSTITUENTS_PATH))) ->
    descending rows ->
    search_artists search_term show_stats CONSTITUENTS_PATH
                   OBJECTS_CONSTITUENTS_PATH
                   (Listing (map (fun r => (fst r, Some (snd r))) rows)).

(** What [list_top_artists] prints. *)
Inductive list_top_artists (top_n : Z)
    (CONSTITUENTS_PATH : list (constituents_full.row field))
    (OBJECTS_CONSTITUENTS_PATH : objects_constituents_csv)
    : list (artist * Z) -> Prop :=
| top_artists : forall rows,
    Permutation rows
      (having_works
         (constituents_full.read_csv CONSTITUENTS_PATH)
         (artist_works
            (objects_constituents.read_csv OBJECTS_CONSTITUENTS_PATH))) ->
    descending rows ->
    list_top_artists top_n CONSTITUENTS_PATH OBJECTS_CONSTITUENTS_PATH
                     (head top_n rows).

(** The links of role "artist" to a constituent. *)
Definition works_of (objects_constituents : list (objects_constituents.row cell))
    (k : key) : list (objects_constituents.row cell) :=
  filter (fun l => cell_is (objects_constituents.roletype l) "artist"
                   && key_eqb k (objects_constituents.constituentid l))
         objects_constituents.

(** The count of works shown for a constituent: its links of role
    "artist", none for a constituent without id. *)
Definition count_works
    (objects_constituents : list (objects_constituents.row cell)) (k : key)
    : Z :=
  match k with
  | Some _ => Z.of_nat (length (works_of objects_constituents k))
  | None => 0
  end.

(** The two columns of a constituent that the downloader reads. *)
Definition as_constituent {T : Type} (c : constituents_full.row T)
    : constituents.row T :=
  constituents.mk (constituents_full.constituentid c)
                  (constituents_full.preferreddisplayname c).

(** ** More data for the examples *)

(** Object 1 has two artists. *)
Definition duo_links : objects_constituents_csv :=
  [objects_constituents.mk (Some 1) (Some 10) (Some "artist");
   objects_constituents.mk (Some 1) (Some 11) (Some "artist");
   objects_constituents.mk (Some 2) (Some 11) (Some "donor")].

Definition duo_arguments : arguments :=
  mk_arguments example_images 8 None (Some example_constituents)
               (Some duo_links) (Some example_objects) None None.

Definition duo_data : list image :=
  Eval vm_compute in
    match after_artists duo_arguments with
    | Some (Normal data) => data
    | _ => []
    end.

Definition duo_rows : list series :=
  Eval vm_compute in
    match enrich duo_arguments duo_data with
    | Normal rows => rows
    | Raise _ => []
    end.

(** Constituent 12 has no display name and is the artist of object 7,
    of which there is no image. *)
Definition nameless_constituents : constituents_csv :=
  [constituents.mk (Some 10) (Some "Claude Monet");
   constituents.mk (Some 12) None].

Definition nameless_links : objects_constituents_csv :=
  [objects_constituents.mk (Some 1) (Some 10) (Some "artist");
   objects_constituents.mk (Some 7) (Some 12) (Some "artist")].

Definition nameless_arguments : arguments :=
  mk_arguments example_images 8 None (Some nameless_constituents)
               (Some nameless_links) (Some example_objects) None None.

(** Only the image table is given. *)
Definition bare_arguments : arguments :=
  mk_arguments example_images 8 None None None None None None.

Definition bare_rows : list series :=
  Eval vm_compute in
    match enrich bare_arguments duo_data with
    | Normal rows => rows
    | Raise _ => []
    end.

(** An image table without any source URL. *)
Definition no_url_images : images_csv :=
  [published_images.mk (Some "u3") (Some EmptyString) (Some 1);
   published_images.mk (Some "u5") None (Some 2)].

Definition no_url_arguments : arguments :=
  mk_arguments no_url_images 8 None None None None None None.

Definition no_url_run : Store * ending :=
  Eval vm_compute in
    download_dataset_in_order no_url_arguments example_world
                              example_folder.

Definition chunked_response : Response :=
  mk_response 200 [[Byte.x01; Byte.x02]; []; [Byte.x03]] None.

Definition chunked_request (url : string) : result Response :=
  Normal chunked_response.

(** The answers of a session: classifications 1 and 6 and an unknown 9,
    no sketches, two artists. *)
Definition example_stdin : list string :=
  ["y"; "1, 6, 9"; " Y "; "y"; " Monet , van Gogh,"].

Definition example_call : arguments :=
  mk_arguments example_images 8 (Some ["Monet"; "van Gogh"])
               (Some example_constituents) (Some example_links)
               (Some example_objects)
               (Some ["Painting"; "Decorative Art"]) (Some sketches).

Definition example_call_rows : list series :=
  Eval vm_compute in
    match candidates example_call with
    | inr rows => rows
    | inl _ => []
    end.

(** Three constituents, the last one not an artist of the collection,
    and the links of three works. *)
Definition degas : artist :=
  constituents_full.mk (Some 11) (Str "Edgar Degas") (Str "1834 - 1917")
                       (Str "French") (Some 1).

Definition monet : artist :=
  constituents_full.mk (Some 10) (Str "Claude Monet") (Str "1840 - 1926")
                       (Str "French") (Some 1).

Definition details_csv : list (constituents_full.row field) :=
  [constituents_full.mk (Some 11) (Some "Edgar Degas") (Some "1834 - 1917")
                        (Some "French") (Some 1);
   constituents_full.mk (Some 10) (Some "Claude Monet") (Some "1840 - 1926")
                        (Some "French") (Some 1);
   constituents_full.mk (Some 13) (Some "A Collector") None (Some "American")
                        (Some 0)].

Definition works_csv : objects_constituents_csv :=
  [objects_constituents.mk (Some 1) (Some 10) (Some "artist");
   objects_constituents.mk (Some 1) (Some 11) (Some "artist");
   objects_constituents.mk (Some 2) (Some 13) (Some "donor");
   objects_constituents.mk (Some 3) (Some 10) (Some "artist")].

(** * Properties *)

Unset Implicit Arguments.

(** ** Keys and membership *)

Lemma key_eqb_eq (a b : key) : key_eqb a b = true <-> a = b.
Proof.
  destruct a as [x|], b as [y|]; simpl; split; intro H;
    try discriminate; try reflexivity.
  - apply Z.eqb_eq in H. now subst.
  - injection H as ->. apply Z.eqb_refl.
Qed.

Lemma isin_key_In (k : key) (values : list key) :
  isin_key k values = true <-> In k values.
Proof.
  unfold isin_key. rewrite existsb_exists. split.
  - intros (x & Hx & He). apply key_eqb_eq in He. now subst.
  - intro H. exists k. split; [assumption | now apply key_eqb_eq].
Qed.

Lemma unique_In (k : key) (l : list key) : In k (unique l) <-> In k l.
Proof.
  induction l as [|x l IH]; simpl; [tauto|].
  rewrite filter_In, IH. split.
  - tauto.
  - intros [H|H]; [now left|].
    destruct (key_eqb x k) eqn:E.
    + left. now apply key_eqb_eq.
    + right. now split.
Qed.

Lemma isin_key_unique (k : key) (l : list key) :
  isin_key k (unique l) = isin_key k l.
Proof.
  apply eq_true_iff_eq. now rewrite !isin_key_In, unique_In.
Qed.

Lemma mem_In (s : string) (l : list string) : mem s l = true <-> In s l.
Proof.
  unfold mem. rewrite existsb_exists. split.
  - intros (x & Hx & He). apply String.eqb_eq in He. now subst.
  - intro H. exists s. split; [assumption | apply String.eqb_refl].
Qed.

Lemma NoDup_map_injective {A B : Type} (f : A -> B) (l : list A) (a b : A) :
  NoDup (map f l) -> In a l -> In b l -> f a = f b -> a = b.
Proof.
  induction l as [|x l IH]; simpl; intros Hnd Ha Hb Hf; [contradiction|].
  inversion Hnd as [|? ? Hnotin Hnd']; subst.
  destruct Ha as [Ha|Ha], Hb as [Hb|Hb]; subst.
  - reflexivity.
  - exfalso. apply Hnotin. rewrite Hf. now apply in_map.
  - exfalso. apply Hnotin. rewrite <- Hf. now apply in_map.
  - now apply IH.
Qed.

(** ** filter_by_classification *)

Lemma filter_filter {A : Type} (f g : A -> bool) (l : list A) :
  filter g (filter f l) = filter (fun x => f x && g x) l.
Proof.
  induction l as [|x l IH]; simpl; [reflexivity|].
  destruct (f x); simpl; [destruct (g x)|]; now rewrite IH.
Qed.

Lemma filter_none {A : Type} (f : A -> bool) (l : list A) :
  Forall (fun x => f x = false) l -> filter f l = [].
Proof.
  induction 1 as [|x l Hx _ IH]; simpl; [reflexivity|]. now rewrite Hx.
Qed.

Lemma filter_true {A : Type} (l : list A) : filter (fun _ => true) l = l.
Proof. induction l as [|x l IH]; simpl; now rewrite ?IH. Qed.

Lemma filter_by_classification_In images_df objects_path allowed excluded r :
  In r (filter_by_classification images_df objects_path allowed excluded) <->
  In r images_df /\
  exists o, In o (kept_objects objects_path allowed excluded) /\
            objects.objectid o = published_images.depictstmsobjectid r.
Proof.
  unfold filter_by_classification, kept_objects.
  rewrite filter_In, isin_key_unique, isin_key_In, in_map_iff.
  assert (E : forall l : list (objects.row cell),
    (if truthy excluded
     then filter (fun o => negb (isin (objects.subclassification o)
                                      (items excluded)))
            (if truthy allowed
             then filter (fun o => isin (objects.classification o)
                                        (items allowed)) l
             else l)
     else (if truthy allowed
           then filter (fun o => isin (objects.classification o)
                                      (items allowed)) l
           else l)) =
    filter (fun o => (negb (truthy allowed)
                      || isin (objects.classification o) (items allowed))
                     && (negb (truthy excluded)
                         || negb (isin (objects.subclassification o)
                                       (items excluded)))) l).
  { intro l. destruct (truthy allowed), (truthy excluded); simpl.
    - now rewrite filter_filter.
    - apply filter_ext. intro. now rewrite andb_true_r.
    - reflexivity.
    - now rewrite filter_true. }
  rewrite E. split.
  - intros [Hr (o & Ho & Hin)]. split; [assumption|]. exists o. now split.
  - intros [Hr (o & Hin & Ho)]. split; [assumption|]. exists o. now split.
Qed.

Lemma filter_by_classification_filter images_df objects_path allowed excluded :
  filter_by_classification images_df objects_path allowed excluded
  = filter (shows_kept_object objects_path allowed excluded) images_df.
Proof.
  unfold filter_by_classification, shows_kept_object, kept_objects.
  apply filter_ext. intro r. rewrite isin_key_unique. do 2 f_equal.
  destruct (truthy allowed), (truthy excluded); simpl.
  - now rewrite filter_filter.
  - apply filter_ext. intro. now rewrite andb_true_r.
  - reflexivity.
  - now rewrite filter_true.
Qed.

(** ** The candidate list *)

Lemma read_field_Str (f : field) (s : string) :
  read_field f = Str s -> f = Some s /\ s <> EmptyString.
Proof.
  unfold read_field. destruct f as [t|]; [|discriminate].
  destruct (mem t na_values) eqn:E; [discriminate|].
  intros [= ->]. split; [reflexivity|].
  intros ->. vm_compute in E. discriminate E.
Qed.

Lemma dropna_iiifurl_In (data : list image) (r : image) :
  In r (dropna_iiifurl data) <->
  In r data /\ exists s, published_images.iiifurl r = Str s.
Proof.
  unfold dropna_iiifurl. rewrite filter_In.
  destruct (published_images.iiifurl r) as [|s]; split.
  - intros [_ H]. discriminate H.
  - intros [_ (s & H)]. discriminate H.
  - intros [H _]. split; [assumption | now exists s].
  - intros [H _]. now split.
Qed.

Lemma filter_by_artists_incl images_df cp ocp names data r :
  filter_by_artists images_df cp ocp names = Some (Normal data) ->
  In r data -> In r images_df.
Proof.
  unfold filter_by_artists.
  destruct (truthy names).
  - destruct (selected_constituents _ _) as [[selected|]|]; try discriminate.
    intros [= <-] H. now apply filter_In in H.
  - now intros [= <-].
Qed.

Lemma after_classification_incl (a : arguments) (r : image) :
  In r (after_classification a) ->
  In r (dropna_iiifurl (published_images.read_csv (images_path a))).
Proof.
  unfold after_classification.
  destruct (objects_path a); [|tauto].
  destruct (_ || _); [|tauto].
  intro H. now apply filter_by_classification_In in H.
Qed.

Lemma after_artists_incl (a : arguments) (data : list image) (r : image) :
  after_artists a = Some (Normal data) -> In r data ->
  In r (after_classification a).
Proof.
  unfold after_artists.
  destruct (constituents_path a), (objects_constituents_path a);
    try (intros [= <-]; tauto).
  destruct (truthy (artist_names a)); [|intros [= <-]; tauto].
  apply filter_by_artists_incl.
Qed.

Lemma merge_left_image {R : Type} (data : list series) (right : list R)
    (right_on : R -> key) (columns : R -> list (string * cell))
    (labels : list string) (row : series) :
  In row (merge_left data right right_on columns labels) ->
  exists row0, In row0 data /\ image_of row = image_of row0.
Proof.
  unfold merge_left. rewrite in_flat_map.
  intros (row0 & H0 & H). exists row0. split; [assumption|].
  destruct (filter _ right) as [|m ms].
  - destruct H as [<-|[]]. reflexivity.
  - apply in_map_iff in H. destruct H as (x & <- & _). reflexivity.
Qed.

Lemma enrich_image (a : arguments) (data : list image) (rows : list series)
    (row : series) :
  enrich a data = Normal rows -> In row rows -> In (image_of row) data.
Proof.
  unfold enrich.
  set (start := map (fun r => mk_series r []) data).
  assert (Hstart : forall x, In x start -> In (image_of x) data).
  { intros x Hx. apply in_map_iff in Hx. now destruct Hx as (r & <- & Hr). }
  set (withobj := match objects_path a with
                  | Some op => merge_objects start (objects.read_csv op)
                  | None => start
                  end).
  assert (Hobj : forall x, In x withobj -> In (image_of x) data).
  { unfold withobj. destruct (objects_path a); [|assumption].
    intros x Hx. apply merge_left_image in Hx.
    destruct Hx as (x0 & Hx0 & ->). now apply Hstart. }
  destruct (constituents_path a), (objects_constituents_path a);
    try (intros [= <-]; apply Hobj).
  destruct (artists_grouped _); [|discriminate].
  intros [= <-] Hrow. apply merge_left_image in Hrow.
  destruct Hrow as (x0 & Hx0 & ->). now apply Hobj.
Qed.

Lemma candidates_image (a : arguments) (rows : list series) (row : series) :
  candidates a = inr rows -> In row rows ->
  In (image_of row)
     (dropna_iiifurl (published_images.read_csv (images_path a))).
Proof.
  unfold candidates.
  destruct (_ && _); [discriminate|].
  destruct (after_artists a) as [[data|]|] eqn:Ea; try discriminate.
  destruct (_ && _); [discriminate|].
  destruct (enrich a data) as [rows'|] eqn:Ee; [|discriminate].
  intros [= <-] Hrow.
  apply after_classification_incl.
  apply (after_artists_incl a data _ Ea).
  exact (enrich_image a data _ _ Ee Hrow).
Qed.

(** C2.  Every row of the candidate list was read from a line of the
    image table whose source URL field is present and not empty, and its
    URL is that field: lines with a missing or empty field are gone
    before the rows are handed to the pool. *)
Theorem candidates_have_source_url (a : arguments) (rows : list series) :
  candidates a = inr rows ->
  Forall (fun row =>
            exists l s,
              In l (images_path a) /\
              image_of row = published_images.read_line l /\
              published_images.iiifurl l = Some s /\
              s <> EmptyString /\
              published_images.iiifurl (image_of row) = Str s)
         rows.
Proof.
  intro Hc. apply Forall_forall. intros row Hrow.
  pose proof (candidates_image a rows row Hc Hrow) as H.
  apply dropna_iiifurl_In in H. destruct H as [Hin (s & Hs)].
  unfold published_images.read_csv in Hin. apply in_map_iff in Hin.
  destruct Hin as (l & Hl & Hin). exists l, s.
  pose proof Hs as Hs'. rewrite <- Hl in Hs'. simpl in Hs'.
  apply read_field_Str in Hs'. destruct Hs' as [Hf Hne].
  repeat split; try assumption. now symmetry.
Qed.

(** *** The exclusion of subclassifications *)

Lemma filter_all {A : Type} (f : A -> bool) (l : list A) :
  Forall (fun x => f x = true) l -> filter f l = l.
Proof.
  induction 1 as [|x l Hx _ IH]; simpl; [reflexivity|]. now rewrite Hx, IH.
Qed.

Lemma filter_comm {A : Type} (f g : A -> bool) (l : list A) :
  filter f (filter g l) = filter g (filter f l).
Proof.
  rewrite !filter_filter. apply filter_ext. intro. apply andb_comm.
Qed.

Lemma filter_implied {A : Type} (f g : A -> bool) (l : list A) :
  (forall x, f x = true -> g x = true) ->
  filter f (filter g l) = filter f l.
Proof.
  intro H. rewrite filter_filter. apply filter_ext. intro x.
  destruct (f x) eqn:E; [|apply andb_false_r]. now rewrite (H x E).
Qed.

Lemma filter_not_empty {A : Type} (f : A -> bool) (l : list A) :
  is_empty (filter f l) = false -> is_empty l = false.
Proof. destruct l; [discriminate | reflexivity]. Qed.

(** A left join of selected rows is the selection of the left join. *)
Lemma merge_left_filter {R : Type} (p : image -> bool) (data : list series)
    (right : list R) (right_on : R -> key)
    (columns : R -> list (string * cell)) (labels : list string) :
  merge_left (filter (fun row => p (image_of row)) data)
             right right_on columns labels
  = filter (fun row => p (image_of row))
           (merge_left data right right_on columns labels).
Proof.
  unfold merge_left.
  induction data as [|row data IH]; [reflexivity|].
  cbn [filter flat_map]. rewrite filter_app, <- IH.
  set (piece := match filter _ right with
                | [] => [add_columns row (map (fun l => (l, NaN)) labels)]
                | m :: ms => map (fun r => add_columns row (columns r)) (m :: ms)
                end).
  assert (Himage : Forall (fun y => image_of y = image_of row) piece).
  { unfold piece. destruct (filter _ right) as [|m ms].
    - now repeat constructor.
    - apply Forall_forall. intros y Hy. apply in_map_iff in Hy.
      now destruct Hy as (x & <- & _). }
  destruct (p (image_of row)) eqn:E.
  - cbn [flat_map]. fold piece. f_equal. symmetry. apply filter_all.
    eapply Forall_impl; [|exact Himage]. intros y ->. exact E.
  - rewrite (filter_none (fun y => p (image_of y)) piece); [reflexivity|].
    eapply Forall_impl; [|exact Himage]. intros y ->. exact E.
Qed.

(** The enrichment of selected images is the selection of the
    enrichment. *)
Lemma enrich_filter (a : arguments) (p : image -> bool) (data : list image) :
  enrich a (filter p data)
  = match enrich a data with
    | Normal rows => Normal (filter (fun row => p (image_of row)) rows)
    | Raise e => Raise e
    end.
Proof.
  unfold enrich.
  assert (Hstart : map (fun r => mk_series r []) (filter p data)
                   = filter (fun row => p (image_of row))
                            (map (fun r => mk_series r []) data)).
  { induction data as [|r data IH]; simpl; [reflexivity|].
    destruct (p r); simpl; now rewrite IH. }
  rewrite Hstart.
  assert (Hobj :
    match objects_path a with
    | Some op => merge_objects
                   (filter (fun row => p (image_of row))
                           (map (fun r => mk_series r []) data))
                   (objects.read_csv op)
    | None => filter (fun row => p (image_of row))
                     (map (fun r => mk_series r []) data)
    end
    = filter (fun row => p (image_of row))
        match objects_path a with
        | Some op => merge_objects (map (fun r => mk_series r []) data)
                                   (objects.read_csv op)
        | None => map (fun r => mk_series r []) data
        end).
  { destruct (objects_path a); [|reflexivity]. apply merge_left_filter. }
  rewrite Hobj.
  destruct (constituents_path a), (objects_constituents_path a);
    try reflexivity.
  destruct (artists_grouped _); [|reflexivity].
  unfold merge_artists. now rewrite merge_left_filter.
Qed.

(** The artist filter selects the images by a condition that does not
    depend on the other images. *)
Lemma filter_by_artists_filter cp ocp names :
  (exists e, forall images_df,
     filter_by_artists images_df cp ocp names = Some (Raise e)) \/
  (forall images_df, filter_by_artists images_df cp ocp names = None) \/
  (exists p, forall images_df,
     filter_by_artists images_df cp ocp names
     = Some (Normal (filter p images_df))).
Proof.
  unfold filter_by_artists.
  destruct (truthy names).
  - destruct (selected_constituents _ _) as [[selected|e]|].
    + right. right. eexists. intro images_df. reflexivity.
    + left. now exists e.
    + right. now left.
  - right. right. exists (fun _ => true). intro images_df.
    now rewrite filter_true.
Qed.

Lemma candidates_after_artists (a : arguments) (rows : list series)
    (row : series) :
  candidates a = inr rows -> In row rows ->
  exists data,
    after_artists a = Some (Normal data) /\ In (image_of row) data /\
    In (image_of row) (after_classification a).
Proof.
  unfold candidates.
  destruct (_ && _); [discriminate|].
  destruct (after_artists a) as [[data|]|] eqn:Ea; try discriminate.
  destruct (_ && _); [discriminate|].
  destruct (enrich a data) as [rows'|] eqn:Ee; [|discriminate].
  intros [= <-] Hrow. exists data.
  pose proof (enrich_image a data _ _ Ee Hrow) as Himg.
  split; [reflexivity|]. split; [assumption|].
  exact (after_artists_incl a data _ Ea Himg).
Qed.

Section Exclusion.

Variable a : arguments.
Variable op : objects_csv.
Variable excluded : list string.
Hypothesis Hop : objects_path a = Some op.
Hypothesis Hex : excluded <> [].

Lemma excluded_truthy : truthy (Some excluded) = true.
Proof. destruct excluded; [contradiction | reflexivity]. Qed.

Lemma kept_with_exclusion_is_kept (r : image) :
  passes a op excluded r = true ->
  shows_kept_object op (allowed_classifications a) None r = true.
Proof.
  intro Hr. unfold passes, shows_kept_object in *.
  apply isin_key_In, in_map_iff in Hr. destruct Hr as (o & Ho & Hin).
  apply isin_key_In, in_map_iff. exists o. split; [assumption|].
  unfold kept_objects in *. apply filter_In in Hin. apply filter_In.
  destruct Hin as [Hin Hcond]. split; [assumption|].
  apply andb_true_iff in Hcond. destruct Hcond as [Hcond _].
  now rewrite Hcond.
Qed.

(** The images after the classification filter, in both calls. *)
Lemma after_classification_excluded :
  after_classification (with_excluded a (Some excluded))
  = filter (passes a op excluded)
           (after_classification (with_excluded a None)).
Proof.
  unfold after_classification.
  cbn [with_excluded objects_path images_path
    allowed_classifications excluded_subclassifications].
  rewrite Hop, excluded_truthy, orb_true_r, orb_false_r.
  rewrite filter_by_classification_filter. fold (passes a op excluded).
  destruct (truthy (allowed_classifications a)); [|reflexivity].
  rewrite filter_by_classification_filter. symmetry.
  apply filter_implied. exact kept_with_exclusion_is_kept.
Qed.

(** The images after the artist filter. *)
Lemma after_artists_excluded :
  after_artists (with_excluded a (Some excluded))
  = match after_artists (with_excluded a None) with
    | Some (Normal data) =>
        Some (Normal (filter (passes a op excluded) data))
    | other => other
    end.
Proof.
  unfold after_artists. rewrite after_classification_excluded.
  cbn [with_excluded constituents_path objects_constituents_path
    artist_names].
  destruct (constituents_path a) as [cp|]; [|reflexivity].
  destruct (objects_constituents_path a) as [ocp|]; [|reflexivity].
  destruct (truthy (artist_names a)); [|reflexivity].
  destruct (filter_by_artists_filter cp ocp (artist_names a))
    as [(e & H)|[H|(p & H)]]; rewrite !H; try reflexivity.
  now rewrite filter_comm.
Qed.

Lemma classification_requested_excluded :
  classification_requested (with_excluded a (Some excluded)) = true.
Proof.
  unfold classification_requested.
  cbn [with_excluded objects_path allowed_classifications
    excluded_subclassifications].
  rewrite Hop, excluded_truthy. apply orb_true_r.
Qed.

(** Candidates with the exclusion are candidates without it. *)
Lemma candidates_excluded (rows : list series) :
  candidates (with_excluded a (Some excluded)) = inr rows ->
  exists rows0,
    candidates (with_excluded a None) = inr rows0 /\
    rows = filter (fun row => passes a op excluded (image_of row)) rows0.
Proof.
  intro Hc. unfold candidates in Hc.
  rewrite after_artists_excluded, classification_requested_excluded in Hc.
  cbn [andb] in Hc.
  destruct (is_empty (after_classification (with_excluded a (Some excluded))))
    eqn:Eempty; [discriminate|].
  rewrite after_classification_excluded in Eempty.
  apply filter_not_empty in Eempty.
  assert (Hart : artists_requested (with_excluded a (Some excluded))
                 = artists_requested (with_excluded a None)) by reflexivity.
  assert (Henrich : forall data,
            enrich (with_excluded a (Some excluded)) data
            = enrich (with_excluded a None) data) by reflexivity.
  destruct (after_artists (with_excluded a None)) as [[data|e]|] eqn:Ea;
    try discriminate.
  rewrite Hart in Hc.
  destruct (artists_requested (with_excluded a None)
            && is_empty (filter (passes a op excluded) data)) eqn:Eart;
    [discriminate|].
  rewrite Henrich, enrich_filter in Hc.
  destruct (enrich (with_excluded a None) data) as [rows0|e] eqn:Ee;
    [|discriminate].
  injection Hc as <-.
  exists rows0. split; [|reflexivity].
  unfold candidates. rewrite Ea, Ee, Eempty, andb_false_r.
  destruct (artists_requested (with_excluded a None)); [|reflexivity].
  cbn [andb] in Eart |- *. apply filter_not_empty in Eart.
  now rewrite Eart.
Qed.

(** A candidate without the exclusion that shows a kept object is a
    candidate with it. *)
Lemma candidates_not_excluded (rows0 : list series) (row : series) :
  candidates (with_excluded a None) = inr rows0 ->
  In row rows0 ->
  passes a op excluded (image_of row) = true ->
  exists rows, candidates (with_excluded a (Some excluded)) = inr rows.
Proof.
  intros Hc Hrow Hq.
  destruct (candidates_after_artists _ _ _ Hc Hrow)
    as (data & Ea & Hdata & Hac).
  assert (Hne : forall l : list image,
            In (image_of row) l ->
            is_empty (filter (passes a op excluded) l) = false).
  { intros l Hl.
    assert (Hin : In (image_of row) (filter (passes a op excluded) l))
      by now apply filter_In.
    now destruct (filter (passes a op excluded) l). }
  assert (He : exists rows1, enrich (with_excluded a None) data = Normal rows1).
  { unfold candidates in Hc. rewrite Ea in Hc.
    destruct (_ && _); [discriminate|].
    destruct (_ && _); [discriminate|].
    destruct (enrich (with_excluded a None) data) as [rows1|];
      [now exists rows1 | discriminate]. }
  destruct He as (rows1 & He).
  unfold candidates.
  rewrite after_artists_excluded, classification_requested_excluded, Ea.
  rewrite after_classification_excluded, (Hne _ Hac), (Hne _ Hdata).
  rewrite !andb_false_r.
  change (enrich (with_excluded a (Some excluded))
                 (filter (passes a op excluded) data))
    with (enrich (with_excluded a None) (filter (passes a op excluded) data)).
  rewrite enrich_filter, He. now eexists.
Qed.

Lemma candidate_rows_excluded :
  candidate_rows (with_excluded a (Some excluded))
  = filter (fun row => passes a op excluded (image_of row))
           (candidate_rows (with_excluded a None)).
Proof.
  unfold candidate_rows.
  destruct (candidates (with_excluded a (Some excluded))) as [e|rows] eqn:E1.
  - destruct (candidates (with_excluded a None)) as [e0|rows0] eqn:E0;
      [reflexivity|].
    symmetry. apply filter_none. apply Forall_forall. intros row Hrow.
    destruct (passes a op excluded (image_of row)) eqn:Hq; [|reflexivity].
    destruct (candidates_not_excluded rows0 row E0 Hrow Hq) as (rows & H).
    congruence.
  - destruct (candidates_excluded rows E1) as (rows0 & -> & ->).
    reflexivity.
Qed.

(** An image shows a kept object when some object of its id is allowed
    and not excluded. *)
Lemma shows_kept_object_iff (r : image) :
  passes a op excluded r = true <->
  exists o,
    In o (objects.read_csv op) /\
    objects.objectid o = published_images.depictstmsobjectid r /\
    (negb (truthy (allowed_classifications a))
     || isin (objects.classification o) (items (allowed_classifications a)))
    = true /\
    isin (objects.subclassification o) excluded = false.
Proof.
  unfold passes, shows_kept_object, kept_objects.
  rewrite isin_key_In, in_map_iff, excluded_truthy. cbn [negb orb items].
  split.
  - intros (o & Ho & Hin). apply filter_In in Hin.
    destruct Hin as [Hin Hcond]. apply andb_true_iff in Hcond.
    destruct Hcond as [H1 H2]. exists o.
    repeat split; try assumption. now apply negb_true_iff.
  - intros (o & Hin & Ho & H1 & H2). exists o. split; [assumption|].
    apply filter_In. split; [assumption|].
    apply andb_true_iff. split; [assumption|]. now apply negb_true_iff.
Qed.

(** With allowed classifications, a candidate of the call without
    exclusion shows an allowed object. *)
Lemma candidate_shows_allowed_object (row : series) :
  truthy (allowed_classifications a) = true ->
  In row (candidate_rows (with_excluded a None)) ->
  exists o,
    In o (objects.read_csv op) /\
    objects.objectid o = published_images.depictstmsobjectid (image_of row) /\
    isin (objects.classification o) (items (allowed_classifications a)) = true.
Proof.
  intros Hallowed Hrow. unfold candidate_rows in Hrow.
  destruct (candidates (with_excluded a None)) as [e|rows0] eqn:E0;
    [contradiction|].
  destruct (candidates_after_artists _ _ _ E0 Hrow) as (_ & _ & _ & Hin).
  unfold after_classification in Hin.
  cbn [with_excluded objects_path images_path
    allowed_classifications excluded_subclassifications] in Hin.
  rewrite Hop, Hallowed in Hin. cbn [orb] in Hin.
  rewrite filter_by_classification_filter in Hin.
  apply filter_In in Hin. destruct Hin as [_ Hin].
  unfold shows_kept_object in Hin.
  apply isin_key_In, in_map_iff in Hin. destruct Hin as (o & Ho & Hin).
  unfold kept_objects in Hin. apply filter_In in Hin.
  destruct Hin as [Hin Hcond]. rewrite Hallowed in Hcond.
  cbn [truthy negb orb] in Hcond. rewrite andb_true_r in Hcond.
  exists o. now repeat split.
Qed.

End Exclusion.

(** C6, amended.  For a call that the model covers, with an objects
    table and a list of excluded subclassifications that is not empty,
    the candidates (none when the call ends before the pool) are the
    candidates of the same
    call without exclusion that show an object passing both conditions,
    in the same order: they are among them.  When allowed
    classifications are given and the object ids are unique, a
    candidate is removed by the exclusion exactly when the
    subclassification of its object is excluded.  When no allowed
    classification is given, it is removed exactly when every object of
    its id has an excluded subclassification, which is so for an image
    whose object is not in the table. *)
Theorem exclusion_removes_excluded_subclassifications
    (a : arguments) (op : objects_csv) (excluded : list string) :
  modelled a = true ->
  objects_path a = Some op ->
  excluded <> [] ->
  candidate_rows (with_excluded a (Some excluded))
  = filter (fun row =>
              shows_kept_object op (allowed_classifications a)
                                (Some excluded) (image_of row))
           (candidate_rows (with_excluded a None)) /\
  (forall row,
     In row (candidate_rows (with_excluded a (Some excluded))) ->
     In row (candidate_rows (with_excluded a None))) /\
  (truthy (allowed_classifications a) = true ->
   NoDup (map (@objects.objectid cell) (objects.read_csv op)) ->
   forall row,
     In row (candidate_rows (with_excluded a None)) ->
     (~ In row (candidate_rows (with_excluded a (Some excluded))) <->
      exists o,
        In o (objects.read_csv op) /\
        objects.objectid o
        = published_images.depictstmsobjectid (image_of row) /\
        isin (objects.subclassification o) excluded = true)) /\
  (truthy (allowed_classifications a) = false ->
   forall row,
     In row (candidate_rows (with_excluded a None)) ->
     (~ In row (candidate_rows (with_excluded a (Some excluded))) <->
      forall o,
        In o (objects.read_csv op) ->
        objects.objectid o
        = published_images.depictstmsobjectid (image_of row) ->
        isin (objects.subclassification o) excluded = true)).
Proof.
  intros _ Hop Hex.
  pose proof (candidate_rows_excluded a op excluded Hop Hex) as Hrows.
  pose proof (shows_kept_object_iff a op excluded Hex) as Hkept.
  split; [exact Hrows|]. rewrite Hrows.
  split; [intros row Hrow; now apply filter_In in Hrow|].
  split.
  - intros Hallowed Hnd row Hrow. rewrite filter_In.
    destruct (candidate_shows_allowed_object a op Hop row Hallowed Hrow)
      as (o & Hin & Ho & Hclass).
    split.
    + intro Hnot. exists o. split; [assumption|]. split; [assumption|].
      destruct (isin (objects.subclassification o) excluded) eqn:E;
        [reflexivity|].
      exfalso. apply Hnot. split; [assumption|]. apply Hkept.
      exists o. rewrite Hclass, orb_true_r. now repeat split.
    + intros (o' & Hin' & Ho' & Hsub') [_ Hq]. apply Hkept in Hq.
      destruct Hq as (o'' & Hin'' & Ho'' & _ & Hsub'').
      assert (o'' = o') as ->.
      { apply (NoDup_map_injective (@objects.objectid cell)
                 (objects.read_csv op)); try assumption. congruence. }
      congruence.
  - intros Hallowed row Hrow. rewrite filter_In. split.
    + intros Hnot o Hin Ho.
      destruct (isin (objects.subclassification o) excluded) eqn:E;
        [reflexivity|].
      exfalso. apply Hnot. split; [assumption|]. apply Hkept.
      exists o. rewrite Hallowed. now repeat split.
    + intros Hall [_ Hq]. apply Hkept in Hq.
      destruct Hq as (o & Hin & Ho & _ & Hsub).
      rewrite (Hall o Hin Ho) in Hsub. discriminate.
Qed.

(** ** What one task does *)

Lemma logged_app (l1 l2 : list action) :
  logged (l1 ++ l2) = (logged l1 ++ logged l2)%list.
Proof. apply flat_map_app. Qed.

Lemma described_app (l1 l2 : list action) :
  described (l1 ++ l2) = (described l1 ++ described l2)%list.
Proof. apply flat_map_app. Qed.

Lemma touched_app (l1 l2 : list action) :
  touched (l1 ++ l2) = (touched l1 ++ touched l2)%list.
Proof. apply flat_map_app. Qed.

(** The loop over the chunks ends with the exception of the first write
    that raises, and writes to no other path and to no ledger. *)
Lemma write_chunks_cases (w : World) (path : string)
    (chunks : list (list Byte.byte)) (n pos : nat) :
  snd (write_chunks w path n pos chunks)
  = match writing_raises w path n chunks with
    | Some e => Raise e
    | None => Normal tt
    end /\
  logged (fst (write_chunks w path n pos chunks)) = [] /\
  described (fst (write_chunks w path n pos chunks)) = [] /\
  Forall (fun p => p = path) (touched (fst (write_chunks w path n pos chunks))).
Proof.
  revert n pos. induction chunks as [|chunk rest IH]; intros n pos; simpl.
  - repeat split; constructor.
  - destruct chunk as [|b chunk]; [apply IH|].
    destruct (write_raises w path n) as [e|].
    + repeat split; constructor.
    + specialize (IH (S n) (pos + length (b :: chunk))%nat).
      unfold bind, tell.
      destruct (write_chunks w path (S n) (pos + length (b :: chunk)) rest)
        as [acts r].
      simpl in *. destruct IH as (Hr & Hl & Hd & Ht).
      repeat split; try assumption. now constructor.
Qed.

(** Saving the body ends with the exception [saving_raises] tells, and
    opens and writes only the destination. *)
Lemma save_body_cases (w : World) (path : string) (r : Response) :
  snd (save_body w path r)
  = match saving_raises w path r with
    | Some e => Raise e
    | None => Normal tt
    end /\
  logged (fst (save_body w path r)) = [] /\
  described (fst (save_body w path r)) = [] /\
  Forall (fun p => p = path) (touched (fst (save_body w path r))).
Proof.
  unfold save_body, with_open_wb, saving_raises.
  destruct (open_raises w path) as [e|]; [repeat split; constructor|].
  destruct (write_chunks_cases w path (iter_content r) 0 0)
    as (Hr & Hl & Hd & Ht).
  unfold bind, tell, lift, ret.
  destruct (write_chunks w path 0 0 (iter_content r)) as [acts res].
  simpl in *. subst res.
  destruct (close_raises w path) as [e|],
           (writing_raises w path 0 (iter_content r)) as [e'|];
    try destruct (iter_error r) as [e''|]; simpl; rewrite ?app_nil_r;
    repeat split; try assumption; now constructor.
Qed.

Lemma download_image_cases (w : World) (row : series) :
  snd (download_image w row) = Normal tt /\
  fst (download_image w row) =
    match requests_get w (image_url row) with
    | Raise e => [Log (outcome_line w row)]
    | Normal r =>
        if status_code r =? 200 then
          (fst (save_body w (file_path row) r)
           ++ Log (outcome_line w row)
           :: (if downloaded w row then [Describe (description_data_of row)]
               else []))%list
        else [Log (outcome_line w row)]
    end.
Proof.
  unfold download_image, outcome_line, downloaded.
  destruct (requests_get w (image_url row)) as [r|e]; simpl;
    [|split; reflexivity].
  destruct (status_code r =? 200); simpl; [|split; reflexivity].
  destruct (save_body_cases w (file_path row) r) as (Hr & _).
  unfold bind, try_except, tell, lift, ret.
  destruct (save_body w (file_path row) r) as [acts res].
  simpl in Hr. subst res.
  destruct (saving_raises w (file_path row) r); simpl; split; reflexivity.
Qed.

(** A task writes one line to the log: its outcome line. *)
Lemma download_image_logged (w : World) (row : series) :
  logged (fst (download_image w row)) = [outcome_line w row].
Proof.
  destruct (download_image_cases w row) as [_ ->].
  destruct (requests_get w (image_url row)) as [r|e]; [|reflexivity].
  destruct (status_code r =? 200); [|reflexivity].
  destruct (save_body_cases w (file_path row) r) as (_ & Hl & _).
  rewrite logged_app, Hl. simpl. now destruct (downloaded w row).
Qed.

(** It appends one description when the download went through, and none
    otherwise. *)
Lemma download_image_described (w : World) (row : series) :
  described (fst (download_image w row)) =
  if downloaded w row then [description_data_of row] else [].
Proof.
  destruct (download_image_cases w row) as [_ ->].
  unfold downloaded at 2.
  destruct (requests_get w (image_url row)) as [r|e] eqn:Eg; [|reflexivity].
  destruct (status_code r =? 200) eqn:Es; [|reflexivity].
  destruct (save_body_cases w (file_path row) r) as (_ & _ & Hd & _).
  rewrite described_app, Hd. simpl.
  unfold downloaded. rewrite Eg, Es. simpl.
  now destruct (saving_raises w (file_path row) r).
Qed.

Lemma is_outcome_line (w : World) (row : series) :
  is_outcome (outcome_line w row) = true.
Proof.
  unfold outcome_line.
  destruct (requests_get w (image_url row)) as [r|e]; [|reflexivity].
  destruct (status_code r =? 200); [|reflexivity].
  destruct (saving_raises w (file_path row) r); reflexivity.
Qed.

Lemma is_success_line (w : World) (row : series) :
  is_success (outcome_line w row) = downloaded w row.
Proof.
  unfold outcome_line, downloaded.
  destruct (requests_get w (image_url row)) as [r|e]; [|reflexivity].
  destruct (status_code r =? 200); [|reflexivity].
  destruct (saving_raises w (file_path row) r); reflexivity.
Qed.

(** ** Interleavings *)

Lemma concat_all_nil {A : Type} (tasks : list (list A)) :
  Forall (fun t => t = []) tasks -> concat tasks = [].
Proof.
  induction 1 as [|t tasks Ht _ IH]; simpl; [reflexivity|].
  now rewrite Ht, IH.
Qed.

Lemma interleaving_Permutation {A : Type} (tasks : list (list A))
    (schedule : list A) :
  interleaving tasks schedule -> Permutation schedule (concat tasks).
Proof.
  induction 1 as [tasks Hnil | before a t after schedule _ IH].
  - now rewrite concat_all_nil.
  - rewrite concat_app in *. simpl in *.
    now apply Permutation_cons_app.
Qed.

Lemma interleaving_idle {A : Type} (tasks : list (list A)) (schedule : list A) :
  interleaving tasks schedule -> interleaving ([] :: tasks) schedule.
Proof.
  induction 1 as [tasks Hnil | before a t after schedule _ IH].
  - constructor. now constructor.
  - exact (interleaving_step ([] :: before) a t after IH).
Qed.

(** Running the tasks one after the other is one of the interleavings. *)
Lemma interleaving_in_order {A : Type} (tasks : list (list A)) :
  interleaving tasks (concat tasks).
Proof.
  induction tasks as [|t tasks IH]; simpl.
  - constructor. constructor.
  - induction t as [|a t IHt]; simpl.
    + now apply interleaving_idle.
    + exact (interleaving_step [] a t tasks IHt).
Qed.

Lemma Permutation_filter_length {A : Type} (f : A -> bool) (l l' : list A) :
  Permutation l l' -> length (filter f l) = length (filter f l').
Proof.
  induction 1 as [|x l l' _ IH|x y l|l l' l'' _ IH1 _ IH2]; simpl.
  - reflexivity.
  - destruct (f x); simpl; now rewrite IH.
  - destruct (f x), (f y); reflexivity.
  - now rewrite IH1.
Qed.

Lemma logged_concat (tasks : list (list action)) :
  logged (concat tasks) = concat (map logged tasks).
Proof.
  induction tasks as [|t tasks IH]; simpl; [reflexivity|].
  now rewrite logged_app, IH.
Qed.

Lemma described_concat (tasks : list (list action)) :
  described (concat tasks) = concat (map described tasks).
Proof.
  induction tasks as [|t tasks IH]; simpl; [reflexivity|].
  now rewrite described_app, IH.
Qed.

(** ** Running actions in a folder *)

Lemma run_app (l1 l2 : list action) (st : Store) :
  run (l1 ++ l2) st = run l2 (run l1 st).
Proof. apply fold_left_app. Qed.

Lemma run_log_file (l : list action) (st : Store) :
  log_file (run l st) = (log_file st ++ logged l)%list.
Proof.
  revert st. induction l as [|a l IH]; intro st; simpl.
  - now rewrite app_nil_r.
  - unfold run in *. simpl. rewrite IH.
    destruct a; simpl; try reflexivity. now rewrite <- app_assoc.
Qed.

Lemma run_description_some (l : list action) (st : Store)
    (old : list (list string)) :
  description_file st = Some old ->
  description_file (run l st) = Some (old ++ map csv_row (described l))%list.
Proof.
  revert st old. induction l as [|a l IH]; intros st old Hst; simpl.
  - now rewrite app_nil_r.
  - unfold run in *. simpl.
    destruct a as [p|p pos c|m|d]; simpl;
      try (now apply IH).
    rewrite (IH _ (old ++ [csv_row d])%list).
    + now rewrite <- app_assoc.
    + unfold write_description. now rewrite Hst.
Qed.

Lemma run_description_none (l : list action) (st : Store) :
  description_file st = None ->
  description_file (run l st) =
  match described l with
  | [] => None
  | d :: _ => Some (map fst d :: map csv_row (described l))
  end.
Proof.
  revert st. induction l as [|a l IH]; intros st Hst; simpl.
  - assumption.
  - unfold run in *. simpl.
    destruct a as [p|p pos c|m|d]; simpl; try (now apply IH).
    fold (run l (write_description d st)).
    rewrite (run_description_some l _ [map fst d; csv_row d]).
    + reflexivity.
    + unfold write_description. now rewrite Hst.
Qed.

Lemma run_files_untouched (l : list action) (st : Store) :
  touched l = [] -> files (run l st) = files st.
Proof.
  revert st. induction l as [|a l IH]; intros st Ht; simpl; [reflexivity|].
  unfold run in *. simpl.
  destruct a as [p|p pos c|m|d]; simpl in Ht; try discriminate;
    now rewrite IH.
Qed.

Lemma description_rows_run (l : list action) (st : Store) :
  description_file st = None ->
  description_rows (run l st) = map csv_row (described l).
Proof.
  intro Hst. unfold description_rows.
  rewrite (run_description_none l st Hst).
  now destruct (described l).
Qed.

(** ** Whole runs *)

Lemma submit_logged (world : nat -> World)
    (data : list series) :
  logged (concat (map fst (submit world data))) = outcomes world data.
Proof.
  unfold submit, outcomes.
  induction (combine (seq 0 (length data)) data) as [|ir l IH]; simpl;
    [reflexivity|].
  now rewrite logged_app, download_image_logged, IH.
Qed.

Lemma submit_described (world : nat -> World)
    (data : list series) :
  length (described (concat (map fst (submit world data)))) =
  length (filter is_success (outcomes world data)).
Proof.
  unfold submit, outcomes.
  induction (combine (seq 0 (length data)) data) as [|ir l IH]; simpl;
    [reflexivity|].
  rewrite described_app, length_app, download_image_described, IH.
  rewrite is_success_line.
  now destruct (downloaded _).
Qed.

Lemma outcomes_length (world : nat -> World)
    (data : list series) :
  length (outcomes world data) = length data.
Proof.
  unfold outcomes.
  rewrite length_map, length_combine, length_seq. apply Nat.min_id.
Qed.

Lemma outcomes_are_outcomes (world : nat -> World)
    (data : list series) :
  Forall (fun m => is_outcome m = true) (outcomes world data).
Proof.
  unfold outcomes. apply Forall_forall. intros m Hm.
  apply in_map_iff in Hm. destruct Hm as (ir & <- & _).
  apply is_outcome_line.
Qed.

Lemma session_start_facts (a : arguments) :
  described (session_start a) = [] /\
  touched (session_start a) = [] /\
  Forall (fun m => is_outcome m = false) (logged (session_start a)).
Proof.
  unfold session_start.
  destruct (truthy (artist_names a)), (truthy (allowed_classifications a)),
    (truthy (excluded_subclassifications a)); simpl;
    repeat split; repeat constructor.
Qed.

Lemma is_success_is_outcome (m : string) :
  is_outcome m = false -> is_success m = false.
Proof.
  unfold is_outcome. destruct (is_success m); [discriminate|reflexivity].
Qed.

(** What a call of [download_dataset] adds to the folder: the actions
    [l] run after the description file is removed, with their log lines
    and their descriptions. *)
Lemma download_dataset_actions a world st st' e :
  download_dataset a world st st' e ->
  exists l,
    st' = run l (remove_description st) /\
    length (described l) = length (filter is_success (logged l)) /\
    (forall data, candidates a = inr data -> 0 < max_threads a ->
       e = Complete /\
       exists new,
         logged l = (logged (session_start a) ++ new)%list /\
         Permutation new (outcomes world data)) /\
    (forall e0, candidates a = inl e0 -> e = e0 /\ l = []).
Proof.
  destruct (session_start_facts a) as (Hd & Ht & Hl).
  assert (Hs : filter is_success (logged (session_start a)) = []).
  { apply filter_none. eapply Forall_impl; [|exact Hl].
    intros m. apply is_success_is_outcome. }
  intros [e0 Hm Hc | data Hm Hc Hmax | data schedule Hm Hc Hmax Hi].
  - exists []. split; [reflexivity|]. split; [reflexivity|]. split.
    + intros data Hc'. congruence.
    + intros e1 Hc'. split; congruence.
  - exists (session_start a). split; [reflexivity|]. split.
    { now rewrite Hd, Hs. }
    split.
    + intros data' _ Hpos. lia.
    + intros e1 Hc'. congruence.
  - exists (session_start a ++ schedule)%list.
    pose proof (interleaving_Permutation _ _ Hi) as Hp.
    split; [now rewrite run_app|]. split.
    { rewrite described_app, logged_app, filter_app, !length_app, Hd, Hs.
      simpl.
      assert (E : length (described schedule)
                  = length (described (concat (map fst (submit world data))))).
      { apply Permutation_length. unfold described.
        now apply Permutation_flat_map. }
      rewrite E, submit_described, <- submit_logged.
      apply Permutation_filter_length. symmetry. unfold logged.
      now apply Permutation_flat_map. }
    split.
    + intros data' Hc' _. split; [reflexivity|].
      exists (logged schedule). split; [apply logged_app|].
      assert (data' = data) as -> by congruence.
      rewrite <- submit_logged. unfold logged.
      now apply Permutation_flat_map.
    + intros e1 Hc'. congruence.
Qed.

Lemma is_failure_or_error_line (w : World) (row : series) :
  is_failure (outcome_line w row) || is_error (outcome_line w row)
  = negb (downloaded w row).
Proof.
  unfold outcome_line, downloaded.
  destruct (requests_get w (image_url row)) as [r|e]; [|reflexivity].
  destruct (status_code r =? 200); [|reflexivity].
  destruct (saving_raises w (file_path row) r); reflexivity.
Qed.

(** The descriptions the tasks append are those of the rows whose
    download went through. *)
Lemma submit_described_rows (world : nat -> World) (data : list series) :
  described (concat (map fst (submit world data)))
  = map description_data_of (successes world data).
Proof.
  unfold submit, successes.
  induction (combine (seq 0 (length data)) data) as [|ir l IH]; simpl;
    [reflexivity|].
  rewrite described_app, download_image_described, IH.
  now destruct (downloaded (world (fst ir)) (snd ir)).
Qed.

(** The SUCCESS lines among the outcome lines are those of the same
    rows. *)
Lemma outcomes_successes (world : nat -> World) (data : list series) :
  filter is_success (outcomes world data)
  = map (fun row => "SUCCESS: " ++ file_name row ++ " | URL: " ++ image_url row)
        (successes world data).
Proof.
  unfold outcomes, successes.
  induction (combine (seq 0 (length data)) data) as [|ir l IH];
    [reflexivity|].
  cbn [map filter]. rewrite is_success_line, IH.
  destruct (downloaded (world (fst ir)) (snd ir)) eqn:E; [|reflexivity].
  cbn [map]. f_equal. unfold outcome_line. unfold downloaded in E.
  destruct (requests_get (world (fst ir)) (image_url (snd ir))) as [r|];
    [|discriminate].
  destruct (status_code r =? 200); [|discriminate].
  now destruct (saving_raises (world (fst ir)) (file_path (snd ir)) r).
Qed.

Lemma Permutation_filter {A : Type} (f : A -> bool) (l l' : list A) :
  Permutation l l' -> Permutation (filter f l) (filter f l').
Proof.
  induction 1 as [|x l l' _ IH|x y l|l l' l'' _ IH1 _ IH2]; simpl.
  - constructor.
  - destruct (f x); [now constructor | assumption].
  - destruct (f x), (f y); try reflexivity. apply perm_swap.
  - now transitivity (filter f l').
Qed.

(** The rows of the description file after a call. *)
Lemma download_dataset_rows a world st st' e :
  download_dataset a world st st' e ->
  (forall data,
     candidates a = inr data -> 0 < max_threads a ->
     Permutation (description_rows st')
                 (map (fun row => csv_row (description_data_of row))
                      (successes world data))) /\
  (forall data,
     candidates a = inr data -> max_threads a <= 0 ->
     description_rows st' = []) /\
  (forall e0, candidates a = inl e0 -> description_rows st' = []).
Proof.
  destruct (session_start_facts a) as (Hd & _ & _).
  intros [e0 Hm Hc | data Hm Hc Hmax | data schedule Hm Hc Hmax Hi].
  - split; [intros; congruence|]. split; [intros; congruence|].
    intros; reflexivity.
  - assert (E : description_rows
                  (run (session_start a) (remove_description st)) = []).
    { rewrite description_rows_run by reflexivity. now rewrite Hd. }
    split; [intros; lia|]. split; [intros; assumption|].
    intros; congruence.
  - split; [|split; [intros; lia | intros; congruence]].
    intros data' Hc' _. assert (data' = data) as -> by congruence.
    rewrite <- run_app, description_rows_run by reflexivity.
    rewrite described_app, Hd. cbn [app].
    rewrite <- map_map with (f := description_data_of) (g := csv_row).
    apply Permutation_map. rewrite <- submit_described_rows.
    unfold described. apply Permutation_flat_map.
    now apply interleaving_Permutation.
Qed.

Lemma download_dataset_log a world st st' e :
  download_dataset a world st st' e ->
  exists new,
    log_file st' = (log_file st ++ new)%list /\
    length (description_rows st') = length (filter is_success new).
Proof.
  intro H. apply download_dataset_actions in H.
  destruct H as (l & -> & Hn & _).
  exists (logged l). split.
  - now rewrite run_log_file.
  - rewrite description_rows_run by reflexivity.
    now rewrite length_map.
Qed.

Lemma submit_described_header (world : nat -> World)
    (data : list series) :
  Forall (fun d => map fst d = csv_header)
         (described (concat (map fst (submit world data)))).
Proof.
  unfold submit.
  induction (combine (seq 0 (length data)) data) as [|ir l IH]; simpl;
    [constructor|].
  rewrite described_app, download_image_described.
  apply Forall_app. split; [|exact IH].
  destruct (downloaded _); repeat constructor.
Qed.

(** After a call the description file is absent or starts with the
    header. *)
Lemma download_dataset_header a world st st' e :
  download_dataset a world st st' e ->
  description_file st' = None \/
  exists rows, description_file st' = Some (csv_header :: rows).
Proof.
  destruct (session_start_facts a) as (Hd & _ & _).
  assert (Hrun : forall l,
            Forall (fun d => map fst d = csv_header) (described l) ->
            description_file (run l (remove_description st)) = None \/
            exists rows,
              description_file (run l (remove_description st))
              = Some (csv_header :: rows)).
  { intros l Hl. rewrite run_description_none by reflexivity.
    destruct (described l) as [|d ds]; [now left|]. right.
    inversion Hl as [|? ? Hhead _]; subst. rewrite Hhead. now eexists. }
  intros [e0 Hm Hc | data Hm Hc Hmax | data schedule Hm Hc Hmax Hi].
  - now left.
  - apply Hrun. rewrite Hd. constructor.
  - rewrite <- run_app. apply Hrun.
    rewrite described_app, Hd. simpl.
    pose proof (interleaving_Permutation _ _ Hi) as Hp.
    assert (Hpd : Permutation (described (concat (map fst (submit world data))))
                              (described schedule)).
    { unfold described. symmetry. now apply Permutation_flat_map. }
    exact (Permutation_Forall Hpd (submit_described_header world data)).
Qed.

(** C1.  After a run that reaches the pool, the rows of description.csv
    below the header are, in some order, the description rows of the
    candidates whose download went through (status 200, the file opened,
    written to the end and closed), and the SUCCESS lines the run adds to
    the log are the lines of the same candidates; a call that ends
    before the pool leaves no row.  So the rows are always as many as
    the SUCCESS lines added, below the header if there is a file.  A
    task appends its row exactly when its download went through, and
    then its line is the SUCCESS line; otherwise it appends no row and
    its line is a FAILURE or an ERROR line. *)
Theorem description_rows_match_successes a world st st' e :
  download_dataset a world st st' e ->
  (exists new,
     log_file st' = (log_file st ++ new)%list /\
     length (description_rows st') = length (filter is_success new) /\
     forall data,
       candidates a = inr data -> 0 < max_threads a ->
       Permutation (filter is_success new)
         (map (fun row =>
                 "SUCCESS: " ++ file_name row ++ " | URL: " ++ image_url row)
              (successes world data)))
  /\
  (forall data,
     candidates a = inr data -> 0 < max_threads a ->
     Permutation (description_rows st')
                 (map (fun row => csv_row (description_data_of row))
                      (successes world data)))
  /\
  (forall data,
     candidates a = inr data -> max_threads a <= 0 ->
     description_rows st' = [])
  /\
  (forall e0, candidates a = inl e0 -> description_rows st' = [])
  /\
  (description_file st' = None \/
   exists rows, description_file st' = Some (csv_header :: rows))
  /\
  (forall w row,
     described (fst (download_image w row))
     = (if downloaded w row then [description_data_of row] else []) /\
     exists m,
       logged (fst (download_image w row)) = [m] /\
       is_success m = downloaded w row /\
       is_failure m || is_error m = negb (downloaded w row)).
Proof.
  intro H. split.
  { pose proof (download_dataset_actions _ _ _ _ _ H)
      as (l & -> & Hn & Hrun & _).
    exists (logged l). split; [now rewrite run_log_file|]. split.
    - rewrite description_rows_run by reflexivity. now rewrite length_map.
    - intros data Hc Hmax.
      destruct (Hrun data Hc Hmax) as (_ & new & Hl & Hp).
      destruct (session_start_facts a) as (_ & _ & Hs).
      rewrite Hl, filter_app, <- outcomes_successes.
      rewrite (filter_none is_success (logged (session_start a))).
      + now apply Permutation_filter.
      + eapply Forall_impl; [|exact Hs].
        intros m. apply is_success_is_outcome. }
  destruct (download_dataset_rows _ _ _ _ _ H) as (H1 & H2 & H3).
  repeat (split; [assumption|]).
  split; [exact (download_dataset_header _ _ _ _ _ H)|].
  intros w row. split; [apply download_image_described|].
  exists (outcome_line w row).
  split; [apply download_image_logged|].
  split; [apply is_success_line | apply is_failure_or_error_line].
Qed.

(** C7.  A task never raises: whatever its request meets, it ends
    normally after writing exactly one line to the log, an outcome line.
    A run that reaches the pool with at least one worker therefore ends
    normally, and the lines it adds after the session marker are the
    outcome lines of the candidates, one for each, in some order. *)
Theorem item_failures_are_contained a world st st' e data :
  download_dataset a world st st' e ->
  candidates a = inr data ->
  0 < max_threads a ->
  (forall w row,
     snd (download_image w row) = Normal tt /\
     exists m, logged (fst (download_image w row)) = [m] /\
               is_outcome m = true)
  /\ e = Complete
  /\ exists new,
       log_file st' = (log_file st ++ logged (session_start a) ++ new)%list /\
       Permutation new (outcomes world data) /\
       length new = length data /\
       Forall (fun m => is_outcome m = true) new.
Proof.
  intros H Hc Hmax. split.
  { intros w row. split; [apply download_image_cases|].
    exists (outcome_line w row).
    split; [apply download_image_logged | apply is_outcome_line]. }
  apply download_dataset_actions in H.
  destruct H as (l & -> & _ & Hrun & _).
  destruct (Hrun data Hc Hmax) as (-> & new & Hl & Hp).
  split; [reflexivity|]. exists new.
  split; [now rewrite run_log_file, Hl|].
  split; [assumption|]. split.
  - rewrite (Permutation_length Hp). apply outcomes_length.
  - apply Forall_forall. intros m Hm.
    pose proof (outcomes_are_outcomes world data) as Ho.
    rewrite Forall_forall in Ho. apply Ho.
    now apply (Permutation_in _ Hp).
Qed.

(** C8.  In two runs, one after the other, the log after the second is
    the log before the first followed by the lines of the first and then
    the lines of the second.  The second run does not depend on the
    description file the first one left: it ends in the same folder
    whatever that file held, and the rows of its description file are as
    many as its own SUCCESS lines. *)
Theorem rerun_regenerates_description_and_extends_log
    a world1 world2 st0 st1 st2 e1 e2 :
  download_dataset a world1 st0 st1 e1 ->
  download_dataset a world2 st1 st2 e2 ->
  exists lines1 lines2,
    log_file st1 = (log_file st0 ++ lines1)%list /\
    log_file st2 = (log_file st0 ++ lines1 ++ lines2)%list /\
    length (description_rows st2) = length (filter is_success lines2) /\
    forall old,
      download_dataset a world2 (mk_store (log_file st1) old (files st1)) st2 e2.
Proof.
  intros H1 H2.
  destruct (download_dataset_log _ _ _ _ _ H1) as (lines1 & Hl1 & _).
  destruct (download_dataset_log _ _ _ _ _ H2) as (lines2 & Hl2 & Hr2).
  exists lines1, lines2. split; [assumption|].
  split; [now rewrite Hl2, Hl1, app_assoc|].
  split; [assumption|].
  intro old.
  destruct H2 as [e0 Hm Hc | data Hm Hc Hmax | data schedule Hm Hc Hmax Hi].
  - exact (@download_stops a world2 (mk_store (log_file st1) old (files st1))
             e0 Hm Hc).
  - exact (@download_no_pool a world2 (mk_store (log_file st1) old (files st1))
             data Hm Hc Hmax).
  - exact (@download_runs a world2 (mk_store (log_file st1) old (files st1))
             data schedule Hm Hc Hmax Hi).
Qed.

(** C10.  When a requested filter leaves no image, the call returns
    with the log as it was and without a description file: the old one
    was removed at the start and none is written.  No other file
    changes. *)
Theorem empty_selection_leaves_log_and_no_description a world st st' e :
  download_dataset a world st st' e ->
  (classification_requested a = true /\ after_classification a = []) \/
  (artists_requested a = true /\ after_artists a = Some (Normal [])) ->
  e = Nothing_found /\
  log_file st' = log_file st /\
  description_file st' = None /\
  files st' = files st.
Proof.
  intros H Hempty.
  assert (Hc : candidates a = inl Nothing_found).
  { unfold candidates. destruct Hempty as [[H1 H2]|[H1 H2]].
    - now rewrite H1, H2.
    - rewrite H2, H1. simpl.
      now destruct (classification_requested a && _). }
  apply download_dataset_actions in H.
  destruct H as (l & -> & _ & _ & Hstop).
  destruct (Hstop _ Hc) as [-> ->]. now simpl.
Qed.

Lemma read_set_file_same (path : string) (content : list Byte.byte)
    (fs : list (string * list Byte.byte)) :
  read_file path (set_file path content fs) = Some content.
Proof.
  induction fs as [|[p c] fs IH]; simpl.
  - now rewrite String.eqb_refl.
  - destruct (String.eqb p path) eqn:E; simpl; now rewrite E.
Qed.

Lemma read_set_file_other (path p : string) (content : list Byte.byte)
    (fs : list (string * list Byte.byte)) :
  p <> path ->
  read_file p (set_file path content fs) = read_file p fs.
Proof.
  intro Hne. induction fs as [|[q c] fs IH]; simpl.
  - destruct (String.eqb path p) eqn:E; [|reflexivity].
    apply String.eqb_eq in E. now subst.
  - destruct (String.eqb q path) eqn:E; simpl.
    + apply String.eqb_eq in E. subst q.
      destruct (String.eqb path p) eqn:E'; [|reflexivity].
      apply String.eqb_eq in E'. now subst.
    + now rewrite IH.
Qed.

(** The loop over the chunks, started at the end of what the handle has
    written and with no write that raises, appends the chunks. *)
Lemma run_write_chunks (w : World) (path : string)
    (chunks : list (list Byte.byte)) (n : nat) (written : list Byte.byte)
    (st : Store) :
  writing_raises w path n chunks = None ->
  read_file path (files st) = Some written ->
  read_file path
    (files (run (fst (write_chunks w path n (length written) chunks)) st))
  = Some (written ++ concat chunks)%list /\
  forall p, p <> path ->
    read_file p
      (files (run (fst (write_chunks w path n (length written) chunks)) st))
    = read_file p (files st).
Proof.
  revert n written st.
  induction chunks as [|chunk chunks IH]; intros n written st Hw Hst; simpl.
  - rewrite app_nil_r. now split.
  - destruct chunk as [|b chunk]; [now apply IH|].
    simpl in Hw. destruct (write_raises w path n); [discriminate|].
    unfold bind, tell.
    destruct (write_chunks w path (S n)
                (length written + length (b :: chunk)) chunks)
      as [acts r] eqn:Ew.
    simpl. unfold run. simpl.
    fold (run acts (file_write path (length written) (b :: chunk) st)).
    assert (Hstep : read_file path
              (files (file_write path (length written) (b :: chunk) st))
            = Some (written ++ b :: chunk)%list).
    { unfold file_write. simpl. rewrite Hst, read_set_file_same.
      rewrite firstn_all, Nat.sub_diag, skipn_all2 by (simpl; lia).
      simpl. now rewrite app_nil_r. }
    specialize (IH (S n) (written ++ b :: chunk)%list _ Hw Hstep).
    rewrite length_app, Ew in IH. simpl fst in IH.
    destruct IH as [IH1 IH2]. split.
    + now rewrite IH1, <- app_assoc.
    + intros p Hp. rewrite (IH2 p Hp). unfold file_write. simpl.
      now apply read_set_file_other.
Qed.

Lemma run_ledger_files (st : Store) (l : list action) :
  touched l = [] -> files (run l st) = files st.
Proof. apply run_files_untouched. Qed.

(** A file that cannot be opened is not touched. *)
Lemma save_body_unopened (w : World) (path : string) (r : Response)
    (e : string) :
  open_raises w path = Some e -> fst (save_body w path r) = [].
Proof. unfold save_body, with_open_wb. now intros ->. Qed.

Lemma save_body_actions (w : World) (path : string) (r : Response) :
  open_raises w path = None ->
  fst (save_body w path r)
  = Open path :: fst (write_chunks w path 0 0 (iter_content r)).
Proof.
  intro Ho. unfold save_body, with_open_wb. rewrite Ho.
  unfold bind, tell, lift, ret.
  destruct (write_chunks w path 0 0 (iter_content r)) as [acts [[]|e]];
    [destruct (iter_error r)|]; simpl; now rewrite ?app_nil_r.
Qed.

(** A task whose request gets status 200 and whose file is opened and
    written without an exception leaves the chunks of the body at its
    destination, whether or not the connection broke after them, and
    changes no other file. *)
Lemma download_image_files (w : World) (row : series) (r : Response)
    (st : Store) :
  requests_get w (image_url row) = Normal r ->
  status_code r = 200 ->
  open_raises w (file_path row) = None ->
  writing_raises w (file_path row) 0 (iter_content r) = None ->
  read_file (file_path row) (files (run (fst (download_image w row)) st))
  = Some (concat (iter_content r)) /\
  forall p, p <> file_path row ->
    read_file p (files (run (fst (download_image w row)) st))
    = read_file p (files st).
Proof.
  intros Hg Hs Ho Hw.
  destruct (download_image_cases w row) as [_ ->]. rewrite Hg.
  apply Z.eqb_eq in Hs. rewrite Hs, (save_body_actions _ _ _ Ho).
  change (Open (file_path row) :: ?acts)%list
    with ([Open (file_path row)] ++ acts)%list.
  rewrite !run_app.
  set (st1 := run [Open (file_path row)] st).
  assert (H1 : read_file (file_path row) (files st1) = Some []).
  { unfold st1, run. simpl. apply read_set_file_same. }
  destruct (run_write_chunks w (file_path row) (iter_content r) 0 [] st1
              Hw H1) as [Hc Hother].
  simpl length in Hc, Hother. simpl app in Hc.
  set (st2 := run (fst (write_chunks w (file_path row) 0 0 (iter_content r)))
                  st1) in *.
  assert (Hf : files (run (Log (outcome_line w row)
                           :: (if downloaded w row
                               then [Describe (description_data_of row)]
                               else [])) st2) = files st2).
  { apply run_files_untouched. now destruct (downloaded w row). }
  rewrite Hf. split; [exact Hc|].
  intros p Hp. rewrite (Hother p Hp). unfold st1, run. simpl.
  now apply read_set_file_other.
Qed.

Lemma download_image_touched (w : World) (row : series) (p : string) :
  In p (touched (fst (download_image w row))) ->
  p = file_path row /\
  exists r, requests_get w (image_url row) = Normal r /\ status_code r = 200.
Proof.
  destruct (download_image_cases w row) as [_ ->].
  destruct (requests_get w (image_url row)) as [r|e]; [|intros []].
  destruct (status_code r =? 200) eqn:E; [|intros []].
  destruct (save_body_cases w (file_path row) r) as (_ & _ & _ & Ht).
  rewrite touched_app. intro Hp. split.
  - apply in_app_or in Hp. destruct Hp as [Hp|Hp].
    + rewrite Forall_forall in Ht. now apply Ht.
    + destruct (downloaded w row); simpl in Hp; contradiction.
  - exists r. split; [reflexivity | now apply Z.eqb_eq].
Qed.

(** C4, amended.  A task whose request raises or gets a status other
    than 200 opens and writes no file: all it does is to write its
    outcome line, and the files of the folder are as before.  A task
    opens or writes no path but its own destination, and only after a
    status of 200.  But when the status is 200, the file is opened and
    written without an exception and the connection breaks while the
    body is read, the task writes an ERROR line with the exception and
    no description, and it leaves at its destination the chunks read
    before the break, whatever the file held before. *)
Theorem refused_download_touches_no_file (w : World) (row : series) :
  (refused (requests_get w (image_url row)) ->
   fst (download_image w row) = [Log (outcome_line w row)] /\
   (forall st, files (run (fst (download_image w row)) st) = files st))
  /\
  (forall w' p,
     In p (touched (fst (download_image w' row))) ->
     p = file_path row /\
     exists r, requests_get w' (image_url row) = Normal r /\
               status_code r = 200)
  /\
  (forall r e,
     requests_get w (image_url row) = Normal r ->
     status_code r = 200 ->
     iter_error r = Some e ->
     open_raises w (file_path row) = None ->
     writing_raises w (file_path row) 0 (iter_content r) = None ->
     close_raises w (file_path row) = None ->
     logged (fst (download_image w row))
     = ["ERROR: " ++ file_name row ++ " | URL: " ++ image_url row
        ++ " | Exception: " ++ e] /\
     described (fst (download_image w row)) = [] /\
     forall st,
       read_file (file_path row) (files (run (fst (download_image w row)) st))
       = Some (concat (iter_content r)) /\
       forall p, p <> file_path row ->
         read_file p (files (run (fst (download_image w row)) st))
         = read_file p (files st)).
Proof.
  split; [|split].
  - intro Hr.
    assert (E : fst (download_image w row) = [Log (outcome_line w row)]).
    { destruct (download_image_cases w row) as [_ ->].
      unfold refused in Hr.
      destruct (requests_get w (image_url row)) as [r|e]; [|reflexivity].
      destruct (status_code r =? 200) eqn:E; [|reflexivity].
      apply Z.eqb_eq in E. contradiction. }
    split; [assumption|]. intro st. now rewrite E.
  - intros w' p. apply download_image_touched.
  - intros r e Hg Hs He Ho Hw Hc.
    assert (Hsave : saving_raises w (file_path row) r = Some e).
    { unfold saving_raises. now rewrite Ho, Hc, Hw. }
    split; [|split].
    + rewrite download_image_logged. unfold outcome_line.
      rewrite Hg, Hsave. apply Z.eqb_eq in Hs. now rewrite Hs.
    + rewrite download_image_described. unfold downloaded.
      rewrite Hg, Hsave. apply Z.eqb_eq in Hs. now rewrite Hs.
    + intro st. now apply download_image_files.
Qed.

(** ** The artist filter *)

Lemma match_here_literal (n s : string) :
  re.match_here true (literal n) s = true <->
  exists after, re.lower_string s = re.lower_string n ++ after.
Proof.
  revert s. induction n as [|c n IH]; intro s; simpl.
  - split; [|reflexivity]. intros _. now exists (re.lower_string s).
  - destruct s as [|d s]; simpl.
    + split; [discriminate|]. intros (after & H). discriminate H.
    + rewrite andb_true_iff, IH, Ascii.eqb_eq. split.
      * intros (Hc & after & Hs). exists after. now rewrite Hc, Hs.
      * intros (after & H). injection H as Hc Hs. split; [now symmetry|].
        now exists after.
Qed.

Lemma search_branch_literal (n s : string) :
  re.search_branch true (literal n) s = true <-> occurs_ignoring_case n s.
Proof.
  unfold occurs_ignoring_case.
  induction s as [|d s IH]; simpl; rewrite orb_true_iff.
  - rewrite match_here_literal. simpl. split.
    + intros [(after & H)|H]; [|discriminate]. now exists EmptyString, after.
    + intros (before & after & H). left.
      destruct before; [|discriminate]. now exists after.
  - rewrite IH, match_here_literal. simpl. split.
    + intros [(after & H)|(before & after & H)].
      * now exists EmptyString, after.
      * exists (String (re.lower d) before), after. simpl. now rewrite H.
    + intros (before & after & H). destruct before as [|x before].
      * left. now exists after.
      * right. simpl in H. injection H as _ H. now exists before, after.
Qed.

Lemma not_special (c : ascii) :
  re.is_special c = false ->
  Ascii.eqb c "|" = false /\ Ascii.eqb c "." = false.
Proof.
  intro H. split.
  - destruct (Ascii.eqb c "|") eqn:E; [|reflexivity].
    apply Ascii.eqb_eq in E. subst. discriminate H.
  - destruct (Ascii.eqb c ".") eqn:E; [|reflexivity].
    apply Ascii.eqb_eq in E. subst. discriminate H.
Qed.

Lemma plain_cons (c : ascii) (n : string) :
  plain (String c n) -> re.is_special c = false /\ plain n.
Proof. unfold plain. simpl. intro H. now inversion H. Qed.

Lemma parse_branch_plain (n : string) :
  plain n -> re.parse_branch n = Some (literal n).
Proof.
  induction n as [|c n IH]; intro H; simpl; [reflexivity|].
  apply plain_cons in H. destruct H as [Hc Hn].
  unfold re.parse_atom. destruct (not_special c Hc) as [_ ->].
  now rewrite Hc, (IH Hn).
Qed.

Lemma split_bar_plain (n rest : string) :
  plain n ->
  re.split_bar n = [n] /\
  re.split_bar (n ++ String "|" rest) = n :: re.split_bar rest.
Proof.
  induction n as [|c n IH]; intro H; simpl; [now split|].
  apply plain_cons in H. destruct H as [Hc Hn].
  destruct (not_special c Hc) as [-> _].
  destruct (IH Hn) as [-> ->]. now split.
Qed.

Lemma split_bar_join (names : list string) :
  names <> [] -> Forall plain names ->
  re.split_bar (String.concat "|" names) = names.
Proof.
  induction names as [|n names IH]; intros Hne Hp; [contradiction|].
  inversion Hp as [|? ? Hn Hp']; subst.
  destruct names as [|n' names].
  - simpl. now destruct (split_bar_plain n EmptyString Hn).
  - change (String.concat "|" (n :: n' :: names))
      with (n ++ String "|" (String.concat "|" (n' :: names))).
    destruct (split_bar_plain n (String.concat "|" (n' :: names)) Hn)
      as [_ ->].
    now rewrite IH.
Qed.

Lemma parse_branches_plain (names : list string) :
  Forall plain names -> re.parse_branches names = Some (map literal names).
Proof.
  induction 1 as [|n names Hn _ IH]; simpl; [reflexivity|].
  now rewrite (parse_branch_plain n Hn), IH.
Qed.

Lemma compile_plain (names : list string) :
  names <> [] -> Forall plain names ->
  re.compile (String.concat "|" names) = Some (map literal names).
Proof.
  intros Hne Hp. unfold re.compile.
  now rewrite split_bar_join, parse_branches_plain.
Qed.

Lemma search_literals (names : list string) (s : string) :
  re.search true (map literal names) s = true <->
  exists n, In n names /\ occurs_ignoring_case n s.
Proof.
  unfold re.search. rewrite existsb_exists. split.
  - intros (b & Hb & Hs). apply in_map_iff in Hb.
    destruct Hb as (n & <- & Hn). exists n. split; [assumption|].
    now apply search_branch_literal.
  - intros (n & Hn & Ho). exists (literal n). split.
    + now apply in_map.
    + now apply search_branch_literal.
Qed.

Lemma cell_is_eq (c : cell) (s : string) : cell_is c s = true <-> c = Str s.
Proof.
  destruct c as [|t]; simpl.
  - split; discriminate.
  - rewrite String.eqb_eq. split; [now intros -> | now intros [= ->]].
Qed.

(** C5, amended.  For a list of names that is not empty and in which no
    name has a character that is special in a regular expression, and a
    table of constituents whose names are read as text, a constituent is
    selected exactly when one of the names occurs in its preferred
    display name, letter case aside; the images kept are those whose
    object has a link of role "artist" to a selected constituent.  For a
    table with lines in which every name is missing, the filter raises
    AttributeError. *)
Theorem artist_filter_matches_plain_names
    (images_df : list image) (constituents_path : constituents_csv)
    (objects_constituents_path : objects_constituents_csv)
    (names : list string) :
  names <> [] ->
  Forall plain names ->
  (infer_dtype (map (@constituents.preferreddisplayname cell)
                    (constituents.read_csv constituents_path)) = object ->
   exists selected filtered,
     selected_constituents (constituents.read_csv constituents_path) names
     = Some (Normal selected) /\
     (forall c,
        In c selected <->
        In c (constituents.read_csv constituents_path) /\
        exists s, constituents.preferreddisplayname c = Str s /\
                  exists n, In n names /\ occurs_ignoring_case n s) /\
     filter_by_artists images_df constituents_path objects_constituents_path
                       (Some names) = Some (Normal filtered) /\
     (forall r,
        In r filtered <->
        In r images_df /\
        exists l c,
          In l (objects_constituents.read_csv objects_constituents_path) /\
          objects_constituents.roletype l = Str "artist" /\
          objects_constituents.objectid l
          = published_images.depictstmsobjectid r /\
          In c selected /\
          constituents.constituentid c
          = objects_constituents.constituentid l))
  /\
  (infer_dtype (map (@constituents.preferreddisplayname cell)
                    (constituents.read_csv constituents_path)) = float64 ->
   exists e,
     starts_with "AttributeError" e = true /\
     selected_constituents (constituents.read_csv constituents_path) names
     = Some (Raise e) /\
     filter_by_artists images_df constituents_path objects_constituents_path
                       (Some names) = Some (Raise e)).
Proof.
  intros Hne Hp.
  pose proof (compile_plain names Hne Hp) as Hc.
  unfold filter_by_artists, selected_constituents, str_accessor.
  destruct names as [|n0 names0] eqn:En; [contradiction|]. rewrite <- En in *.
  assert (Ht : truthy (Some names) = true) by now rewrite En.
  rewrite Ht. simpl items. rewrite Hc. split.
  - intros ->.
    eexists. eexists. split; [reflexivity|]. split; [|split; [reflexivity|]].
    + intro c. rewrite filter_In. unfold str_contains.
      destruct (constituents.preferreddisplayname c) as [|s]; simpl.
      * split; [intros [_ H]; discriminate|].
        intros [_ (s & H & _)]. discriminate.
      * rewrite search_literals. split.
        -- intros [Hin H]. split; [assumption|]. now exists s.
        -- intros [Hin (s' & [= <-] & H)]. now split.
    + intro r. rewrite filter_In, isin_key_unique, isin_key_In, in_map_iff.
      split.
      * intros [Hr (l & Hl & Hin)]. split; [assumption|].
        apply filter_In in Hin. destruct Hin as [Hin Hcond].
        apply andb_true_iff in Hcond. destruct Hcond as [Hid Hrole].
        apply isin_key_In, in_map_iff in Hid.
        destruct Hid as (c & Hcid & Hc').
        exists l, c. repeat split; try assumption. now apply cell_is_eq.
      * intros [Hr (l & c & Hl & Hrole & Hobj & Hc' & Hcid)].
        split; [assumption|]. exists l. split; [assumption|].
        apply filter_In. split; [assumption|]. apply andb_true_iff. split.
        -- apply isin_key_In, in_map_iff. now exists c.
        -- now apply cell_is_eq.
  - intros ->. eexists. split; [|split; reflexivity]. reflexivity.
Qed.

(** ** Examples *)

Lemma in_order_is_a_run a world st :
  modelled a = true ->
  download_dataset a world st (fst (download_dataset_in_order a world st))
                   (snd (download_dataset_in_order a world st)).
Proof.
  intro Hm. unfold download_dataset_in_order. rewrite Hm. cbn [negb].
  destruct (candidates a) as [e|data] eqn:Hc; simpl.
  - now constructor.
  - destruct (max_threads a <=? 0) eqn:Hmax; simpl.
    + apply Z.leb_le in Hmax.
      now apply download_no_pool with (data := data).
    + apply Z.leb_gt in Hmax. apply download_runs with (data := data);
        [assumption | assumption | assumption | apply interleaving_in_order].
Qed.

Lemma example_run_is_a_run :
  download_dataset example_arguments example_world example_folder
                   (fst example_run) (snd example_run).
Proof.
  exact (in_order_is_a_run example_arguments example_world example_folder
                           eq_refl).
Qed.

Lemma description_rows_match_successes_example :
  download_dataset example_arguments example_world example_folder
                   (fst example_run) (snd example_run) /\
  candidates example_arguments = inr example_rows /\
  0 < max_threads example_arguments /\
  map (fun row => csv_row (description_data_of row))
      (successes example_world example_rows)
  = [["u1"; "u1.jpg"; "Claude Monet"; "Water Lilies"; "c. 1906"; "Painting";
      "oil on canvas"];
     ["u2"; "u2.jpg"; EmptyString; "Sketch"; EmptyString; "Painting";
      EmptyString]] /\
  Permutation (description_rows (fst example_run))
              (map (fun row => csv_row (description_data_of row))
                   (successes example_world example_rows)).
Proof.
  assert (Hc : candidates example_arguments = inr example_rows).
  { vm_compute. reflexivity. }
  assert (Hm : 0 < max_threads example_arguments) by (simpl; lia).
  split; [exact example_run_is_a_run|].
  split; [exact Hc|]. split; [exact Hm|].
  split; [vm_compute; reflexivity|].
  exact (proj1 (proj2 (description_rows_match_successes
                         example_arguments example_world example_folder
                         (fst example_run) (snd example_run)
                         example_run_is_a_run))
               example_rows Hc Hm).
Defined.

Lemma candidates_have_source_url_example :
  candidates example_arguments = inr example_rows /\
  Forall (fun row =>
            exists l s,
              In l (images_path example_arguments) /\
              image_of row = published_images.read_line l /\
              published_images.iiifurl l = Some s /\
              s <> EmptyString /\
              published_images.iiifurl (image_of row) = Str s)
         example_rows.
Proof.
  split.
  - vm_compute. reflexivity.
  - apply (candidates_have_source_url example_arguments example_rows).
    vm_compute. reflexivity.
Defined.

Lemma lookup_app (k : string) (l1 l2 : list (string * cell)) :
  lookup k (l1 ++ l2)
  = match lookup k l1 with
    | Some v => Some v
    | None => lookup k l2
    end.
Proof.
  induction l1 as [|[k' v] l1 IH]; simpl; [reflexivity|].
  now destruct (String.eqb k k').
Qed.

(** A row of [data] whose object has no entry in the grouped artists
    comes out of the join with the column artist set to NaN, and
    [row.get('artist', 'Unknown')] is that NaN. *)
Lemma unmatched_artist_is_NaN (data : list series)
    (grouped : list (key * string)) (row : series) :
  In row data ->
  lookup "artist" (merged row) = None ->
  (forall g, In g grouped ->
             fst g <> published_images.depictstmsobjectid (image_of row)) ->
  exists row',
    In row' (merge_artists data grouped) /\
    image_of row' = image_of row /\
    get row' "artist" (Str "Unknown") = NaN.
Proof.
  intros Hin Hcol Hno.
  exists (add_columns row [("artist", NaN)]). split; [|split].
  - unfold merge_artists, merge_left. apply in_flat_map. exists row.
    split; [assumption|].
    assert (E : filter (fun r => key_eqb (published_images.depictstmsobjectid
                                            (image_of row)) (fst r)) grouped
                = []).
    { apply filter_none. apply Forall_forall. intros g Hg.
      destruct (key_eqb _ (fst g)) eqn:Ek; [|reflexivity].
      apply key_eqb_eq in Ek. exfalso. apply (Hno g Hg). now symmetry. }
    rewrite E. now left.
  - reflexivity.
  - unfold get, add_columns. simpl. now rewrite lookup_app, Hcol.
Qed.

(** C3, at an input where it fails.  With all four tables given, all of
    them read as text, the image u2 of an object without artist link,
    display date and medium, downloaded with status 200, gets a
    description row in which these three fields are empty: the merged
    columns are there and hold NaN, so [row.get] does not fall back on
    "Unknown". *)
Theorem unset_fields_are_written_empty :
  modelled example_arguments = true /\
  nth_error example_rows 1
  = Some (mk_series
            (published_images.mk (Str "u2") (Str "http://a/2") (Some 2))
            [("title", Str "Sketch"); ("displaydate", NaN);
             ("classification", Str "Painting"); ("medium", NaN);
             ("artist", NaN)]) /\
  downloaded (example_world 1)
             (mk_series
                (published_images.mk (Str "u2") (Str "http://a/2") (Some 2))
                [("title", Str "Sketch"); ("displaydate", NaN);
                 ("classification", Str "Painting"); ("medium", NaN);
                 ("artist", NaN)]) = true /\
  nth_error
    (description_rows
       (fst (download_dataset_in_order example_arguments example_world
                                       example_folder))) 1
  = Some ["u2"; "u2.jpg"; EmptyString; "Sketch"; EmptyString; "Painting";
          EmptyString].
Proof. repeat split; vm_compute; reflexivity. Qed.

(** C4 as stated fails: a request that gets status 200 and breaks while
    the body is read ends as an ERROR line, and the chunks read so far
    are at the destination, in place of what was there. *)
Lemma broken_download_leaves_partial_file :
  downloaded (files_succeed broken_request) first_row = false /\
  logged (fst (download_image (files_succeed broken_request) first_row))
  = ["ERROR: u1.jpg | URL: http://a/1/full/full/360/default.jpg | Exception: Read timed out"] /\
  files (run (fst (download_image (files_succeed broken_request) first_row))
             (mk_store [] None []))
  = [("NGA_Dataset/u1.jpg", [Byte.x01; Byte.x02])] /\
  files (run (fst (download_image (files_succeed broken_request) first_row))
             (mk_store [] None
                       [("NGA_Dataset/u1.jpg",
                         [Byte.x07; Byte.x08; Byte.x09])]))
  = [("NGA_Dataset/u1.jpg", [Byte.x01; Byte.x02])].
Proof. repeat split; vm_compute; reflexivity. Qed.

Lemma refused_download_touches_no_file_example :
  refused (requests_get (files_succeed missing_request) (image_url first_row))
  /\
  fst (download_image (files_succeed missing_request) first_row)
  = [Log "FAILURE (HTTP 404): u1.jpg | URL: http://a/1/full/full/360/default.jpg"]
  /\
  files (run (fst (download_image (files_succeed missing_request) first_row))
             example_folder)
  = files example_folder /\
  logged (fst (download_image (files_succeed broken_request) first_row))
  = ["ERROR: u1.jpg | URL: http://a/1/full/full/360/default.jpg | Exception: Read timed out"]
  /\
  read_file "NGA_Dataset/u1.jpg"
    (files (run (fst (download_image (files_succeed broken_request) first_row))
                example_folder))
  = Some [Byte.x01; Byte.x02].
Proof.
  assert (Hr : refused (requests_get (files_succeed missing_request)
                                     (image_url first_row))).
  { simpl. lia. }
  split; [exact Hr|].
  destruct (refused_download_touches_no_file
              (files_succeed missing_request) first_row) as (H1 & _ & _).
  destruct (H1 Hr) as [Hlog Hfiles].
  split; [exact Hlog|]. split; [exact (Hfiles example_folder)|].
  destruct (refused_download_touches_no_file
              (files_succeed broken_request) first_row) as (_ & _ & H3).
  destruct (H3 (mk_response 200 [[Byte.x01; Byte.x02]] (Some "Read timed out"))
               "Read timed out" eq_refl eq_refl eq_refl eq_refl eq_refl
               eq_refl) as (Hl & _ & Hf).
  split; [exact Hl|]. exact (proj1 (Hf example_folder)).
Defined.

(** C5 as stated fails: the name "M.net" selects Claude Monet, in whose
    name it does not occur. *)
Lemma wildcard_name_selects_without_occurring :
  selected_constituents (constituents.read_csv example_constituents) ["M.net"]
  = Some (Normal [constituents.mk (Some 10) (Str "Claude Monet")]) /\
  (occurs_ignoring_case "M.net" "Claude Monet" -> False).
Proof.
  split.
  - vm_compute. reflexivity.
  - intro H. apply search_branch_literal in H. vm_compute in H.
    discriminate H.
Qed.

Lemma artist_filter_matches_plain_names_example :
  ["Monet"] <> [] /\
  Forall plain ["Monet"] /\
  (exists selected filtered,
     selected_constituents (constituents.read_csv example_constituents)
                           ["Monet"] = Some (Normal selected) /\
     selected = [constituents.mk (Some 10) (Str "Claude Monet")] /\
     (forall c,
        In c selected <->
        In c (constituents.read_csv example_constituents) /\
        exists s, constituents.preferreddisplayname c = Str s /\
                  exists n, In n ["Monet"] /\ occurs_ignoring_case n s) /\
     filter_by_artists
       (dropna_iiifurl (published_images.read_csv example_images))
       example_constituents example_links (Some ["Monet"])
     = Some (Normal filtered) /\
     filtered = [published_images.mk (Str "u1") (Str "http://a/1") (Some 1)])
  /\
  (exists e,
     starts_with "AttributeError" e = true /\
     filter_by_artists
       (dropna_iiifurl (published_images.read_csv example_images))
       unnamed_constituents example_links (Some ["Monet"])
     = Some (Raise e)).
Proof.
  assert (Hne : ["Monet"] <> []) by discriminate.
  assert (Hp : Forall plain ["Monet"]).
  { repeat constructor. }
  split; [exact Hne|]. split; [exact Hp|]. split.
  - destruct (artist_filter_matches_plain_names
                (dropna_iiifurl (published_images.read_csv example_images))
                example_constituents example_links ["Monet"] Hne Hp)
      as (Hobject & _).
    destruct (Hobject eq_refl) as (selected & filtered & Hs & Hsel & Hf & _).
    exists selected, filtered.
    split; [exact Hs|]. split.
    { vm_compute in Hs. now injection Hs as <-. }
    split; [exact Hsel|]. split; [exact Hf|].
    vm_compute in Hf. now injection Hf as <-.
  - destruct (artist_filter_matches_plain_names
                (dropna_iiifurl (published_images.read_csv example_images))
                unnamed_constituents example_links ["Monet"] Hne Hp)
      as (_ & Hfloat).
    destruct (Hfloat eq_refl) as (e & He & _ & Hf).
    exists e. split; [exact He | exact Hf].
Defined.

(** C6 as stated fails: with an empty list of allowed classifications,
    the exclusion of "Drawing" removes the image u9, whose object is not
    in the table of objects and so has no excluded subclassification. *)
Lemma exclusion_removes_images_without_object :
  modelled orphan_arguments = true /\
  allowed_classifications orphan_arguments = Some [] /\
  candidate_rows (with_excluded orphan_arguments None)
  = [mk_series
       (published_images.mk (Str "u1") (Str "http://a/1") (Some 1))
       [("title", Str "Water Lilies"); ("displaydate", Str "c. 1906");
        ("classification", Str "Painting");
        ("medium", Str "oil on canvas")];
     orphan_row] /\
  candidate_rows (with_excluded orphan_arguments (Some ["Drawing"]))
  = [mk_series
       (published_images.mk (Str "u1") (Str "http://a/1") (Some 1))
       [("title", Str "Water Lilies"); ("displaydate", Str "c. 1906");
        ("classification", Str "Painting");
        ("medium", Str "oil on canvas")]] /\
  filter (fun o => key_eqb (published_images.depictstmsobjectid
                              (image_of orphan_row))
                           (objects.objectid o))
         (objects.read_csv example_objects) = [].
Proof. repeat split; vm_compute; reflexivity. Qed.

Lemma exclusion_removes_excluded_subclassifications_example :
  modelled painting_arguments = true /\
  objects_path painting_arguments = Some example_objects /\
  ["Drawing"] <> [] /\
  length (candidate_rows (with_excluded painting_arguments None)) = 2%nat /\
  candidate_rows (with_excluded painting_arguments (Some ["Drawing"]))
  = [mk_series
       (published_images.mk (Str "u1") (Str "http://a/1") (Some 1))
       [("title", Str "Water Lilies"); ("displaydate", Str "c. 1906");
        ("classification", Str "Painting");
        ("medium", Str "oil on canvas")]] /\
  candidate_rows (with_excluded painting_arguments (Some ["Drawing"]))
  = filter (fun row =>
              shows_kept_object example_objects
                (allowed_classifications painting_arguments)
                (Some ["Drawing"]) (image_of row))
           (candidate_rows (with_excluded painting_arguments None)).
Proof.
  assert (Hex : ["Drawing"] <> []) by discriminate.
  split; [reflexivity|]. split; [reflexivity|]. split; [exact Hex|].
  split; [vm_compute; reflexivity|].
  split; [vm_compute; reflexivity|].
  exact (proj1 (exclusion_removes_excluded_subclassifications
                  painting_arguments example_objects ["Drawing"]
                  eq_refl eq_refl Hex)).
Defined.

Lemma item_failures_are_contained_example :
  download_dataset example_arguments example_world example_folder
                   (fst example_run) (snd example_run) /\
  candidates example_arguments = inr example_rows /\
  0 < max_threads example_arguments /\
  snd example_run = Complete /\
  exists new,
    log_file (fst example_run)
    = (log_file example_folder ++ logged (session_start example_arguments)
       ++ new)%list /\
    Permutation new (outcomes example_world example_rows) /\
    length new = length example_rows /\
    Forall (fun m => is_outcome m = true) new.
Proof.
  assert (Hc : candidates example_arguments = inr example_rows).
  { vm_compute. reflexivity. }
  assert (Hm : 0 < max_threads example_arguments) by (simpl; lia).
  split; [exact example_run_is_a_run|].
  split; [exact Hc|]. split; [exact Hm|].
  exact (proj2 (item_failures_are_contained
                  example_arguments example_world example_folder
                  (fst example_run) (snd example_run) example_rows
                  example_run_is_a_run Hc Hm)).
Defined.

Lemma rerun_regenerates_description_and_extends_log_example :
  download_dataset example_arguments example_world example_folder
                   (fst example_run) (snd example_run) /\
  download_dataset example_arguments second_world (fst example_run)
                   (fst example_rerun) (snd example_rerun) /\
  description_rows (fst example_rerun)
  = [["u1"; "u1.jpg"; "Claude Monet"; "Water Lilies"; "c. 1906"; "Painting";
      "oil on canvas"]] /\
  exists lines1 lines2,
    log_file (fst example_run) = (log_file example_folder ++ lines1)%list /\
    log_file (fst example_rerun)
    = (log_file example_folder ++ lines1 ++ lines2)%list /\
    length (description_rows (fst example_rerun))
    = length (filter is_success lines2) /\
    forall old,
      download_dataset example_arguments second_world
        (mk_store (log_file (fst example_run)) old (files (fst example_run)))
        (fst example_rerun) (snd example_rerun).
Proof.
  split; [exact example_run_is_a_run|].
  split.
  { exact (in_order_is_a_run example_arguments second_world
                             (fst example_run) eq_refl). }
  split; [vm_compute; reflexivity|].
  exact (rerun_regenerates_description_and_extends_log
           example_arguments example_world second_world
           example_folder (fst example_run) (fst example_rerun)
           (snd example_run) (snd example_rerun)
           example_run_is_a_run
           (in_order_is_a_run example_arguments second_world
                              (fst example_run) eq_refl)).
Defined.

Lemma empty_selection_leaves_log_and_no_description_example :
  download_dataset unmatched_arguments example_world example_folder
                   (fst unmatched_run) (snd unmatched_run) /\
  artists_requested unmatched_arguments = true /\
  after_artists unmatched_arguments = Some (Normal []) /\
  snd unmatched_run = Nothing_found /\
  log_file (fst unmatched_run) = log_file example_folder /\
  description_file (fst unmatched_run) = None /\
  files (fst unmatched_run) = files example_folder.
Proof.
  assert (H1 : artists_requested unmatched_arguments = true)
    by (vm_compute; reflexivity).
  assert (H2 : after_artists unmatched_arguments = Some (Normal []))
    by (vm_compute; reflexivity).
  split.
  { exact (in_order_is_a_run unmatched_arguments example_world
                             example_folder eq_refl). }
  split; [exact H1|]. split; [exact H2|].
  exact (empty_selection_leaves_log_and_no_description
           unmatched_arguments example_world example_folder
           (fst unmatched_run) (snd unmatched_run)
           (in_order_is_a_run unmatched_arguments example_world
                              example_folder eq_refl)
           (or_intror (conj H1 H2))).
Defined.

(** * Further properties *)

(** ** The joins of the enrichment *)

Lemma unique_NoDup (l : list key) : NoDup (unique l).
Proof.
  induction l as [|k l IH]; simpl; constructor.
  - rewrite filter_In. intros [_ H]. rewrite negb_true_iff in H.
    assert (E : key_eqb k k = true) by now apply key_eqb_eq.
    congruence.
  - now apply NoDup_filter.
Qed.

Lemma filter_unique_key {R : Type} (f : R -> key) (k : key) (l : list R) :
  NoDup (map f l) ->
  (length (filter (fun r => key_eqb k (f r)) l) <= 1)%nat.
Proof.
  induction l as [|x l IH]; simpl; intro Hnd; [lia|].
  inversion Hnd as [|? ? Hnotin Hnd']; subst.
  destruct (key_eqb k (f x)) eqn:E; [|now apply IH].
  apply key_eqb_eq in E. subst k. simpl.
  rewrite (filter_none (fun r => key_eqb (f x) (f r)) l); [simpl; lia|].
  apply Forall_forall. intros y Hy.
  destruct (key_eqb (f x) (f y)) eqn:E; [|reflexivity].
  apply key_eqb_eq in E. exfalso. apply Hnotin. rewrite E. now apply in_map.
Qed.

(** A left join gives at least one row for each row of [data], in the
    order of [data]; it gives exactly one when the keys of the right
    table are unique. *)
Lemma merge_left_covers {R : Type} (data : list series) (right : list R)
    (right_on : R -> key) (columns : R -> list (string * cell))
    (labels : list string) (row : series) :
  In row data ->
  exists row', In row' (merge_left data right right_on columns labels) /\
               image_of row' = image_of row.
Proof.
  intro Hin. unfold merge_left.
  destruct (filter (fun r => key_eqb (published_images.depictstmsobjectid
                                        (image_of row)) (right_on r)) right)
    as [|m ms] eqn:E.
  - exists (add_columns row (map (fun l => (l, NaN)) labels)).
    split; [|reflexivity]. apply in_flat_map. exists row.
    split; [assumption|]. rewrite E. now left.
  - exists (add_columns row (columns m)).
    split; [|reflexivity]. apply in_flat_map. exists row.
    split; [assumption|]. rewrite E. now left.
Qed.

Lemma merge_left_unique {R : Type} (data : list series) (right : list R)
    (right_on : R -> key) (columns : R -> list (string * cell))
    (labels : list string) :
  NoDup (map right_on right) ->
  map image_of (merge_left data right right_on columns labels)
  = map image_of data.
Proof.
  intro Hnd. unfold merge_left.
  induction data as [|row data IH]; [reflexivity|].
  cbn [flat_map]. rewrite map_app, IH. cbn [map].
  change (image_of row :: map image_of data)
    with ([image_of row] ++ map image_of data)%list.
  f_equal.
  pose proof (filter_unique_key right_on
                (published_images.depictstmsobjectid (image_of row))
                right Hnd) as Hlen.
  destruct (filter _ right) as [|m [|m' ms]]; simpl in *;
    [reflexivity | reflexivity | lia].
Qed.

Lemma collect_Normal {A : Type} (l : list (result A)) (r : list A) :
  collect l = Normal r -> l = map Normal r.
Proof.
  revert r. induction l as [|[a|e] l IH]; simpl; intro r.
  - now intros [= <-].
  - destruct (collect l) as [r'|e]; [|discriminate].
    intros [= <-]. simpl. now rewrite (IH r').
  - discriminate.
Qed.

Lemma tagged_keys {K V : Type} (F : K -> result V) (keys : list K)
    (grouped : list (K * V)) :
  map (fun k => match F k with
                | Normal v => Normal (k, v)
                | Raise e => Raise e
                end) keys
  = map Normal grouped ->
  map fst grouped = keys /\
  Forall (fun g => F (fst g) = Normal (snd g)) grouped.
Proof.
  revert grouped. induction keys as [|k keys IH];
    intros [|g grouped] H; simpl in *; try discriminate.
  - split; [reflexivity | constructor].
  - injection H as Hk H. destruct (IH grouped H) as [IH1 IH2].
    destruct (F k) as [v|e] eqn:E; [|discriminate].
    injection Hk as <-. simpl. split; [now rewrite IH1|].
    constructor; [exact E | exact IH2].
Qed.

Lemma artists_grouped_keys (artists : list (key * cell))
    (grouped : list (key * string)) :
  artists_grouped artists = Normal grouped ->
  map fst grouped
  = filter (fun k => match k with Some _ => true | None => false end)
           (unique (map fst artists)).
Proof.
  unfold artists_grouped. intro H. apply collect_Normal in H.
  now apply tagged_keys in H.
Qed.

Lemma artists_grouped_NoDup (artists : list (key * cell))
    (grouped : list (key * string)) :
  artists_grouped artists = Normal grouped -> NoDup (map fst grouped).
Proof.
  intro H. rewrite (artists_grouped_keys _ _ H).
  apply NoDup_filter, unique_NoDup.
Qed.

Lemma enrich_covers (a : arguments) (data : list image) (rows : list series) :
  enrich a data = Normal rows ->
  forall r, In r data -> exists row, In row rows /\ image_of row = r.
Proof.
  unfold enrich.
  set (start := map (fun r => mk_series r []) data).
  set (withobj := match objects_path a with
                  | Some op => merge_objects start (objects.read_csv op)
                  | None => start
                  end).
  assert (Hcover : forall r, In r data ->
            exists row, In row withobj /\ image_of row = r).
  { intros r Hr.
    assert (Hs : In (mk_series r []) start)
      by exact (in_map (fun r => mk_series r []) data r Hr).
    unfold withobj. destruct (objects_path a) as [op|].
    - destruct (merge_left_covers start (objects.read_csv op)
                  (@objects.objectid cell)
                  (fun o => [("title", objects.title o);
                             ("displaydate", objects.displaydate o);
                             ("classification", objects.classification o);
                             ("medium", objects.medium o)])
                  ["title"; "displaydate"; "classification"; "medium"]
                  _ Hs) as (row & Hrow & Himg).
      exists row. now split.
    - now exists (mk_series r []). }
  destruct (constituents_path a) as [cp|];
    [destruct (objects_constituents_path a) as [ocp|]|];
    try (intros [= <-]; exact Hcover).
  destruct (artists_grouped _) as [grouped|] eqn:Eg; [|discriminate].
  intros [= <-] r Hr. destruct (Hcover r Hr) as (row & Hrow & Himg).
  destruct (merge_left_covers withobj grouped fst
              (fun g => [("artist", Str (snd g))]) ["artist"] _ Hrow)
    as (row' & Hrow' & Himg').
  exists row'. split; [assumption | congruence].
Qed.

(** X1.  The enrichment loses no image: every image handed to it is the
    image of a row it returns.  When the object ids of objects.csv are
    unique it returns exactly one row for each image, in the same order;
    the join with the artists never multiplies rows. *)
Theorem enrichment_keeps_each_image_once
    (a : arguments) (data : list image) (rows : list series) :
  enrich a data = Normal rows ->
  (forall r, In r data -> exists row, In row rows /\ image_of row = r) /\
  ((forall op, objects_path a = Some op ->
               NoDup (map (@objects.objectid cell) (objects.read_csv op))) ->
   map image_of rows = data).
Proof.
  intro He. split; [exact (enrich_covers a data rows He)|].
  revert He. unfold enrich.
  set (start := map (fun r => mk_series r []) data).
  assert (Hstart : map image_of start = data).
  { unfold start. rewrite map_map. simpl. apply map_id. }
  set (withobj := match objects_path a with
                  | Some op => merge_objects start (objects.read_csv op)
                  | None => start
                  end).
  assert (Hexact :
    (forall op, objects_path a = Some op ->
                NoDup (map (@objects.objectid cell) (objects.read_csv op))) ->
    map image_of withobj = data).
  { intro Hnd. unfold withobj. destruct (objects_path a) as [op|];
      [|assumption].
    unfold merge_objects. rewrite merge_left_unique; [assumption|].
    now apply Hnd. }
  destruct (constituents_path a) as [cp|];
    [destruct (objects_constituents_path a) as [ocp|]|];
    try (intros [= <-]; exact Hexact).
  destruct (artists_grouped _) as [grouped|] eqn:Eg; [|discriminate].
  intros [= <-] Hnd. unfold merge_artists.
  rewrite merge_left_unique; [now apply Hexact|].
  exact (artists_grouped_NoDup _ _ Eg).
Qed.

Lemma strings_of_NaN (x : list cell) : In NaN x -> strings_of x = None.
Proof.
  induction x as [|[|s] x IH]; simpl; intro H.
  - contradiction.
  - reflexivity.
  - destruct H as [H|H]; [discriminate|]. now rewrite IH.
Qed.

Lemma collect_Raise {A : Type} (l : list (result A)) (e0 : string) :
  In (Raise e0) l ->
  exists e, In (Raise e) l /\ collect l = Raise e.
Proof.
  induction l as [|[a|e] l IH]; simpl; intro Hin.
  - contradiction.
  - destruct Hin as [Hin|Hin]; [discriminate|].
    destruct (IH Hin) as (e & He & ->). exists e. split; [now right|reflexivity].
  - exists e. split; [now left | reflexivity].
Qed.

Lemma join_names_raises (x : list cell) (e : string) :
  join_names x = Raise e -> starts_with "TypeError" e = true.
Proof.
  unfold join_names. destruct (strings_of x); [discriminate|].
  now intros [= <-].
Qed.

Lemma artists_table_In (constituents : list (constituents.row cell))
    (links : list (objects_constituents.row cell)) (k : key) (name : cell) :
  In (k, name) (artists_table constituents links) <->
  exists l c,
    In l links /\ objects_constituents.roletype l = Str "artist" /\
    objects_constituents.objectid l = k /\
    In c constituents /\
    constituents.constituentid c = objects_constituents.constituentid l /\
    constituents.preferreddisplayname c = name.
Proof.
  unfold artists_table. rewrite in_flat_map. split.
  - intros (l & Hl & Hin). apply filter_In in Hl. destruct Hl as [Hl Hrole].
    apply in_map_iff in Hin. destruct Hin as (c & Hc & Hin).
    apply filter_In in Hin. destruct Hin as [Hin Hid].
    injection Hc as <- <-. exists l, c. apply key_eqb_eq in Hid.
    repeat split; try assumption; try now symmetry.
    now apply cell_is_eq.
  - intros (l & c & Hl & Hrole & <- & Hc & Hid & <-). exists l. split.
    + apply filter_In. split; [assumption | now apply cell_is_eq].
    + apply in_map_iff. exists c. split; [reflexivity|].
      apply filter_In. split; [assumption|]. apply key_eqb_eq. now symmetry.
Qed.

(** The joined names of an object that has an artist without a name. *)
Lemma artists_grouped_nameless (artists : list (key * cell)) (z : Z) :
  In (Some z, NaN) artists ->
  exists e,
    artists_grouped artists = Raise e /\ starts_with "TypeError" e = true.
Proof.
  intro Hin. unfold artists_grouped.
  set (joined := map _ _).
  assert (Hraise : exists e0, In (Raise e0) joined).
  { unfold joined. unfold join_names.
    eexists. apply in_map_iff. exists (Some z). split.
    - rewrite strings_of_NaN; [reflexivity|].
      apply in_map_iff. exists (Some z, NaN). split; [reflexivity|].
      apply filter_In. split; [assumption|]. now apply key_eqb_eq.
    - apply filter_In. split; [|reflexivity].
      apply unique_In. apply in_map_iff. now exists (Some z, NaN). }
  destruct Hraise as (e0 & He0).
  destruct (collect_Raise joined e0 He0) as (e & He & ->).
  exists e. split; [reflexivity|].
  unfold joined in He. apply in_map_iff in He. destruct He as (k & Hk & _).
  destruct (join_names _) as [names|e'] eqn:Ej; [discriminate|].
  injection Hk as <-. exact (join_names_raises _ _ Ej).
Qed.

Lemma candidates_never_complete (a : arguments) :
  candidates a <> inl Complete.
Proof.
  unfold candidates.
  destruct (_ && _); [discriminate|].
  destruct (after_artists a) as [[data|]|]; try discriminate.
  destruct (_ && _); [discriminate|].
  destruct (enrich a data); discriminate.
Qed.

Lemma download_dataset_stopped a world st st' e e0 :
  candidates a = inl e0 ->
  download_dataset a world st st' e ->
  e = e0 /\ log_file st' = log_file st /\ description_file st' = None /\
  files st' = files st.
Proof.
  intros Hc H. apply download_dataset_actions in H.
  destruct H as (l & -> & _ & _ & Hstop).
  destruct (Hstop _ Hc) as [-> ->]. now simpl.
Qed.

(** X2.  When both artist tables are given and some link of role
    "artist" with an object id points at a constituent whose display
    name is missing, joining the names raises TypeError for whatever
    images are left, also when none of them shows that object: no call
    completes, and each one leaves the log and the images as they were
    and no description file. *)
Theorem nameless_artist_fails_the_run
    (a : arguments) (cp : constituents_csv) (ocp : objects_constituents_csv)
    (l : objects_constituents.row cell) (c : constituents.row cell) (z : Z) :
  constituents_path a = Some cp ->
  objects_constituents_path a = Some ocp ->
  In l (objects_constituents.read_csv ocp) ->
  objects_constituents.roletype l = Str "artist" ->
  objects_constituents.objectid l = Some z ->
  In c (constituents.read_csv cp) ->
  constituents.constituentid c = objects_constituents.constituentid l ->
  constituents.preferreddisplayname c = NaN ->
  (forall data,
     exists e, enrich a data = Raise e /\ starts_with "TypeError" e = true)
  /\
  (forall world st st' e,
     download_dataset a world st st' e ->
     e <> Complete /\ log_file st' = log_file st /\
     description_file st' = None /\ files st' = files st).
Proof.
  intros Hcp Hocp Hl Hrole Hobj Hc Hid Hname.
  assert (Henrich : forall data,
    exists e, enrich a data = Raise e /\ starts_with "TypeError" e = true).
  { intro data. unfold enrich. rewrite Hcp, Hocp.
    destruct (artists_grouped_nameless
                (artists_table (constituents.read_csv cp)
                               (objects_constituents.read_csv ocp)) z)
      as (e & -> & He).
    - apply artists_table_In. exists l, c. now repeat split.
    - now exists e. }
  split; [exact Henrich|].
  intros world st st' e H.
  destruct (candidates a) as [e0|rows] eqn:Ec.
  - destruct (download_dataset_stopped _ _ _ _ _ _ Ec H) as (-> & H1 & H2 & H3).
    repeat split; try assumption.
    intros ->. exact (candidates_never_complete a Ec).
  - exfalso. unfold candidates in Ec.
    destruct (_ && _); [discriminate|].
    destruct (after_artists a) as [[data|]|]; try discriminate.
    destruct (_ && _); [discriminate|].
    destruct (Henrich data) as (e1 & He1 & _). rewrite He1 in Ec.
    discriminate.
Qed.

(** ** The fields of a description *)

Lemma merge_left_In {R : Type} (data : list series) (right : list R)
    (right_on : R -> key) (columns : R -> list (string * cell))
    (labels : list string) (row : series) :
  In row (merge_left data right right_on columns labels) ->
  exists row0,
    In row0 data /\
    ((forall r, In r right ->
                right_on r
                <> published_images.depictstmsobjectid (image_of row0)) /\
     row = add_columns row0 (map (fun l => (l, NaN)) labels)
     \/
     exists r, In r right /\
               right_on r
               = published_images.depictstmsobjectid (image_of row0) /\
               row = add_columns row0 (columns r)).
Proof.
  unfold merge_left. rewrite in_flat_map.
  intros (row0 & H0 & H). exists row0. split; [assumption|].
  destruct (filter _ right) as [|m ms] eqn:E.
  - left. destruct H as [<-|[]]. split; [|reflexivity].
    intros r Hr Heq.
    assert (Hin : In r (filter
                          (fun r => key_eqb (published_images.depictstmsobjectid
                                               (image_of row0)) (right_on r))
                          right)).
    { apply filter_In. split; [assumption|]. apply key_eqb_eq. now symmetry. }
    rewrite E in Hin. contradiction.
  - right. apply in_map_iff in H. destruct H as (r & <- & Hr).
    rewrite <- E in Hr. apply filter_In in Hr. destruct Hr as [Hr Hk].
    apply key_eqb_eq in Hk. exists r. now repeat split.
Qed.

Lemma enrich_with_objects (a : arguments) (data : list image) :
  enrich a data
  = match constituents_path a, objects_constituents_path a with
    | Some cp, Some ocp =>
        match artists_grouped
                (artists_table (constituents.read_csv cp)
                               (objects_constituents.read_csv ocp)) with
        | Normal grouped => Normal (merge_artists (with_objects a data) grouped)
        | Raise e => Raise e
        end
    | _, _ => Normal (with_objects a data)
    end.
Proof. reflexivity. Qed.

Lemma with_objects_rows (a : arguments) (data : list image) (row0 : series) :
  In row0 (with_objects a data) ->
  In (image_of row0) data /\
  match objects_path a with
  | None => merged row0 = []
  | Some op =>
      (forall o, In o (objects.read_csv op) ->
                 objects.objectid o
                 <> published_images.depictstmsobjectid (image_of row0)) /\
      merged row0 = [("title", NaN); ("displaydate", NaN);
                     ("classification", NaN); ("medium", NaN)]
      \/
      exists o, In o (objects.read_csv op) /\
                objects.objectid o
                = published_images.depictstmsobjectid (image_of row0) /\
                merged row0 = object_columns o
  end.
Proof.
  unfold with_objects. destruct (objects_path a) as [op|].
  - intro H. apply merge_left_In in H.
    destruct H as (r0 & Hr0 & H). apply in_map_iff in Hr0.
    destruct Hr0 as (r & <- & Hr).
    destruct H as [[Hno ->]|(o & Ho & Hk & ->)]; simpl.
    + split; [assumption|]. left. now split.
    + split; [assumption|]. right. exists o. now repeat split.
  - intro H. apply in_map_iff in H. destruct H as (r & <- & Hr). now split.
Qed.

(** The rows of the enrichment: a row of [with_objects], with the
    column artist added when the artist tables are given. *)
Lemma enrich_rows (a : arguments) (data : list image) (rows : list series)
    (row : series) :
  enrich a data = Normal rows ->
  In row rows ->
  exists row0,
    In row0 (with_objects a data) /\
    image_of row = image_of row0 /\
    match constituents_path a, objects_constituents_path a with
    | Some cp, Some ocp =>
        exists grouped,
          artists_grouped (artists_table (constituents.read_csv cp)
                             (objects_constituents.read_csv ocp))
          = Normal grouped /\
          ((forall g, In g grouped ->
                      fst g
                      <> published_images.depictstmsobjectid (image_of row0))
           /\ merged row = (merged row0 ++ [("artist", NaN)])%list
           \/
           exists g, In g grouped /\
                     fst g
                     = published_images.depictstmsobjectid (image_of row0) /\
                     merged row = (merged row0 ++ [("artist", Str (snd g))])%list)
    | _, _ => merged row = merged row0
    end.
Proof.
  rewrite enrich_with_objects.
  destruct (constituents_path a) as [cp|];
    [destruct (objects_constituents_path a) as [ocp|]|];
    try (intros [= <-] Hrow; exists row; now repeat split).
  destruct (artists_grouped _) as [grouped|] eqn:Eg; [|discriminate].
  intros [= <-] Hrow. apply merge_left_In in Hrow.
  destruct Hrow as (row0 & Hrow0 & H). exists row0.
  split; [assumption|].
  destruct H as [[Hno ->]|(g & Hg & Hk & ->)]; simpl.
  - split; [reflexivity|]. exists grouped. split; [reflexivity|]. left.
    now split.
  - split; [reflexivity|]. exists grouped. split; [reflexivity|]. right.
    exists g. now repeat split.
Qed.

(** X3.  With objects.csv given, the four object fields of a row never
    fall back on a default: they are the cells of an object with the id
    of the image, NaN included, or all NaN when no object has that id. *)
Theorem object_fields_of_a_candidate
    (a : arguments) (data : list image) (rows : list series) (row : series)
    (op : objects_csv) (d1 d2 d3 d4 : cell) :
  enrich a data = Normal rows ->
  objects_path a = Some op ->
  In row rows ->
  ((forall o, In o (objects.read_csv op) ->
              objects.objectid o
              <> published_images.depictstmsobjectid (image_of row)) /\
   get row "title" d1 = NaN /\ get row "displaydate" d2 = NaN /\
   get row "classification" d3 = NaN /\ get row "medium" d4 = NaN)
  \/
  (exists o, In o (objects.read_csv op) /\
             objects.objectid o
             = published_images.depictstmsobjectid (image_of row) /\
             get row "title" d1 = objects.title o /\
             get row "displaydate" d2 = objects.displaydate o /\
             get row "classification" d3 = objects.classification o /\
             get row "medium" d4 = objects.medium o).
Proof.
  intros He Hop Hrow.
  destruct (enrich_rows a data rows row He Hrow) as (row0 & Hrow0 & Himg & Hm).
  destruct (with_objects_rows a data row0 Hrow0) as [_ Hcols].
  rewrite Hop in Hcols. rewrite Himg.
  assert (Hget : forall k d,
            lookup k (merged row0) <> None ->
            get row k d = get row0 k d).
  { intros k d Hk. unfold get.
    destruct (constituents_path a) as [cp|];
      [destruct (objects_constituents_path a) as [ocp|]|];
      try (now rewrite Hm).
    destruct Hm as (grouped & _ & [[_ ->]|(g & _ & _ & ->)]);
      rewrite lookup_app; now destruct (lookup k (merged row0)). }
  destruct Hcols as [[Hno Hc]|(o & Ho & Hk & Hc)].
  - left. split; [assumption|].
    rewrite !Hget by (rewrite Hc; discriminate).
    unfold get. rewrite Hc. now repeat split.
  - right. exists o. split; [assumption|]. split; [assumption|].
    rewrite !Hget by (rewrite Hc; discriminate).
    unfold get. rewrite Hc. now repeat split.
Qed.

Lemma with_objects_no_artist (a : arguments) (data : list image)
    (row0 : series) :
  In row0 (with_objects a data) -> lookup "artist" (merged row0) = None.
Proof.
  intro H. destruct (with_objects_rows a data row0 H) as [_ Hcols].
  destruct (objects_path a) as [op|].
  - destruct Hcols as [[_ ->]|(o & _ & _ & ->)]; reflexivity.
  - now rewrite Hcols.
Qed.

(** X4.  With both artist tables given, the artist field of a row
    never falls back on a default.  It is NaN when the image has no
    object id or its object has no link of role "artist" to a
    constituent; otherwise it is the display names of those artists, in
    the order of the links, joined with ", ". *)
Theorem artist_field_of_a_candidate
    (a : arguments) (data : list image) (rows : list series) (row : series)
    (cp : constituents_csv) (ocp : objects_constituents_csv) (d : cell) :
  enrich a data = Normal rows ->
  constituents_path a = Some cp ->
  objects_constituents_path a = Some ocp ->
  In row rows ->
  (published_images.depictstmsobjectid (image_of row) = None \/
   artist_names_of cp ocp (published_images.depictstmsobjectid (image_of row))
   = []) /\ get row "artist" d = NaN
  \/
  (exists names,
     published_images.depictstmsobjectid (image_of row) <> None /\
     artist_names_of cp ocp
       (published_images.depictstmsobjectid (image_of row)) <> [] /\
     strings_of (artist_names_of cp ocp
                   (published_images.depictstmsobjectid (image_of row)))
     = Some names /\
     get row "artist" d = Str (String.concat ", " names)).
Proof.
  intros He Hcp Hocp Hrow.
  destruct (enrich_rows a data rows row He Hrow) as (row0 & Hrow0 & Himg & Hm).
  rewrite Hcp, Hocp in Hm. destruct Hm as (grouped & Hg & Hm).
  pose proof (with_objects_no_artist a data row0 Hrow0) as Hna.
  rewrite Himg.
  set (k := published_images.depictstmsobjectid (image_of row0)) in *.
  pose proof Hg as Hkeys. unfold artists_grouped in Hkeys.
  apply collect_Normal, tagged_keys in Hkeys.
  destruct Hkeys as [Hkeys Hjoin].
  assert (Hin : forall g, In g grouped ->
            fst g <> None /\ In (fst g) (map fst
              (artists_table (constituents.read_csv cp)
                             (objects_constituents.read_csv ocp)))).
  { intros g Hgin.
    assert (H : In (fst g) (map fst grouped)) by now apply in_map.
    rewrite Hkeys in H. apply filter_In in H. destruct H as [H Hsome].
    rewrite unique_In in H. split; [|assumption].
    now destruct (fst g). }
  destruct Hm as [[Hno Hmerged]|(g & Hgin & Hk & Hmerged)].
  - left. split.
    + destruct k as [z|] eqn:Ek; [|now left]. right.
      unfold artist_names_of.
      destruct (filter (fun x : key * cell => key_eqb (Some z) (fst x))
                  (artists_table (constituents.read_csv cp)
                                 (objects_constituents.read_csv ocp)))
        as [|x xs] eqn:Ef; [reflexivity|].
      exfalso.
      assert (Hx : In x (filter (fun x => key_eqb (Some z) (fst x))
                 (artists_table (constituents.read_csv cp)
                                (objects_constituents.read_csv ocp))))
        by (rewrite Ef; now left).
      apply filter_In in Hx. destruct Hx as [Hx Hkx].
      apply key_eqb_eq in Hkx.
      assert (Hkey : In (Some z) (map fst grouped)).
      { rewrite Hkeys. apply filter_In. split; [|reflexivity].
        apply unique_In. rewrite Hkx. now apply in_map. }
      apply in_map_iff in Hkey. destruct Hkey as (g & Hfst & Hgin).
      exact (Hno g Hgin Hfst).
    + unfold get. now rewrite Hmerged, lookup_app, Hna.
  - right. destruct (Hin g Hgin) as [Hsome Hart].
    rewrite Forall_forall in Hjoin. specialize (Hjoin g Hgin).
    simpl in Hjoin. unfold join_names in Hjoin. rewrite Hk in *.
    fold (artist_names_of cp ocp k) in Hjoin.
    destruct (strings_of (artist_names_of cp ocp k)) as [names|] eqn:Es;
      [|discriminate].
    injection Hjoin as Hjoin. exists names.
    split; [assumption|]. split.
    + unfold artist_names_of. apply in_map_iff in Hart.
      destruct Hart as (x & Hx & Hxin).
      intro Hnil.
      assert (Hf : In x (filter (fun x => key_eqb k (fst x))
                 (artists_table (constituents.read_csv cp)
                                (objects_constituents.read_csv ocp)))).
      { apply filter_In. split; [assumption|]. apply key_eqb_eq.
        now symmetry. }
      apply (in_map snd) in Hf. rewrite Hnil in Hf. contradiction.
    + split; [reflexivity|].
      unfold get. now rewrite Hmerged, lookup_app, Hna, <- Hjoin.
Qed.

(** X5.  The defaults apply exactly where a table is not given: without
    objects.csv the four object fields of every row are their defaults,
    and without one of the two artist tables the artist field is its
    default. *)
Theorem defaults_apply_without_tables
    (a : arguments) (data : list image) (rows : list series) (row : series)
    (d : cell) :
  enrich a data = Normal rows ->
  In row rows ->
  (objects_path a = None ->
   get row "title" d = d /\ get row "displaydate" d = d /\
   get row "classification" d = d /\ get row "medium" d = d)
  /\
  (constituents_path a = None \/ objects_constituents_path a = None ->
   get row "artist" d = d).
Proof.
  intros He Hrow.
  destruct (enrich_rows a data rows row He Hrow) as (row0 & Hrow0 & Himg & Hm).
  pose proof (with_objects_no_artist a data row0 Hrow0) as Hna.
  destruct (with_objects_rows a data row0 Hrow0) as [_ Hcols].
  split.
  - intro Hop. rewrite Hop in Hcols. unfold get.
    destruct (constituents_path a) as [cp|];
      [destruct (objects_constituents_path a) as [ocp|]|];
      try (rewrite Hm, Hcols; now repeat split).
    destruct Hm as (grouped & _ & [[_ ->]|(g & _ & _ & ->)]);
      rewrite Hcols; now repeat split.
  - intro Hnone. unfold get.
    destruct (constituents_path a) as [cp|];
      [destruct (objects_constituents_path a) as [ocp|]|].
    + destruct Hnone; discriminate.
    + now rewrite Hm, Hna.
    + now rewrite Hm, Hna.
Qed.

(** ** The image files *)

(** X6.  A task whose download goes through leaves at its destination
    the chunks the body yielded, in order, whatever the file held
    before, and changes no other file.  A task that gets status 200 but
    cannot open its destination (the uuid may name a folder that does
    not exist) touches no file and appends no description: all it does
    is to write an ERROR line with the exception. *)
Theorem destination_holds_the_chunks
    (w : World) (row : series) (r : Response) (st : Store) :
  requests_get w (image_url row) = Normal r ->
  status_code r = 200 ->
  (downloaded w row = true ->
   read_file (file_path row) (files (run (fst (download_image w row)) st))
   = Some (concat (iter_content r)) /\
   forall p, p <> file_path row ->
     read_file p (files (run (fst (download_image w row)) st))
     = read_file p (files st))
  /\
  (forall e,
     open_raises w (file_path row) = Some e ->
     fst (download_image w row)
     = [Log ("ERROR: " ++ file_name row ++ " | URL: " ++ image_url row
             ++ " | Exception: " ++ e)] /\
     files (run (fst (download_image w row)) st) = files st).
Proof.
  intros Hg Hs. split.
  - intro Hd. unfold downloaded, saving_raises in Hd. rewrite Hg in Hd.
    destruct (open_raises w (file_path row)) eqn:Ho;
      [now rewrite andb_false_r in Hd|].
    destruct (close_raises w (file_path row));
      [now rewrite andb_false_r in Hd|].
    destruct (writing_raises w (file_path row) 0 (iter_content r)) eqn:Hw;
      [now rewrite andb_false_r in Hd|].
    now apply download_image_files.
  - intros e Ho.
    assert (E : fst (download_image w row)
                = [Log ("ERROR: " ++ file_name row ++ " | URL: "
                        ++ image_url row ++ " | Exception: " ++ e)]).
    { destruct (download_image_cases w row) as [_ ->].
      unfold outcome_line, downloaded, saving_raises. rewrite Hg, Ho.
      apply Z.eqb_eq in Hs. rewrite Hs.
      now rewrite (save_body_unopened w (file_path row) r e Ho). }
    split; [exact E|]. now rewrite E.
Qed.

(** ** The filters *)

(** X8.  An image is kept by the classification filter exactly when it
    is in the table and some object with its id passes both conditions:
    its classification is among the allowed ones, if any are given, and
    its subclassification is not among the excluded ones.  An image
    without object is dropped even when nothing is allowed or excluded;
    a missing classification is never allowed and a missing
    subclassification never excluded. *)
Theorem classification_filter_keeps
    (images_df : list image) (objects_path : objects_csv)
    (allowed excluded : option (list string)) (r : image) :
  In r (filter_by_classification images_df objects_path allowed excluded) <->
  In r images_df /\
  exists o,
    In o (objects.read_csv objects_path) /\
    objects.objectid o = published_images.depictstmsobjectid r /\
    (truthy allowed = true ->
     exists s, objects.classification o = Str s /\ In s (items allowed)) /\
    (truthy excluded = true ->
     forall s, objects.subclassification o = Str s ->
               ~ In s (items excluded)).
Proof.
  rewrite filter_by_classification_In. unfold kept_objects.
  split; intros [Hr (o & Ho & Hid)]; (split; [assumption|]); exists o.
  - apply filter_In in Ho. destruct Ho as [Ho Hc].
    apply andb_true_iff in Hc. destruct Hc as [Ha He].
    split; [assumption|]. split; [assumption|]. split.
    + intro Ht. rewrite Ht in Ha. simpl in Ha. unfold isin in Ha.
      destruct (objects.classification o) as [|s]; [discriminate|].
      exists s. split; [reflexivity | now apply mem_In].
    + intros Ht s Hs Hin. rewrite Ht, Hs in He. simpl in He.
      apply mem_In in Hin. now rewrite Hin in He.
  - destruct Hid as (Hid & Ha & He). split; [|assumption].
    apply filter_In. split; [assumption|]. apply andb_true_iff. split.
    + destruct (truthy allowed); [|reflexivity]. simpl.
      destruct (Ha eq_refl) as (s & -> & Hin). now apply mem_In.
    + destruct (truthy excluded); [|reflexivity]. simpl.
      destruct (objects.subclassification o) as [|s]; [reflexivity|].
      simpl. apply negb_true_iff.
      destruct (mem s (items excluded)) eqn:E; [|reflexivity].
      apply mem_In in E. now destruct (He eq_refl s eq_refl).
Qed.

(** X9.  The two filters commute: filtering by artists what the
    classification filter kept gives the same rows, in the same order,
    as filtering by classification what the artist filter kept. *)
Theorem filters_commute
    (images_df : list image) (objects_path : objects_csv)
    (allowed excluded : option (list string))
    (constituents_path : constituents_csv)
    (objects_constituents_path : objects_constituents_csv)
    (artist_names : option (list string)) :
  filter_by_artists
    (filter_by_classification images_df objects_path allowed excluded)
    constituents_path objects_constituents_path artist_names
  = match filter_by_artists images_df constituents_path
                           objects_constituents_path artist_names with
    | Some (Normal kept) =>
        Some (Normal (filter_by_classification kept objects_path allowed
                                               excluded))
    | other => other
    end.
Proof.
  unfold filter_by_artists.
  destruct (truthy artist_names); [|reflexivity].
  destruct (selected_constituents _ _) as [[selected|]|]; try reflexivity.
  simpl. unfold filter_by_classification.
  rewrite !filter_filter. do 2 apply f_equal. apply filter_ext. intro r.
  apply andb_comm.
Qed.

(** ** The ledger *)

(** X10.  The log and the description file only grow while the pool
    runs: whatever actions follow, the messages written so far stay at
    the head of the log, and the lines of a description file that exists
    stay at the head of the file. *)
Theorem ledger_only_grows (l1 l2 : list action) (st : Store) :
  (exists more,
     log_file (run (l1 ++ l2) st) = (log_file (run l1 st) ++ more)%list) /\
  (forall lines,
     description_file (run l1 st) = Some lines ->
     exists more,
       description_file (run (l1 ++ l2) st) = Some (lines ++ more)%list).
Proof.
  rewrite run_app. split.
  - exists (logged l2). apply run_log_file.
  - intros lines H. exists (map csv_row (described l2)).
    now apply run_description_some.
Qed.

Lemma interleaving_nil {A : Type} (schedule : list A) :
  interleaving [] schedule -> schedule = [].
Proof.
  intro H. apply interleaving_Permutation in H. simpl in H.
  now apply Permutation_nil, Permutation_sym.
Qed.

(** X11.  The pool is reached with nothing to download only when no
    filter was requested and no line of the image table has a source
    URL.  Such a run is not an empty selection: it writes the session
    marker to the log and completes, without a description file and
    without touching a file. *)
Theorem unfiltered_empty_run_opens_a_session a world st st' e :
  candidates a = inr [] ->
  0 < max_threads a ->
  download_dataset a world st st' e ->
  classification_requested a = false /\
  artists_requested a = false /\
  dropna_iiifurl (published_images.read_csv (images_path a)) = [] /\
  e = Complete /\
  log_file st' = (log_file st ++ logged (session_start a))%list /\
  description_file st' = None /\
  files st' = files st.
Proof.
  intros Hc Hmax H.
  assert (Hsel : classification_requested a = false /\
                 artists_requested a = false /\
                 dropna_iiifurl (published_images.read_csv (images_path a))
                 = []).
  { unfold candidates in Hc.
    destruct (classification_requested a && is_empty (after_classification a))
      eqn:E1; [discriminate|].
    destruct (after_artists a) as [[data|]|] eqn:Ea; try discriminate.
    destruct (artists_requested a && is_empty data) eqn:E2; [discriminate|].
    destruct (enrich a data) as [rows|] eqn:Ee; [|discriminate].
    injection Hc as ->.
    assert (data = []) as ->.
    { destruct data as [|r data]; [reflexivity|].
      destruct (enrich_covers a _ _ Ee r (or_introl eq_refl))
        as (row & [] & _). }
    simpl in E2. rewrite andb_true_r in E2.
    assert (Hac : after_classification a = []).
    { unfold after_artists, artists_requested in *.
      destruct (constituents_path a), (objects_constituents_path a);
        try congruence.
      rewrite E2 in Ea. congruence. }
    rewrite Hac in E1. simpl in E1. rewrite andb_true_r in E1.
    repeat split; try assumption.
    unfold after_classification, classification_requested in *.
    destruct (objects_path a); [|assumption].
    now rewrite E1 in Hac. }
  destruct Hsel as (H1 & H2 & H3). repeat split; try assumption;
    destruct (session_start_facts a) as (Hd & Ht & _);
    destruct H as [e0 _ Hc' | data _ Hc' Hmax' | data schedule _ Hc' _ Hi];
    try congruence; try lia;
    assert (data = []) as -> by congruence;
    apply interleaving_nil in Hi; subst schedule;
    change (run [] ?x) with x.
  - now rewrite run_log_file.
  - rewrite run_description_none by reflexivity. now rewrite Hd.
  - now rewrite run_files_untouched.
Qed.

(** ** The interactive entry point *)

Lemma lstrip_chars (P : ascii -> Prop) (s : string) :
  chars_all P s -> chars_all P (lstrip s).
Proof.
  unfold chars_all. induction s as [|c s IH]; simpl; intro H; [assumption|].
  inversion H; subst. destruct (is_space c); [now apply IH | assumption].
Qed.

Lemma rstrip_chars (P : ascii -> Prop) (s : string) :
  chars_all P s -> chars_all P (rstrip s).
Proof.
  unfold chars_all. induction s as [|c s IH]; simpl; intro H; [assumption|].
  inversion H as [|? ? Hc Hs]; subst. specialize (IH Hs).
  destruct (rstrip s) as [|d t].
  - destruct (is_space c); repeat constructor. assumption.
  - now constructor.
Qed.

Lemma lstrip_length (s : string) :
  (String.length (lstrip s) <= String.length s)%nat.
Proof.
  induction s as [|c s IH]; simpl; [lia|].
  destruct (is_space c); simpl; lia.
Qed.

Lemma rstrip_length (s : string) :
  (String.length (rstrip s) <= String.length s)%nat.
Proof.
  induction s as [|c s IH]; simpl; [lia|].
  destruct (rstrip s) as [|d t]; [destruct (is_space c)|]; simpl in *; lia.
Qed.

Lemma lstrip_fixed (s : string) :
  String.length (lstrip s) = String.length s -> lstrip s = s.
Proof.
  destruct s as [|c s]; simpl; [reflexivity|].
  destruct (is_space c); [|reflexivity].
  pose proof (lstrip_length s). lia.
Qed.

Lemma rstrip_fixed (s : string) :
  String.length (rstrip s) = String.length s -> rstrip s = s.
Proof.
  induction s as [|c s IH]; simpl; [reflexivity|].
  pose proof (rstrip_length s) as Hl.
  destruct (rstrip s) as [|d t] eqn:E.
  - destruct (is_space c); simpl; intro H; [lia|].
    destruct s; [reflexivity | simpl in H; lia].
  - simpl. intro H. f_equal. apply IH. simpl. lia.
Qed.

Lemma stripped (n : string) :
  strip n = n -> lstrip n = n /\ rstrip n = n.
Proof.
  unfold strip. intro H.
  pose proof (lstrip_length n). pose proof (rstrip_length (lstrip n)).
  assert (Hl : lstrip n = n).
  { apply lstrip_fixed. apply (f_equal String.length) in H. lia. }
  split; [assumption|]. now rewrite Hl in H.
Qed.

Lemma rstrip_idempotent (s : string) : rstrip (rstrip s) = rstrip s.
Proof.
  induction s as [|c s IH]; simpl; [reflexivity|].
  destruct (rstrip s) as [|d t] eqn:E.
  - destruct (is_space c) eqn:Ec; simpl; [reflexivity|]. now rewrite Ec.
  - change (rstrip (String c (String d t)))
      with (match rstrip (String d t) with
            | EmptyString => if is_space c then EmptyString
                             else String c EmptyString
            | String d' t' => String c (String d' t')
            end).
    now rewrite IH.
Qed.

Lemma lstrip_head (s : string) :
  match lstrip s with
  | EmptyString => True
  | String c _ => is_space c = false
  end.
Proof.
  induction s as [|c s IH]; simpl; [exact I|].
  destruct (is_space c) eqn:E; [assumption|]. exact E.
Qed.

Lemma rstrip_keeps_head (s : string) :
  match s with
  | EmptyString => True
  | String c _ => is_space c = false
  end ->
  lstrip (rstrip s) = rstrip s.
Proof.
  destruct s as [|c s]; simpl; [reflexivity|]. intro Hc.
  destruct (rstrip s) as [|d t]; rewrite ?Hc; simpl; now rewrite Hc.
Qed.

Lemma strip_idempotent (s : string) : strip (strip s) = strip s.
Proof.
  unfold strip.
  rewrite (rstrip_keeps_head (lstrip s) (lstrip_head s)).
  apply rstrip_idempotent.
Qed.

Lemma split_pieces (sep : ascii) (s : string) :
  Forall (chars_all (fun c => c <> sep)) (split sep s).
Proof.
  induction s as [|c s IH]; simpl.
  - repeat constructor.
  - destruct (Ascii.eqb c sep) eqn:E.
    + constructor; [constructor | assumption].
    + apply Ascii.eqb_neq in E.
      destruct (split sep s) as [|piece pieces].
      * repeat constructor. assumption.
      * inversion IH; subst. constructor; [|assumption].
        unfold chars_all. simpl. now constructor.
Qed.

Lemma parse_artist_names_clean (artist_input : string) :
  Forall clean (parse_artist_names artist_input).
Proof.
  unfold parse_artist_names. apply Forall_forall. intros n Hn.
  apply in_flat_map in Hn. destruct Hn as (piece & Hpiece & Hn).
  destruct (String.eqb (strip piece) EmptyString) eqn:E; [contradiction|].
  destruct Hn as [<-|[]]. apply String.eqb_neq in E.
  split; [assumption|]. split; [apply strip_idempotent|].
  pose proof (split_pieces "," artist_input) as Hp.
  rewrite Forall_forall in Hp. specialize (Hp piece Hpiece).
  apply (rstrip_chars _ _ (lstrip_chars _ _ Hp)).
Qed.

(** X12.  Every artist name the entry point parses from a line is clean:
    it is not empty, has no comma and no blank at either end, so no
    typed name is the empty pattern that every constituent matches.  A
    line of commas and blanks gives no name at all. *)
Theorem parsed_artist_names_are_clean (artist_input : string) :
  Forall clean (parse_artist_names artist_input) /\
  (Forall (fun piece => strip piece = EmptyString) (split "," artist_input) ->
   parse_artist_names artist_input = []).
Proof.
  split; [apply parse_artist_names_clean|].
  unfold parse_artist_names.
  induction (split "," artist_input) as [|piece pieces IH]; intro H;
    [reflexivity|].
  inversion H as [|? ? Hp Hrest]; subst. cbn [flat_map].
  rewrite Hp. simpl. now apply IH.
Qed.

Lemma append_assoc (s t u : string) : (s ++ t) ++ u = s ++ (t ++ u).
Proof. induction s as [|c s IH]; simpl; now rewrite ?IH. Qed.

Lemma chars_all_append (P : ascii -> Prop) (s t : string) :
  chars_all P s -> chars_all P t -> chars_all P (s ++ t).
Proof.
  unfold chars_all. induction s as [|c s IH]; simpl; intros Hs Ht;
    [assumption|].
  inversion Hs; subst. constructor; [assumption | now apply IH].
Qed.

Lemma split_without_sep (sep : ascii) (n : string) :
  chars_all (fun c => c <> sep) n -> split sep n = [n].
Proof.
  unfold chars_all. induction n as [|c n IH]; simpl; intro H; [reflexivity|].
  inversion H as [|? ? Hc Hn]; subst.
  apply Ascii.eqb_neq in Hc. rewrite Hc. now rewrite (IH Hn).
Qed.

Lemma split_at_sep (sep : ascii) (n t : string) :
  chars_all (fun c => c <> sep) n ->
  split sep (n ++ String sep t) = n :: split sep t.
Proof.
  unfold chars_all. induction n as [|c n IH]; simpl; intro H.
  - now rewrite Ascii.eqb_refl.
  - inversion H as [|? ? Hc Hn]; subst.
    apply Ascii.eqb_neq in Hc. rewrite Hc. now rewrite (IH Hn).
Qed.

Lemma split_joined (p n : string) (rest : list string) :
  chars_all (fun c => c <> ","%char) p ->
  Forall (chars_all (fun c => c <> ","%char)) (n :: rest) ->
  split "," (p ++ String.concat ", " (n :: rest))
  = (p ++ n) :: map (fun m => " " ++ m) rest.
Proof.
  revert p n. induction rest as [|n' rest IH]; intros p n Hp Hall.
  - simpl. inversion Hall; subst.
    now rewrite split_without_sep by now apply chars_all_append.
  - inversion Hall as [|? ? Hn Hrest]; subst.
    change (String.concat ", " (n :: n' :: rest))
      with (n ++ String "," (" " ++ String.concat ", " (n' :: rest))).
    rewrite <- append_assoc.
    rewrite split_at_sep by now apply chars_all_append.
    rewrite (IH " " n'); [reflexivity | | assumption].
    repeat constructor. discriminate.
Qed.

Lemma rstrip_append (s t : string) :
  rstrip t <> EmptyString -> rstrip (s ++ t) = s ++ rstrip t.
Proof.
  intro Ht. induction s as [|c s IH]; simpl; [reflexivity|].
  rewrite IH. destruct (s ++ rstrip t) as [|d u] eqn:E; [|reflexivity].
  exfalso. destruct s; simpl in E; [contradiction | discriminate].
Qed.

Lemma concat_not_empty (n : string) (rest : list string) :
  n <> EmptyString -> String.concat ", " (n :: rest) <> EmptyString.
Proof.
  intro Hn. destruct rest as [|n' rest]; simpl; [assumption|].
  destruct n; [contradiction | discriminate].
Qed.

Lemma rstrip_joined (n : string) (rest : list string) :
  Forall clean (n :: rest) ->
  rstrip (String.concat ", " (n :: rest)) = String.concat ", " (n :: rest).
Proof.
  revert n. induction rest as [|n' rest IH]; intros n Hall.
  - inversion Hall as [|? ? (_ & Hs & _) _]; subst. simpl.
    now apply stripped.
  - inversion Hall as [|? ? Hn Hrest]; subst.
    change (String.concat ", " (n :: n' :: rest))
      with (n ++ (", " ++ String.concat ", " (n' :: rest))).
    assert (Hne : String.concat ", " (n' :: rest) <> EmptyString).
    { apply concat_not_empty. inversion Hrest as [|? ? (H & _) _]; assumption. }
    assert (Hr : rstrip (", " ++ String.concat ", " (n' :: rest))
                 = ", " ++ String.concat ", " (n' :: rest)).
    { rewrite rstrip_append; rewrite (IH n' Hrest); [reflexivity | assumption]. }
    rewrite rstrip_append; rewrite Hr; [reflexivity | discriminate].
Qed.

Lemma lstrip_clean_head (n x : string) :
  n <> EmptyString -> lstrip n = n -> lstrip (n ++ x) = n ++ x.
Proof.
  destruct n as [|c n]; [contradiction|]. simpl. intros _ H.
  destruct (is_space c); [|reflexivity].
  exfalso. pose proof (lstrip_length n) as Hl.
  apply (f_equal String.length) in H. simpl in H. lia.
Qed.

Lemma strip_joined (names : list string) :
  Forall clean names ->
  strip (String.concat ", " names) = String.concat ", " names.
Proof.
  intro Hall. destruct names as [|n rest]; [reflexivity|].
  unfold strip.
  assert (Hl : lstrip (String.concat ", " (n :: rest))
               = String.concat ", " (n :: rest)).
  { inversion Hall as [|? ? (Hne & Hs & _) _]; subst.
    destruct rest as [|n' rest]; simpl.
    - now apply stripped.
    - apply lstrip_clean_head; [assumption | now apply stripped]. }
  rewrite Hl. now apply rstrip_joined.
Qed.

(** X13.  The entry point reads back the names it logs: for clean
    names, parsing the line made of the names joined with ", " (as the
    session marker writes them) gives the names again, in order. *)
Theorem artist_names_round_trip (names : list string) :
  Forall clean names ->
  parse_artist_names (strip (String.concat ", " names)) = names.
Proof.
  intro Hall. rewrite (strip_joined names Hall).
  destruct names as [|n rest]; [reflexivity|].
  unfold parse_artist_names.
  assert (Hcomma : Forall (chars_all (fun c => c <> ","%char)) (n :: rest)).
  { eapply Forall_impl; [|exact Hall]. now intros m (_ & _ & H). }
  pose proof (split_joined EmptyString n rest (Forall_nil _) Hcomma) as Hs.
  change (EmptyString ++ String.concat ", " (n :: rest))
    with (String.concat ", " (n :: rest)) in Hs.
  change (EmptyString ++ n) with n in Hs.
  rewrite Hs. clear Hs Hcomma.
  inversion Hall as [|? ? (Hne & Hstrip & _) Hrest]; subst.
  cbn [flat_map]. rewrite Hstrip.
  apply String.eqb_neq in Hne. rewrite Hne. simpl. f_equal.
  clear Hall Hne Hstrip.
  induction rest as [|m rest IH]; [reflexivity|].
  inversion Hrest as [|? ? (Hne & Hstrip & _) Hrest']; subst.
  cbn [map flat_map]. change (" " ++ m) with (String " " m).
  assert (E : strip (String " " m) = m).
  { unfold strip. simpl. exact Hstrip. }
  rewrite E. apply String.eqb_neq in Hne. rewrite Hne. simpl.
  now rewrite IH.
Qed.

Lemma map_get_In (k v : string) (m : list (string * string)) :
  map_get k m = Some v -> In v (map snd m).
Proof.
  induction m as [|[k' v'] m IH]; simpl; [discriminate|].
  destruct (String.eqb k k'); [intros [= ->]; now left | right; now apply IH].
Qed.

Lemma selected_classifications_known (class_choice c : string) :
  In c (selected_classifications class_choice) ->
  In c (map snd classification_map).
Proof.
  unfold selected_classifications. rewrite in_flat_map.
  intros (n & _ & H).
  destruct (map_get n classification_map) as [v|] eqn:E; [|contradiction].
  destruct H as [<-|[]]. exact (map_get_In n v _ E).
Qed.

Lemma entry_point_shape
    (images : images_csv) (objects : objects_csv)
    (constituents : constituents_csv) (links : objects_constituents_csv)
    (stdin rest : list string) (a : arguments) :
  main images objects constituents links stdin = Normal (a, rest) ->
  objects_path a = Some objects /\
  constituents_path a = Some constituents /\
  objects_constituents_path a = Some links.
Proof.
  unfold main, and_then, input, answer.
  destruct stdin as [|l1 stdin]; [discriminate|].
  destruct (yes l1).
  - destruct stdin as [|l2 stdin]; [discriminate|].
    destruct stdin as [|l3 stdin]; [discriminate|].
    destruct stdin as [|l4 stdin]; [discriminate|].
    destruct (yes l4).
    + destruct stdin as [|l5 stdin]; [discriminate|].
      intros [= <- _]. now repeat split.
    + intros [= <- _]. now repeat split.
  - destruct stdin as [|l4 stdin]; [discriminate|].
    destruct (yes l4).
    + destruct stdin as [|l5 stdin]; [discriminate|].
      intros [= <- _]. now repeat split.
    + intros [= <- _]. now repeat split.
Qed.

(** X14.  Whatever is typed, the call the entry point makes has eight
    threads and all four tables; its artist names are clean; its allowed
    classifications are among the six of the menu, a number that is not
    on the menu being ignored; and its excluded subclassifications are
    absent or the fixed list of sketches. *)
Theorem entry_point_call
    (images : images_csv) (objects : objects_csv)
    (constituents : constituents_csv) (links : objects_constituents_csv)
    (stdin rest : list string) (a : arguments) :
  main images objects constituents links stdin = Normal (a, rest) ->
  images_path a = images /\ max_threads a = 8 /\
  objects_path a = Some objects /\
  constituents_path a = Some constituents /\
  objects_constituents_path a = Some links /\
  Forall clean (items (artist_names a)) /\
  Forall (fun c => In c ["Painting"; "Sculpture"; "Print"; "Drawing";
                         "Photograph"; "Decorative Art"])
         (items (allowed_classifications a)) /\
  (excluded_subclassifications a = None \/
   excluded_subclassifications a = Some sketches).
Proof.
  assert (Hallowed : forall l2,
    Forall (fun c => In c ["Painting"; "Sculpture"; "Print"; "Drawing";
                           "Photograph"; "Decorative Art"])
           (items (if negb (String.eqb (strip l2) "7")
                   then Some (selected_classifications (strip l2))
                   else None))).
  { intro l2. destruct (negb (String.eqb (strip l2) "7")); [|constructor].
    apply Forall_forall. intros c Hc.
    exact (selected_classifications_known _ _ Hc). }
  assert (Hexcluded : forall l3,
    (if yes l3 then Some sketches else None) = None \/
    (if yes l3 then Some sketches else None) = Some sketches).
  { intro l3. destruct (yes l3); [now right | now left]. }
  unfold main, and_then, input, answer.
  destruct stdin as [|l1 stdin]; [discriminate|].
  destruct (yes l1).
  - destruct stdin as [|l2 stdin]; [discriminate|].
    destruct stdin as [|l3 stdin]; [discriminate|].
    destruct stdin as [|l4 stdin]; [discriminate|].
    destruct (yes l4).
    + destruct stdin as [|l5 stdin]; [discriminate|].
      intros [= <- _]. simpl.
      repeat split; try apply Hallowed; try apply Hexcluded.
      apply parse_artist_names_clean.
    + intros [= <- _]. simpl.
      repeat split; try apply Hallowed; try apply Hexcluded. constructor.
  - destruct stdin as [|l4 stdin]; [discriminate|].
    destruct (yes l4).
    + destruct stdin as [|l5 stdin]; [discriminate|].
      intros [= <- _]. simpl.
      repeat split; try (now left); try constructor.
      apply parse_artist_names_clean.
    + intros [= <- _]. simpl.
      repeat split; try (now left); constructor.
Qed.

Lemma candidates_enriched (a : arguments) (rows : list series) :
  candidates a = inr rows -> exists data, enrich a data = Normal rows.
Proof.
  unfold candidates.
  destruct (_ && _); [discriminate|].
  destruct (after_artists a) as [[data|]|]; try discriminate.
  destruct (_ && _); [discriminate|].
  destruct (enrich a data) as [rows'|] eqn:E; [|discriminate].
  intros [= <-]. now exists data.
Qed.

(** X15.  In a run started from the entry point no description field
    ever takes its default: for every candidate row the five fields read
    with [row.get] are the same whatever default is passed, because the
    entry point always gives the three tables and the joins always add
    the columns. *)
Theorem entry_point_never_uses_the_defaults
    (images : images_csv) (objects : objects_csv)
    (constituents : constituents_csv) (links : objects_constituents_csv)
    (stdin rest : list string) (a : arguments) (rows : list series)
    (row : series) (d d' : cell) :
  main images objects constituents links stdin = Normal (a, rest) ->
  candidates a = inr rows ->
  In row rows ->
  get row "artist" d = get row "artist" d' /\
  get row "title" d = get row "title" d' /\
  get row "displaydate" d = get row "displaydate" d' /\
  get row "classification" d = get row "classification" d' /\
  get row "medium" d = get row "medium" d'.
Proof.
  intros Hmain Hc Hrow.
  destruct (entry_point_shape images objects constituents links stdin rest a
              Hmain) as (Hop & Hcp & Hocp).
  destruct (candidates_enriched a rows Hc) as (data & He).
  destruct (enrich_rows a data rows row He Hrow) as (row0 & Hrow0 & _ & Hm).
  destruct (with_objects_rows a data row0 Hrow0) as [_ Hcols].
  rewrite Hop in Hcols. rewrite Hcp, Hocp in Hm.
  destruct Hm as (grouped & _ & Hm). unfold get.
  destruct Hm as [[_ ->]|(g & _ & _ & ->)];
    destruct Hcols as [[_ ->]|(o & _ & _ & ->)];
    repeat split; reflexivity.
Qed.

(** ** Examples of the further properties *)

Lemma enrichment_keeps_each_image_once_example :
  enrich duo_arguments duo_data = Normal duo_rows /\
  NoDup (map (@objects.objectid cell) (objects.read_csv example_objects)) /\
  map image_of duo_rows = duo_data /\
  length duo_rows = 3%nat.
Proof.
  assert (He : enrich duo_arguments duo_data = Normal duo_rows)
    by (vm_compute; reflexivity).
  assert (Hnd : NoDup (map (@objects.objectid cell)
                           (objects.read_csv example_objects))).
  { simpl. repeat constructor; simpl; intuition discriminate. }
  split; [exact He|]. split; [exact Hnd|]. split.
  - apply (proj2 (enrichment_keeps_each_image_once duo_arguments duo_data
                    duo_rows He)).
    intros op [= <-]. exact Hnd.
  - reflexivity.
Defined.

Lemma nameless_artist_fails_the_run_example :
  In (objects_constituents.mk (Some 7) (Some 12) (Str "artist"))
     (objects_constituents.read_csv nameless_links) /\
  In (constituents.mk (Some 12) NaN)
     (constituents.read_csv nameless_constituents) /\
  (exists e, enrich nameless_arguments duo_data = Raise e /\
             starts_with "TypeError" e = true) /\
  snd (download_dataset_in_order nameless_arguments example_world
                                 example_folder) <> Complete /\
  log_file (fst (download_dataset_in_order nameless_arguments
                   example_world example_folder))
  = log_file example_folder.
Proof.
  assert (Hl : In (objects_constituents.mk (Some 7) (Some 12) (Str "artist"))
                  (objects_constituents.read_csv nameless_links)).
  { vm_compute. right. left. reflexivity. }
  assert (Hc : In (constituents.mk (Some 12) NaN)
                  (constituents.read_csv nameless_constituents)).
  { vm_compute. right. left. reflexivity. }
  destruct (nameless_artist_fails_the_run nameless_arguments
              nameless_constituents nameless_links _ _ 7
              eq_refl eq_refl Hl eq_refl eq_refl Hc eq_refl eq_refl)
    as [Henrich Hrun].
  split; [exact Hl|]. split; [exact Hc|]. split; [exact (Henrich duo_data)|].
  destruct (Hrun example_world example_folder _ _
              (in_order_is_a_run nameless_arguments example_world
                                 example_folder eq_refl)) as (H1 & H2 & _).
  split; [exact H1 | exact H2].
Defined.

Lemma object_fields_of_a_candidate_example :
  enrich duo_arguments duo_data = Normal duo_rows /\
  objects_path duo_arguments = Some example_objects /\
  nth_error duo_rows 1
  = Some (mk_series
            (published_images.mk (Str "u2") (Str "http://a/2") (Some 2))
            [("title", Str "Sketch"); ("displaydate", NaN);
             ("classification", Str "Painting"); ("medium", NaN);
             ("artist", NaN)]) /\
  exists o,
    In o (objects.read_csv example_objects) /\
    objects.objectid o = Some 2 /\
    get (mk_series
           (published_images.mk (Str "u2") (Str "http://a/2") (Some 2))
           [("title", Str "Sketch"); ("displaydate", NaN);
            ("classification", Str "Painting"); ("medium", NaN);
            ("artist", NaN)]) "displaydate" (Str "Unknown")
    = objects.displaydate o /\
    objects.displaydate o = NaN.
Proof.
  assert (He : enrich duo_arguments duo_data = Normal duo_rows)
    by (vm_compute; reflexivity).
  split; [exact He|]. split; [reflexivity|]. split; [reflexivity|].
  destruct (object_fields_of_a_candidate duo_arguments duo_data duo_rows
              (mk_series
                 (published_images.mk (Str "u2") (Str "http://a/2") (Some 2))
                 [("title", Str "Sketch"); ("displaydate", NaN);
                  ("classification", Str "Painting"); ("medium", NaN);
                  ("artist", NaN)])
              example_objects (Str "Untitled") (Str "Unknown") (Str "Unknown")
              (Str "Unknown") He eq_refl)
    as [(_ & H & _)|(o & Ho & Hid & _ & Hd & _)].
  - vm_compute. right. left. reflexivity.
  - vm_compute in H. discriminate H.
  - exists o. split; [exact Ho|]. split; [exact Hid|].
    split; [exact Hd|]. rewrite <- Hd. reflexivity.
Defined.

Lemma artist_field_of_a_candidate_example :
  enrich duo_arguments duo_data = Normal duo_rows /\
  constituents_path duo_arguments = Some example_constituents /\
  objects_constituents_path duo_arguments = Some duo_links /\
  nth_error duo_rows 0
  = Some (mk_series
            (published_images.mk (Str "u1") (Str "http://a/1") (Some 1))
            [("title", Str "Water Lilies"); ("displaydate", Str "c. 1906");
             ("classification", Str "Painting");
             ("medium", Str "oil on canvas");
             ("artist", Str "Claude Monet, Edgar Degas")]) /\
  artist_names_of example_constituents duo_links (Some 1)
  = [Str "Claude Monet"; Str "Edgar Degas"] /\
  exists names,
    strings_of (artist_names_of example_constituents duo_links (Some 1))
    = Some names /\
    names = ["Claude Monet"; "Edgar Degas"] /\
    get (mk_series
           (published_images.mk (Str "u1") (Str "http://a/1") (Some 1))
           [("title", Str "Water Lilies"); ("displaydate", Str "c. 1906");
            ("classification", Str "Painting");
            ("medium", Str "oil on canvas");
            ("artist", Str "Claude Monet, Edgar Degas")])
        "artist" (Str "Unknown")
    = Str (String.concat ", " names).
Proof.
  assert (He : enrich duo_arguments duo_data = Normal duo_rows)
    by (vm_compute; reflexivity).
  split; [exact He|]. split; [reflexivity|]. split; [reflexivity|].
  split; [reflexivity|]. split; [vm_compute; reflexivity|].
  destruct (artist_field_of_a_candidate duo_arguments duo_data duo_rows
              (mk_series
                 (published_images.mk (Str "u1") (Str "http://a/1") (Some 1))
                 [("title", Str "Water Lilies"); ("displaydate", Str "c. 1906");
                  ("classification", Str "Painting");
                  ("medium", Str "oil on canvas");
                  ("artist", Str "Claude Monet, Edgar Degas")])
              example_constituents duo_links (Str "Unknown")
              He eq_refl eq_refl)
    as [(_ & H)|(names & _ & _ & Hs & H)].
  - vm_compute. left. reflexivity.
  - vm_compute in H. discriminate H.
  - exists names. split; [exact Hs|]. split; [|exact H].
    vm_compute in Hs. now injection Hs as <-.
Defined.

Lemma defaults_apply_without_tables_example :
  enrich bare_arguments duo_data = Normal bare_rows /\
  In (mk_series
        (published_images.mk (Str "u1") (Str "http://a/1") (Some 1)) [])
     bare_rows /\
  get (mk_series
         (published_images.mk (Str "u1") (Str "http://a/1") (Some 1)) [])
      "title" (Str "Untitled") = Str "Untitled" /\
  get (mk_series
         (published_images.mk (Str "u1") (Str "http://a/1") (Some 1)) [])
      "artist" (Str "Unknown") = Str "Unknown".
Proof.
  assert (He : enrich bare_arguments duo_data = Normal bare_rows)
    by (vm_compute; reflexivity).
  assert (Hin : In (mk_series
                      (published_images.mk (Str "u1") (Str "http://a/1")
                                           (Some 1)) [])
                   bare_rows).
  { vm_compute. left. reflexivity. }
  split; [exact He|]. split; [exact Hin|]. split.
  - exact (proj1 (proj1 (defaults_apply_without_tables bare_arguments duo_data
                           bare_rows _ (Str "Untitled") He Hin) eq_refl)).
  - exact (proj2 (defaults_apply_without_tables bare_arguments duo_data
                    bare_rows _ (Str "Unknown") He Hin) (or_introl eq_refl)).
Defined.

Lemma destination_holds_the_chunks_example :
  requests_get (files_succeed chunked_request) (image_url first_row)
  = Normal chunked_response /\
  status_code chunked_response = 200 /\
  downloaded (files_succeed chunked_request) first_row = true /\
  read_file (file_path first_row)
    (files (run (fst (download_image (files_succeed chunked_request)
                                     first_row))
                (mk_store [] None
                   [("NGA_Dataset/u1.jpg",
                     [Byte.x07; Byte.x08; Byte.x09; Byte.x0a; Byte.x0b])])))
  = Some [Byte.x01; Byte.x02; Byte.x03] /\
  open_raises no_folder_world (file_path nested_row)
  = Some "[Errno 2] No such file or directory" /\
  fst (download_image no_folder_world nested_row)
  = [Log "ERROR: a/b.jpg | URL: http://a/1/full/full/360/default.jpg | Exception: [Errno 2] No such file or directory"]
  /\
  files (run (fst (download_image no_folder_world nested_row)) example_folder)
  = files example_folder.
Proof.
  split; [reflexivity|]. split; [reflexivity|]. split; [reflexivity|].
  split.
  - exact (proj1 (proj1 (destination_holds_the_chunks
                           (files_succeed chunked_request) first_row
                           chunked_response
                           (mk_store [] None
                              [("NGA_Dataset/u1.jpg",
                                [Byte.x07; Byte.x08; Byte.x09; Byte.x0a;
                                 Byte.x0b])])
                           eq_refl eq_refl) eq_refl)).
  - split; [reflexivity|].
    exact (proj2 (destination_holds_the_chunks
                    no_folder_world nested_row
                    (mk_response 200 [[Byte.x01]] None) example_folder
                    eq_refl eq_refl)
                 "[Errno 2] No such file or directory" eq_refl).
Defined.

Lemma unfiltered_empty_run_opens_a_session_example :
  candidates no_url_arguments = inr [] /\
  0 < max_threads no_url_arguments /\
  download_dataset no_url_arguments example_world example_folder
                   (fst no_url_run) (snd no_url_run) /\
  snd no_url_run = Complete /\
  log_file (fst no_url_run)
  = (log_file example_folder
     ++ ["============================================================";
         "New Download Session Started";
         "============================================================"])%list
  /\
  description_file (fst no_url_run) = None.
Proof.
  assert (Hc : candidates no_url_arguments = inr [])
    by (vm_compute; reflexivity).
  assert (Hm : 0 < max_threads no_url_arguments) by (simpl; lia).
  pose proof (in_order_is_a_run no_url_arguments example_world
                                 example_folder eq_refl) as Hrun.
  destruct (unfiltered_empty_run_opens_a_session no_url_arguments
              example_world example_folder (fst no_url_run)
              (snd no_url_run) Hc Hm Hrun)
    as (_ & _ & _ & He & Hl & Hd & _).
  split; [exact Hc|]. split; [exact Hm|]. split; [exact Hrun|].
  split; [exact He|]. split; [exact Hl | exact Hd].
Defined.

Lemma artist_names_round_trip_example :
  Forall clean ["Monet"; "van Gogh"] /\
  String.concat ", " ["Monet"; "van Gogh"] = "Monet, van Gogh" /\
  parse_artist_names (strip "Monet, van Gogh") = ["Monet"; "van Gogh"].
Proof.
  assert (H : Forall clean ["Monet"; "van Gogh"]).
  { repeat constructor; try discriminate. }
  split; [exact H|]. split; [reflexivity|].
  exact (artist_names_round_trip ["Monet"; "van Gogh"] H).
Defined.

Lemma entry_point_call_example :
  main example_images example_objects example_constituents example_links
       example_stdin = Normal (example_call, []) /\
  max_threads example_call = 8 /\
  Forall clean (items (artist_names example_call)) /\
  Forall (fun c => In c ["Painting"; "Sculpture"; "Print"; "Drawing";
                         "Photograph"; "Decorative Art"])
         (items (allowed_classifications example_call)).
Proof.
  assert (H : main example_images example_objects example_constituents
                   example_links example_stdin = Normal (example_call, []))
    by (vm_compute; reflexivity).
  destruct (entry_point_call example_images example_objects
              example_constituents example_links example_stdin []
              example_call H) as (_ & H1 & _ & _ & _ & H2 & H3 & _).
  split; [exact H|]. split; [exact H1|]. split; [exact H2 | exact H3].
Defined.

Lemma entry_point_never_uses_the_defaults_example :
  main example_images example_objects example_constituents example_links
       example_stdin = Normal (example_call, []) /\
  candidates example_call = inr example_call_rows /\
  example_call_rows
  = [mk_series
       (published_images.mk (Str "u1") (Str "http://a/1") (Some 1))
       [("title", Str "Water Lilies"); ("displaydate", Str "c. 1906");
        ("classification", Str "Painting"); ("medium", Str "oil on canvas");
        ("artist", Str "Claude Monet")]] /\
  get (mk_series
         (published_images.mk (Str "u1") (Str "http://a/1") (Some 1))
         [("title", Str "Water Lilies"); ("displaydate", Str "c. 1906");
          ("classification", Str "Painting"); ("medium", Str "oil on canvas");
          ("artist", Str "Claude Monet")]) "artist" (Str "Unknown")
  = get (mk_series
           (published_images.mk (Str "u1") (Str "http://a/1") (Some 1))
           [("title", Str "Water Lilies"); ("displaydate", Str "c. 1906");
            ("classification", Str "Painting");
            ("medium", Str "oil on canvas");
            ("artist", Str "Claude Monet")]) "artist" NaN.
Proof.
  assert (H : main example_images example_objects example_constituents
                   example_links example_stdin = Normal (example_call, []))
    by (vm_compute; reflexivity).
  assert (Hc : candidates example_call = inr example_call_rows)
    by (vm_compute; reflexivity).
  split; [exact H|]. split; [exact Hc|]. split; [reflexivity|].
  refine (proj1 (entry_point_never_uses_the_defaults
                   example_images example_objects example_constituents
                   example_links example_stdin [] example_call
                   example_call_rows _ (Str "Unknown") NaN H Hc _)).
  vm_compute. left. reflexivity.
Defined.

(** ** analyze_dataset.py: the names of the files *)

Lemma endswith_append (u suffix : string) : endswith suffix (u ++ suffix) = true.
Proof.
  induction u as [|c u IH]; simpl.
  - destruct suffix; simpl; now rewrite ?Ascii.eqb_refl, ?String.eqb_refl.
  - rewrite IH. apply orb_true_r.
Qed.

Lemma replace_jpg (u : string) :
  chars_all (fun c => c <> "."%char) u ->
  replace ".jpg" EmptyString (u ++ ".jpg") = u.
Proof.
  unfold replace, chars_all.
  induction u as [|c u IH]; intro H; [reflexivity|].
  cbn [list_ascii_of_string] in H.
  inversion H as [|? ? Hc Hu]; subst.
  assert (E : Ascii.eqb "." c = false).
  { apply Ascii.eqb_neq. congruence. }
  cbn [append replace_from starts_with]. rewrite E.
  cbn [andb]. now rewrite (IH Hu).
Qed.

(** X16.  The analysis finds what the downloader wrote: when the uuid
    of a row is a string without a dot, the file name the downloader
    gives its image ends in ".jpg" and the analysis reads the uuid back
    from it, so a folder that lists the file lists the uuid among the
    downloaded ones.  The log and the description file of the same
    folder are never taken for images. *)
Theorem analysis_recovers_the_uuid
    (row : series) (u : string) (listdir : list string) :
  published_images.uuid (image_of row) = Str u ->
  chars_all (fun c => c <> "."%char) u ->
  In (file_name row) listdir ->
  In u (downloaded_uuids listdir) /\
  ~ In "download_log.txt" (downloaded_files listdir) /\
  ~ In "description.csv" (downloaded_files listdir).
Proof.
  intros Hu Hdot Hin. unfold downloaded_uuids, downloaded_files.
  unfold file_name in Hin. rewrite Hu in Hin. simpl format in Hin.
  split; [|split].
  - apply in_map_iff. exists (u ++ ".jpg"). split.
    + now apply replace_jpg.
    + apply filter_In. split; [assumption | apply endswith_append].
  - rewrite filter_In. intros [_ H]. discriminate H.
  - rewrite filter_In. intros [_ H]. discriminate H.
Qed.

Lemma replace_char_absent (a : ascii) (new s : string) :
  chars_all (fun c => c <> a) s ->
  replace (String a EmptyString) new s = s.
Proof.
  unfold replace, chars_all.
  induction s as [|c s IH]; intro H; [reflexivity|].
  cbn [list_ascii_of_string] in H.
  inversion H as [|? ? Hc Hs]; subst.
  assert (E : Ascii.eqb a c = false) by (apply Ascii.eqb_neq; congruence).
  cbn [replace_from starts_with]. rewrite E.
  cbn [andb]. now rewrite (IH Hs).
Qed.

Lemma replace_space (s : string) :
  chars_all (fun c => c <> " "%char) (replace " " "_" s).
Proof.
  unfold replace, chars_all.
  induction s as [|c s IH]; [constructor|].
  cbn [replace_from starts_with String.length Nat.sub].
  destruct (Ascii.eqb " " c) eqn:E; cbn [andb append list_ascii_of_string].
  - constructor; [discriminate | exact IH].
  - constructor; [|exact IH]. apply Ascii.eqb_neq in E. congruence.
Qed.

Lemma remove_comma (P : ascii -> Prop) (s : string) :
  chars_all P s ->
  chars_all (fun c => P c /\ c <> ","%char) (replace "," EmptyString s).
Proof.
  unfold replace, chars_all.
  induction s as [|c s IH]; intro H; [constructor|].
  cbn [list_ascii_of_string] in H.
  inversion H as [|? ? Hc Hs]; subst.
  cbn [replace_from starts_with String.length Nat.sub].
  destruct (Ascii.eqb "," c) eqn:E; cbn [andb append list_ascii_of_string].
  - now apply IH.
  - constructor; [|now apply IH]. split; [assumption|].
    apply Ascii.eqb_neq in E. congruence.
Qed.

(** X17.  The file name made for an author has no space and no comma,
    and an author's name without them is its own file name. *)
Theorem safe_name_is_safe (author : string) :
  chars_all (fun c => c <> " "%char /\ c <> ","%char) (safe_name author) /\
  (chars_all (fun c => c <> " "%char /\ c <> ","%char) author ->
   safe_name author = author).
Proof.
  unfold safe_name. split.
  - apply remove_comma, replace_space.
  - intro H.
    rewrite (replace_char_absent " " "_" author).
    + apply replace_char_absent.
      unfold chars_all in *. eapply Forall_impl; [|exact H]. now intros c [_ ?].
    + unfold chars_all in *. eapply Forall_impl; [|exact H]. now intros c [? _].
Qed.

Lemma analysis_recovers_the_uuid_example :
  published_images.uuid (image_of first_row) = Str "u1" /\
  chars_all (fun c => c <> "."%char) "u1" /\
  In (file_name first_row) ["download_log.txt"; "u1.jpg"; "description.csv"] /\
  downloaded_uuids ["download_log.txt"; "u1.jpg"; "description.csv"] = ["u1"] /\
  In "u1" (downloaded_uuids ["download_log.txt"; "u1.jpg"; "description.csv"]).
Proof.
  assert (Hd : chars_all (fun c => c <> "."%char) "u1").
  { repeat constructor; discriminate. }
  assert (Hin : In (file_name first_row)
                   ["download_log.txt"; "u1.jpg"; "description.csv"]).
  { right. left. reflexivity. }
  split; [reflexivity|]. split; [exact Hd|]. split; [exact Hin|].
  split; [reflexivity|].
  exact (proj1 (analysis_recovers_the_uuid first_row "u1"
                  ["download_log.txt"; "u1.jpg"; "description.csv"]
                  eq_refl Hd Hin)).
Defined.

(** ** search_artists.py *)

Lemma artist_works_keys (links : list (objects_constituents.row cell)) :
  NoDup (map fst (artist_works links)).
Proof.
  unfold artist_works. rewrite map_map. simpl. rewrite map_id.
  apply NoDup_filter, unique_NoDup.
Qed.

Lemma works_of_filter (links : list (objects_constituents.row cell)) (k : key) :
  filter (fun l => key_eqb k (objects_constituents.constituentid l))
         (filter (fun l => cell_is (objects_constituents.roletype l) "artist")
                 links)
  = works_of links k.
Proof. unfold works_of. apply filter_filter. Qed.

Lemma artist_works_In (links : list (objects_constituents.row cell))
    (k : key) (n : Z) :
  In (k, n) (artist_works links) <->
  k <> None /\ works_of links k <> [] /\
  n = Z.of_nat (length (works_of links k)).
Proof.
  unfold artist_works. rewrite in_map_iff. split.
  - intros (k' & Hk & Hin). injection Hk as -> <-.
    apply filter_In in Hin. destruct Hin as [Hin Hsome].
    rewrite unique_In in Hin. apply in_map_iff in Hin.
    destruct Hin as (l & Hl & Hin).
    split; [now destruct k|]. rewrite works_of_filter. split; [|reflexivity].
    intro Hnil.
    assert (H : In l (works_of links k)).
    { rewrite <- works_of_filter. apply filter_In. split; [assumption|].
      apply key_eqb_eq. now symmetry. }
    rewrite Hnil in H. contradiction.
  - intros (Hk & Hne & ->). exists k. rewrite works_of_filter.
    split; [reflexivity|]. apply filter_In. split; [|now destruct k].
    rewrite unique_In.
    destruct (works_of links k) as [|l ls] eqn:E; [contradiction|].
    assert (H : In l (works_of links k)) by (rewrite E; now left).
    rewrite <- works_of_filter in H. apply filter_In in H.
    destruct H as [H Hkey]. apply key_eqb_eq in Hkey.
    apply in_map_iff. exists l. split; [now symmetry | assumption].
Qed.

Lemma with_works_piece (c : artist)
    (links : list (objects_constituents.row cell)) :
  match filter (fun w => key_eqb (constituents_full.constituentid c) (fst w))
               (artist_works links) with
  | [] => [(c, 0)]
  | w :: ws => map (fun w => (c, snd w)) (w :: ws)
  end
  = [(c, count_works links (constituents_full.constituentid c))].
Proof.
  pose proof (filter_unique_key fst (constituents_full.constituentid c)
                (artist_works links) (artist_works_keys links)) as Hlen.
  destruct (filter (fun w => key_eqb (constituents_full.constituentid c)
                                     (fst w)) (artist_works links))
    as [|w [|w' ws]] eqn:E; simpl in Hlen; [| |lia].
  - f_equal. f_equal. unfold count_works.
    destruct (constituents_full.constituentid c) as [z|] eqn:Ek;
      [|reflexivity].
    destruct (works_of links (Some z)) as [|l ls] eqn:Ew; [reflexivity|].
    exfalso.
    assert (Hin : In (Some z, Z.of_nat (length (works_of links (Some z))))
                     (artist_works links)).
    { apply artist_works_In. rewrite Ew. repeat split; discriminate. }
    assert (Hf : In (Some z, Z.of_nat (length (works_of links (Some z))))
                    (filter (fun w => key_eqb (Some z) (fst w))
                            (artist_works links))).
    { apply filter_In. split; [assumption|]. now apply key_eqb_eq. }
    rewrite E in Hf. contradiction.
  - simpl. f_equal. f_equal.
    assert (Hw : In w (filter (fun w => key_eqb
                                 (constituents_full.constituentid c) (fst w))
                              (artist_works links)))
      by (rewrite E; now left).
    apply filter_In in Hw. destruct Hw as [Hw Hk].
    apply key_eqb_eq in Hk. destruct w as [k n]. simpl in *. subst k.
    apply artist_works_In in Hw. destruct Hw as (Hsome & _ & ->).
    unfold count_works. now destruct (constituents_full.constituentid c).
Qed.

(** The left join with the counts gives one row for each artist. *)
Lemma with_works_counts (artists : list artist)
    (links : list (objects_constituents.row cell)) :
  with_works artists (artist_works links)
  = map (fun c => (c, count_works links (constituents_full.constituentid c)))
        artists.
Proof.
  unfold with_works.
  induction artists as [|c artists IH]; [reflexivity|].
  cbn [flat_map map]. rewrite with_works_piece.
  cbn [app]. f_equal. exact IH.
Qed.

Lemma with_works_exact (artists : list artist)
    (links : list (objects_constituents.row cell)) :
  map fst (with_works artists (artist_works links)) = artists /\
  Forall (fun r => snd r
                   = count_works links
                       (constituents_full.constituentid (fst r)))
         (with_works artists (artist_works links)).
Proof.
  rewrite with_works_counts. split.
  - rewrite map_map. simpl. apply map_id.
  - apply Forall_forall. intros r Hr. apply in_map_iff in Hr.
    now destruct Hr as (c & <- & _).
Qed.

(** X18.  With statistics, [search_artists] lists every artist it found
    exactly once, also an artist without any work; the count beside an
    artist is the number of links of role "artist" to its constituent
    id, and no row has fewer works than a later one. *)
Theorem search_lists_each_artist_with_its_works
    (search_term : string)
    (CONSTITUENTS_PATH : list (constituents_full.row field))
    (OBJECTS_CONSTITUENTS_PATH : objects_constituents_csv)
    (rows : list (artist * option Z)) :
  search_artists search_term true CONSTITUENTS_PATH OBJECTS_CONSTITUENTS_PATH
                 (Listing rows) ->
  exists artists counted,
    found_artists search_term (constituents_full.read_csv CONSTITUENTS_PATH)
    = Some (Normal artists) /\
    artists <> [] /\
    rows = map (fun r => (fst r, Some (snd r))) counted /\
    Permutation (map fst counted) artists /\
    Forall (fun r =>
              snd r
              = count_works
                  (objects_constituents.read_csv OBJECTS_CONSTITUENTS_PATH)
                  (constituents_full.constituentid (fst r))) counted /\
    descending counted.
Proof.
  intro H. inversion H as [|artists Hf Hne Hs|artists counted Hf Hne _ Hp Hd];
    subst; [discriminate|].
  exists artists, counted.
  destruct (with_works_exact artists
              (objects_constituents.read_csv OBJECTS_CONSTITUENTS_PATH))
    as [Hfst Hcount].
  split; [assumption|]. split; [assumption|]. split; [reflexivity|]. split.
  - rewrite <- Hfst. now apply Permutation_map.
  - split; [|assumption].
    exact (Permutation_Forall (Permutation_sym Hp) Hcount).
Qed.

Lemma descending_app (l1 l2 : list (artist * Z)) :
  descending (l1 ++ l2) ->
  forall r r', In r l1 -> In r' l2 -> snd r' <= snd r.
Proof.
  induction l1 as [|x l1 IH]; simpl; intros Hd r r' Hr Hr'; [contradiction|].
  inversion Hd as [|? ? Hall Hd']; subst.
  destruct Hr as [<-|Hr].
  - rewrite Forall_forall in Hall. apply Hall. apply in_or_app. now right.
  - now apply (IH Hd' r r').
Qed.

Lemma descending_firstn (rows : list (artist * Z)) (n : nat) :
  descending rows -> descending (firstn n rows).
Proof.
  intro Hd. revert n. induction Hd as [|r rows Hall Hd IH]; intro n.
  - rewrite firstn_nil. constructor.
  - destruct n as [|n]; [constructor|]. simpl. constructor; [|apply IH].
    rewrite Forall_forall in *. intros r' Hr'. apply Hall.
    rewrite <- (firstn_skipn n rows). apply in_or_app. now left.
Qed.

Lemma having_works_positive (constituents : list artist)
    (links : list (objects_constituents.row cell)) :
  Forall (fun r => 0 < snd r
                   /\ snd r = count_works links
                                (constituents_full.constituentid (fst r)))
         (having_works constituents (artist_works links)).
Proof.
  apply Forall_forall. intros r Hr. unfold having_works in Hr.
  apply in_flat_map in Hr. destruct Hr as (c & _ & Hr).
  apply in_map_iff in Hr. destruct Hr as ([k n] & <- & Hw).
  apply filter_In in Hw. destruct Hw as [Hw Hk]. apply key_eqb_eq in Hk.
  simpl in *. subst k. apply artist_works_In in Hw.
  destruct Hw as (Hsome & Hne & ->). split.
  - destruct (works_of links (constituents_full.constituentid c));
      [contradiction | simpl; lia].
  - unfold count_works. now destruct (constituents_full.constituentid c).
Qed.

(** X19.  For a number that is not negative, [list_top_artists] lists at
    most that many artists; every artist listed has at least one work
    and the count shown is the number of its links of role "artist";
    the list and the artists left out make up the constituents with
    works, and no artist left out has more works than one listed. *)
Theorem top_artists_are_the_top
    (top_n : Z)
    (CONSTITUENTS_PATH : list (constituents_full.row field))
    (OBJECTS_CONSTITUENTS_PATH : objects_constituents_csv)
    (listed : list (artist * Z)) :
  0 <= top_n ->
  list_top_artists top_n CONSTITUENTS_PATH OBJECTS_CONSTITUENTS_PATH listed ->
  (length listed <= Z.to_nat top_n)%nat /\
  Forall (fun r =>
            0 < snd r /\
            snd r = count_works
                      (objects_constituents.read_csv OBJECTS_CONSTITUENTS_PATH)
                      (constituents_full.constituentid (fst r))) listed /\
  descending listed /\
  exists left_out,
    Permutation (listed ++ left_out)
      (having_works
         (constituents_full.read_csv CONSTITUENTS_PATH)
         (artist_works
            (objects_constituents.read_csv OBJECTS_CONSTITUENTS_PATH))) /\
    forall r r', In r listed -> In r' left_out -> snd r' <= snd r.
Proof.
  intros Hn H. inversion H as [rows Hp Hd]; subst.
  unfold head. apply Z.leb_le in Hn. rewrite Hn.
  set (n := Z.to_nat top_n).
  assert (Hsplit : (firstn n rows ++ skipn n rows)%list = rows)
    by apply firstn_skipn.
  split; [apply firstn_le_length|]. split; [|split].
  - pose proof (having_works_positive
                  (constituents_full.read_csv CONSTITUENTS_PATH)
                  (objects_constituents.read_csv OBJECTS_CONSTITUENTS_PATH))
      as Hpos.
    apply (Permutation_Forall (Permutation_sym Hp)) in Hpos.
    rewrite <- Hsplit in Hpos. now apply Forall_app in Hpos.
  - now apply descending_firstn.
  - exists (skipn n rows). split; [now rewrite Hsplit|].
    apply descending_app. now rewrite Hsplit.
Qed.

Lemma read_as_constituent (lines : list (constituents_full.row field)) :
  constituents.read_csv (map as_constituent lines)
  = map as_constituent (constituents_full.read_csv lines).
Proof.
  unfold constituents.read_csv, constituents_full.read_csv.
  now rewrite !map_map.
Qed.

(** X20.  What the search tool finds for a term, the downloader selects
    for that term given as the only artist name: both search the display
    name for the same pattern, and the downloader does not ask for the
    flag of the collection. *)
Theorem found_artists_are_selected
    (search_term : string)
    (CONSTITUENTS_PATH : list (constituents_full.row field))
    (found : list artist) :
  search_term <> EmptyString ->
  found_artists search_term (constituents_full.read_csv CONSTITUENTS_PATH)
  = Some (Normal found) ->
  exists selected,
    selected_constituents
      (constituents.read_csv (map as_constituent CONSTITUENTS_PATH))
      [search_term] = Some (Normal selected) /\
    forall c, In c found -> In (as_constituent c) selected.
Proof.
  intros Hne. unfold found_artists, selected_constituents.
  apply String.eqb_neq in Hne. rewrite Hne. simpl negb. cbv iota.
  change (String.concat "|" [search_term]) with search_term.
  assert (Hnames :
    map (@constituents.preferreddisplayname cell)
        (constituents.read_csv (map as_constituent CONSTITUENTS_PATH))
    = map (@constituents_full.preferreddisplayname cell)
          (constituents_full.read_csv CONSTITUENTS_PATH)).
  { rewrite read_as_constituent, map_map. reflexivity. }
  rewrite Hnames.
  destruct (str_accessor _) as [[[]|]|]; try discriminate.
  destruct (re.compile search_term) as [pat|]; [|discriminate].
  intros [= <-]. eexists. split; [reflexivity|].
  intros c Hc. apply filter_In in Hc. destruct Hc as [Hc Hm].
  apply filter_In in Hc. destruct Hc as [Hc _].
  apply filter_In. split; [|exact Hm].
  rewrite read_as_constituent. now apply in_map.
Qed.

Lemma search_example :
  search_artists "e" true details_csv works_csv
                 (Listing [(monet, Some 2); (degas, Some 1)]).
Proof.
  apply (@search_counts "e" true details_csv works_csv [degas; monet]
           [(monet, 2); (degas, 1)]).
  - vm_compute. reflexivity.
  - discriminate.
  - reflexivity.
  - vm_compute. apply perm_swap.
  - repeat constructor. simpl. lia.
Qed.

Lemma search_lists_each_artist_with_its_works_example :
  search_artists "e" true details_csv works_csv
                 (Listing [(monet, Some 2); (degas, Some 1)]) /\
  exists artists counted,
    found_artists "e" (constituents_full.read_csv details_csv)
    = Some (Normal artists) /\
    artists <> [] /\
    [(monet, Some 2); (degas, Some 1)]
    = map (fun r => (fst r, Some (snd r))) counted /\
    Permutation (map fst counted) artists /\
    Forall (fun r =>
              snd r
              = count_works (objects_constituents.read_csv works_csv)
                            (constituents_full.constituentid (fst r)))
           counted /\
    descending counted.
Proof.
  split; [exact search_example|].
  exact (search_lists_each_artist_with_its_works "e" details_csv works_csv
           [(monet, Some 2); (degas, Some 1)] search_example).
Defined.

Lemma top_example :
  list_top_artists 1 details_csv works_csv [(monet, 2)].
Proof.
  apply (@top_artists 1 details_csv works_csv [(monet, 2); (degas, 1)]).
  - vm_compute. apply perm_swap.
  - repeat constructor. simpl. lia.
Qed.

Lemma top_artists_are_the_top_example :
  0 <= 1 /\
  list_top_artists 1 details_csv works_csv [(monet, 2)] /\
  (length [(monet, 2)] <= Z.to_nat 1)%nat /\
  exists left_out,
    Permutation ([(monet, 2)] ++ left_out)
      (having_works (constituents_full.read_csv details_csv)
                    (artist_works (objects_constituents.read_csv works_csv)))
    /\
    forall r r', In r [(monet, 2)] -> In r' left_out -> snd r' <= snd r.
Proof.
  assert (H0 : 0 <= 1) by lia.
  destruct (top_artists_are_the_top 1 details_csv works_csv [(monet, 2)]
              H0 top_example) as (H1 & _ & _ & H2).
  split; [exact H0|]. split; [exact top_example|].
  split; [exact H1 | exact H2].
Defined.

Lemma found_artists_are_selected_example :
  "monet" <> EmptyString /\
  found_artists "monet" (constituents_full.read_csv details_csv)
  = Some (Normal [monet]) /\
  exists selected,
    selected_constituents
      (constituents.read_csv (map as_constituent details_csv))
      ["monet"] = Some (Normal selected) /\
    forall c, In c [monet] -> In (as_constituent c) selected.
Proof.
  assert (Hne : "monet" <> EmptyString) by discriminate.
  assert (Hf : found_artists "monet" (constituents_full.read_csv details_csv)
               = Some (Normal [monet])) by (vm_compute; reflexivity).
  split; [exact Hne|]. split; [exact Hf|].
  exact (found_artists_are_selected "monet" details_csv [monet] Hne Hf).
Defined.
